(** * Bookmarks: global marker stores, sticky adjustment, navigation

    A shallow embedding of the marker-store core of the VS Code Bookmarks
    extension:

    - [core/operations.ts]: [nextBookmark], [listBookmarks],
      [indexOfBookmark], [sortBookmarks];
    - [global/globalBookmarks.ts]: the [GlobalBookmarksManager] class
      ([load], [save], [toggle], [addBookmark], [removeBookmark], ...), in
      the revision that normalises paths and reports a failed [load] with
      [showErrorMessage]; the earlier revision of the file has the identity
      for [normalizePath] and a silent [catch], and is otherwise the same.
      Calls of [utils/logger.ts] write to an output channel only and are
      left out, but not what evaluating their arguments does
      ([countBookmarks] in [load], [fileSystemData] in [loadBookmarks]);
    - [extension.ts]: the command handlers of the global scope
      ([bookmarks.toggleGlobal], [bookmarks.toggleGlobalLabeled],
      [bookmarks.listGlobals], and those of the side bar), the sticky engine
      of the global scope, [updateStickyGlobalBookmarks], and
      [getActiveFileBookmarks];
    - [global/globalBookmarkProvider.ts]: [getChildren];
    - [selections.ts]: [selectBookmarkedLines], [shrinkSelection],
      [expandSelectionToNextBookmark];
    - [utils/fs.ts]: [uriWith], [readFileUri], [fileSystemData],
      [parsePosition];
    - [storage/workspaceState.ts]: [loadBookmarks].

    JavaScript numbers that hold line and column numbers are integers [Z];
    JavaScript strings are lists of UTF-16 code units; arrays are lists,
    updated by index with stdpp's [alter] and [delete]; objects shared by
    reference (a [GlobalFile] inside the manager's [_files]) are addressed by
    their index in the owning array. *)

From Stdlib Require Import ZArith NArith Lia String Ascii DecimalString DecimalPos.
From stdpp Require Import base list sorting.

Local Open Scope Z_scope.

(** ** JavaScript strings *)

Module JsString.

(** A string is its sequence of UTF-16 code units. *)
Definition jsstring : Type := list N.

(** Literals: every character of a Rocq string is one code unit. *)
Definition lit (s : string) : jsstring :=
  List.map N_of_ascii (list_ascii_of_string s).

(** [WhiteSpace] and [LineTerminator] code units, the class [\s] of
    regular expressions and the characters [String.prototype.trim]
    removes. *)
Definition isWhiteSpace (c : N) : bool :=
  ((9 <=? c) && (c <=? 13) || (c =? 32) || (c =? 160) || (c =? 5760)
   || (8192 <=? c) && (c <=? 8202) || (c =? 8232) || (c =? 8233)
   || (c =? 8239) || (c =? 8287) || (c =? 12288) || (c =? 65279))%N.

(** [s.replace(/\t/g, "")] *)
Definition removeTabs (s : jsstring) : jsstring :=
  List.filter (fun c => negb (c =? 9)%N) s.

(** [s.replace(/\s/g, "")] *)
Definition removeWhiteSpace (s : jsstring) : jsstring :=
  List.filter (fun c => negb (isWhiteSpace c)) s.

Fixpoint trimStart (s : jsstring) : jsstring :=
  match s with
  | c :: rest => if isWhiteSpace c then trimStart rest else s
  | [] => []
  end.

(** [s.trim()] *)
Definition trim (s : jsstring) : jsstring :=
  rev (trimStart (rev (trimStart s))).

(** [s.includes("\n")] *)
Definition includesNewline (s : jsstring) : bool :=
  existsb (fun c => (c =? 10)%N) s.

(** [(s.match(/\n/g) || []).length] *)
Definition countNewlines (s : jsstring) : Z :=
  Z.of_nat (length (List.filter (fun c => (c =? 10)%N) s)).

(** [n.toString()] for an integer. *)
Definition toString (n : Z) : jsstring :=
  lit (NilZero.string_of_int (Z.to_int n)).

Definition eqb (a b : jsstring) : bool := bool_decide (a = b).

End JsString.
Import JsString.

(** ** Data model ([core/bookmark.ts], [global/globalBookmarks.ts]) *)

(** [interface Bookmark { line: number; column: number; label?: string }] *)
Record Bookmark : Type := mkBookmark {
  line : Z;
  column : Z;
  label : option jsstring;
}.

Definition setLine (newLine : Z) (b : Bookmark) : Bookmark :=
  mkBookmark newLine (column b) (label b).

Definition setLabel (newLabel : jsstring) (b : Bookmark) : Bookmark :=
  mkBookmark (line b) (column b) (Some newLabel).

(** [interface GlobalFile { path: string; bookmarks: Bookmark[] }]; the
    [File] of the project scope has the same two fields. *)
Record GlobalFile : Type := mkGlobalFile {
  path : jsstring;
  bookmarks : list Bookmark;
}.

Definition setBookmarks (bks : list Bookmark) (f : GlobalFile) : GlobalFile :=
  mkGlobalFile (path f) bks.

Definition setPath (p : jsstring) (f : GlobalFile) : GlobalFile :=
  mkGlobalFile p (bookmarks f).

#[global] Instance Bookmark_eq_dec : EqDecision Bookmark.
Proof. solve_decision. Defined.

#[global] Instance GlobalFile_eq_dec : EqDecision GlobalFile.
Proof. solve_decision. Defined.

(** [interface Position { line; character }] of the editor. *)
Record Position : Type := mkPosition {
  pos_line : Z;
  character : Z;
}.

(** ** Arrays *)

Module JsArray.

(** [a.splice(start, 1)]: a negative [start] counts from the end, and a
    start past the end removes nothing. *)
Definition splice1 {A} (a : list A) (start : Z) : list A :=
  let len := Z.of_nat (length a) in
  let actualStart :=
    if start <? 0 then Z.max (len + start) 0 else Z.min start len in
  delete (Z.to_nat actualStart) a.

(** Insertion of one element into a list kept in ascending order of [key],
    after the elements it ties with. *)
Fixpoint insertBy {A} (key : A -> Z) (x : A) (a : list A) : list A :=
  match a with
  | [] => [x]
  | y :: rest =>
      if key y <=? key x then y :: insertBy key x rest else x :: y :: rest
  end.

(** [a.sort((n1, n2) => key(n1) - key(n2))]. [Array.prototype.sort] is
    stable, and the stable arrangement of a list for a comparator that is
    a total preorder is unique: it is the one insertion sort builds, taking
    the elements from left to right. *)
Definition sortBy {A} (key : A -> Z) (a : list A) : list A :=
  fold_left (fun sorted x => insertBy key x sorted) a [].

End JsArray.
Import JsArray.

(** ** [core/operations.ts] *)

(** The loop of [indexOfBookmark]: the index of the first bookmark on
    [line], counting from [index], or [-1]. *)
Fixpoint indexOfBookmark_from (bks : list Bookmark) (l : Z) (index : Z) : Z :=
  match bks with
  | [] => -1
  | element :: rest =>
      if line element =? l then index
      else indexOfBookmark_from rest l (index + 1)
  end.

Definition indexOfBookmark (file : GlobalFile) (l : Z) : Z :=
  indexOfBookmark_from (bookmarks file) l 0.

(** [sortBookmarks]; its comparator returns 1, -1 or 0 as [n1.line] is
    above, below or equal to [n2.line]. *)
Definition sortBookmarks (bks : list Bookmark) : list Bookmark :=
  sortBy line bks.

(** [enum Directions] of [core/constants.ts]. *)
Inductive Directions : Type := Forward | Backward.

(** The [for ... of] scan of [nextBookmark] in direction [Forward]: the
    position of the first element on a line after the cursor's. *)
Fixpoint scanForward (bks : list Bookmark) (currentLine : Z) : option Position :=
  match bks with
  | [] => None
  | element :: rest =>
      if line element >? currentLine
      then Some (mkPosition (line element) (column element))
      else scanForward rest currentLine
  end.

(** The scan of direction [Backward] visits the indices from
    [length - 1] down to [0]: [rbks] is the array reversed. *)
Fixpoint scanBackward (rbks : list Bookmark) (currentLine : Z) : option Position :=
  match rbks with
  | [] => None
  | element :: rest =>
      if line element <? currentLine
      then Some (mkPosition (line element) (column element))
      else scanBackward rest currentLine
  end.

Section Navigation.

(** The four sentinels declared in [core/constants.ts]; nothing below
    depends on their values. *)
Variables NO_BOOKMARKS NO_MORE_BOOKMARKS NO_BOOKMARKS_BEFORE NO_BOOKMARKS_AFTER : Z.

(** The settings [bookmarks.navigateThroughAllFiles] and
    [bookmarks.wrapNavigation]. *)
Variables navigateThroughAllFiles wrapNavigation : bool.

(** [nextBookmark]: the promise resolves to a [number] (a sentinel) or to
    a [Position]. The function is typed to receive an array; its
    rejection of an undefined argument is left out. *)
Definition nextBookmark (bookmarks : list Bookmark) (currentPosition : Position)
    (direction : Directions) : Z + Position :=
  match bookmarks with
  | [] =>
      if navigateThroughAllFiles then inl NO_BOOKMARKS
      else inr currentPosition
  | first :: _ =>
      match direction with
      | Forward =>
          match scanForward bookmarks (pos_line currentPosition) with
          | None =>
              if navigateThroughAllFiles then inl NO_MORE_BOOKMARKS
              else if negb wrapNavigation then inl NO_BOOKMARKS_AFTER
              else inr (mkPosition (line first) (column first))
          | Some nextBookmark => inr nextBookmark
          end
      | Backward =>
          match scanBackward (rev bookmarks) (pos_line currentPosition) with
          | None =>
              if navigateThroughAllFiles then inl NO_MORE_BOOKMARKS
              else if negb wrapNavigation then inl NO_BOOKMARKS_BEFORE
              else
                let final := List.last bookmarks first in
                inr (mkPosition (line final) (column final))
          | Some nextBookmark => inr nextBookmark
          end
      end
  end.

End Navigation.

(** ** Text documents and edits (the editor's side) *)

(** A document is the list of the texts of its lines. *)
Definition TextDocument : Type := list jsstring.

Definition lineCount (doc : TextDocument) : Z := Z.of_nat (length doc).

(** [doc.lineAt(line).text]; [lineAt] throws for a line outside the
    document. *)
Definition lineAt (doc : TextDocument) (l : Z) : option jsstring :=
  if l <? 0 then None else doc !! Z.to_nat l.

(** One element of [event.contentChanges]: the replaced range and the text
    that replaces it. *)
Record TextDocumentContentChangeEvent : Type := mkChange {
  range_start : Position;
  range_end : Position;
  text : jsstring;
}.

(** The outcome of a call that may throw. *)
Inductive completion (A : Type) : Type :=
| Returns (a : A)
| Throws (e : jsstring).
Arguments Returns {A} a.
Arguments Throws {A} e.

(** ** The sticky engine of the global scope ([extension.ts]) *)

Module Sticky.

(** [manager.updateBookmarkLine(globalFile, index, newLine)] *)
Definition updateBookmarkLine (bks : list Bookmark) (index : Z) (newLine : Z)
    : list Bookmark :=
  alter (setLine newLine) (Z.to_nat index) bks.

(** The start column of the edit, taken as 0 when the edited line, in the
    document as it is after the edit, holds white space only. *)
Definition startCharacter (document : TextDocument) (eventLine eventChar : Z)
    : completion Z :=
  if eventChar >? 0 then
    match lineAt document eventLine with
    | None => Throws (lit "Illegal value for `line`")
    | Some text =>
        if bool_decide (removeWhiteSpace (removeTabs text) = [])
        then Returns 0 else Returns eventChar
    end
  else Returns eventChar.

(** The test both shifting loops apply to a bookmark. *)
Definition isShifted (bkmLine eventLine eventChar : Z) : bool :=
  (bkmLine >? eventLine) && (eventChar >? 0)
  || (bkmLine >=? eventLine) && (eventChar =? 0).

(** The loop of the branch [isAdd], over the indices of the array. *)
Fixpoint shiftAdded (bks : list Bookmark) (eventLine eventChar numberOfLinesAdded : Z)
    (updated : bool) : list Bookmark * bool :=
  match bks with
  | [] => ([], updated)
  | b :: rest =>
      let bkmLine := line b in
      if isShifted bkmLine eventLine eventChar then
        let '(rest', updated') :=
          shiftAdded rest eventLine eventChar numberOfLinesAdded true in
        (setLine (bkmLine + numberOfLinesAdded) b :: rest', updated')
      else
        let '(rest', updated') :=
          shiftAdded rest eventLine eventChar numberOfLinesAdded updated in
        (b :: rest', updated')
  end.

(** The first loop of the branch [isDel], over the [count] lines from
    [l] up to the end of the deleted range. *)
Fixpoint removeDeleted (keepBookmarksOnLineDelete : bool) (endLine : Z)
    (count : nat) (l : Z) (bks : list Bookmark) (updated : bool)
    : list Bookmark * bool :=
  match count with
  | O => (bks, updated)
  | S count' =>
      let idx := indexOfBookmark_from bks l 0 in
      if idx >? -1 then
        let bks' :=
          if keepBookmarksOnLineDelete then
            let hasAfter := indexOfBookmark_from bks endLine 0 >? -1 in
            if negb hasAfter then updateBookmarkLine bks idx endLine
            else splice1 bks idx
          else splice1 bks idx in
        removeDeleted keepBookmarksOnLineDelete endLine count' (l + 1) bks' true
      else
        removeDeleted keepBookmarksOnLineDelete endLine count' (l + 1) bks updated
  end.

(** The second loop of the branch [isDel]; it reads the text of the start
    line again for every bookmark, and a throw leaves the bookmarks as
    they are at that moment. *)
Fixpoint shiftDeleted (document : TextDocument) (bks : list Bookmark)
    (eventLine eventChar0 numberOfLinesDeleted : Z) (updated : bool)
    : list Bookmark * completion bool :=
  match bks with
  | [] => ([], Returns updated)
  | b :: rest =>
      let bkmLine := line b in
      match startCharacter document eventLine eventChar0 with
      | Throws e => (b :: rest, Throws e)
      | Returns eventChar =>
          if isShifted bkmLine eventLine eventChar then
            let '(rest', r) :=
              shiftDeleted document rest eventLine eventChar0
                numberOfLinesDeleted true in
            (setLine (bkmLine - numberOfLinesDeleted) b :: rest', r)
          else
            let '(rest', r) :=
              shiftDeleted document rest eventLine eventChar0
                numberOfLinesDeleted updated in
            (b :: rest', r)
      end
  end.

(** The body of the loop over [event.contentChanges] for one change. *)
Definition applyChange (keepBookmarksOnLineDelete : bool)
    (document : TextDocument) (change : TextDocumentContentChangeEvent)
    (bks : list Bookmark) (updated : bool) : list Bookmark * completion bool :=
  let isAdd := includesNewline (text change) in
  let isDel := pos_line (range_start change) <? pos_line (range_end change) in
  if negb isAdd && negb isDel then (bks, Returns updated)
  else
    let afterAdd :=
      if isAdd then
        let numberOfLinesAdded := countNewlines (text change) in
        let eventLine := pos_line (range_start change) in
        match startCharacter document eventLine (character (range_start change)) with
        | Throws e => (bks, Throws e)
        | Returns eventChar =>
            let '(bks', updated') :=
              shiftAdded bks eventLine eventChar numberOfLinesAdded updated in
            (bks', Returns updated')
        end
      else (bks, Returns updated) in
    match afterAdd with
    | (bks1, Throws e) => (bks1, Throws e)
    | (bks1, Returns updated1) =>
        if isDel then
          let startLine := pos_line (range_start change) in
          let endLine := pos_line (range_end change) in
          let '(bks2, updated2) :=
            removeDeleted keepBookmarksOnLineDelete endLine
              (Z.to_nat (endLine - startLine)) startLine bks1 updated1 in
          let numberOfLinesDeleted := endLine - startLine in
          shiftDeleted document bks2 startLine (character (range_start change))
            numberOfLinesDeleted updated2
        else (bks1, Returns updated1)
    end.

(** The loop over [event.contentChanges]. *)
Fixpoint applyChanges (keepBookmarksOnLineDelete : bool)
    (document : TextDocument) (changes : list TextDocumentContentChangeEvent)
    (bks : list Bookmark) (updated : bool) : list Bookmark * completion bool :=
  match changes with
  | [] => (bks, Returns updated)
  | change :: rest =>
      match applyChange keepBookmarksOnLineDelete document change bks updated with
      | (bks', Throws e) => (bks', Throws e)
      | (bks', Returns updated') =>
          applyChanges keepBookmarksOnLineDelete document rest bks' updated'
      end
  end.

(** [updateStickyGlobalBookmarks(event, globalFile, editor, manager)]:
    the bookmarks of [globalFile] after the call, and what the call
    returned. [keepBookmarksOnLineDelete] is the setting of that name and
    [document] is [editor.document], the text after the edit. *)
Definition updateStickyGlobalBookmarks (keepBookmarksOnLineDelete : bool)
    (contentChanges : list TextDocumentContentChangeEvent)
    (globalFile : GlobalFile) (document : TextDocument)
    : GlobalFile * completion bool :=
  match contentChanges with
  | [] => (globalFile, Returns false)
  | _ =>
      let '(bks, r) :=
        applyChanges keepBookmarksOnLineDelete document contentChanges
          (bookmarks globalFile) false in
      (setBookmarks bks globalFile, r)
  end.

End Sticky.

(** ** The manager of the global scope ([global/globalBookmarks.ts]) *)

Record Uri : Type := mkUri { fsPath : jsstring }.

(** What a call lets the outside observe: the events of the manager's four
    emitters and the messages shown to the user. An event's [file] is the
    index of that [GlobalFile] in [_files]. *)
Inductive Notification : Type :=
| onDidChange
| onDidAddBookmark (file : nat) (l c : Z) (linePreview lbl : option jsstring) (uri : Uri)
| onDidRemoveBookmark (file : nat) (l : Z)
| onDidUpdateBookmark (file : nat) (index l : Z) (c : option Z)
    (linePreview lbl : option jsstring)
| showErrorMessage (message : jsstring) (args : list jsstring).

(** An element of an array that [JSON.parse] returns, as far as [load]
    reads it: a [GlobalFile] (an object with a string [path] and an array
    of bookmarks); an object with a string [path] whose [bookmarks] are
    undefined or null, [e] being the [TypeError] that reading their
    [length] throws; or an element without a string [path] ([null], a
    number, an object without one), [e] being the [TypeError] that
    [normalizePath(file.path)] throws for it. An object with a string
    [path] whose [bookmarks] are anything else is no [GlobalFile], and has
    no place here. *)
Inductive JSONElement : Type :=
| JSONFile (file : GlobalFile)
| JSONWithoutBookmarks (path : jsstring) (e : jsstring)
| JSONWithoutPath (e : jsstring).

(** What [JSON.parse] returns to [load]: an array, or any other value. *)
Inductive JSONValue : Type :=
| JSONArray (elements : list JSONElement)
| JSONOther.

(** The manager together with the part of the host it writes to:
    [globalState] is the value stored under [GLOBAL_BOOKMARKS_KEY] (absent
    at first), [fired] the notifications so far, latest last. *)
Record Manager : Type := mkManager {
  _files : list GlobalFile;
  globalState : option jsstring;
  fired : list Notification;
}.

Definition setFiles (files : list GlobalFile) (m : Manager) : Manager :=
  mkManager files (globalState m) (fired m).

Definition fire (n : Notification) (m : Manager) : Manager :=
  mkManager (_files m) (globalState m) (fired m ++ [n]).

(** [new GlobalBookmarksManager()] on a host that has nothing stored. *)
Definition newManager : Manager := mkManager [] None [].

(** [file.bookmarks] for the file at index [file]. *)
Definition bookmarksOf (m : Manager) (file : nat) : list Bookmark :=
  match _files m !! file with
  | Some f => bookmarks f
  | None => []
  end.

(** [file.bookmarks = ...] and in-place changes of that array. *)
Definition withBookmarks (file : nat) (bks : list Bookmark) (m : Manager) : Manager :=
  setFiles (alter (setBookmarks bks) file (_files m)) m.

(** [label || ""] *)
Definition orEmpty (lbl : option jsstring) : jsstring :=
  match lbl with
  | Some s => s
  | None => []
  end.

(** [label || undefined] *)
Definition orUndefined (lbl : option jsstring) : option jsstring :=
  match lbl with
  | Some [] => None
  | other => other
  end.

(** A string in a condition: true unless undefined or empty. *)
Definition truthy (lbl : option jsstring) : bool :=
  match orUndefined lbl with
  | Some _ => true
  | None => false
  end.

(** [.replace(/\\/g, "/")] *)
Definition slashes (s : jsstring) : jsstring :=
  List.map (fun c => if (c =? 92)%N then 47%N else c) s.

(** [.replace(/\/+/g, "/")] *)
Fixpoint collapseSlashes (s : jsstring) : jsstring :=
  match s with
  | [] => []
  | c :: rest =>
      if (c =? 47)%N then
        match rest with
        | c' :: _ => if (c' =? 47)%N then collapseSlashes rest else c :: collapseSlashes rest
        | [] => [c]
        end
      else c :: collapseSlashes rest
  end.

(** The host of the extension, as far as the code below calls it:
    [JSON.parse] (which throws on a malformed text) and [JSON.stringify],
    [String.prototype.toLowerCase], whether [process.platform] is
    ["win32"], [workspace.openTextDocument] ([None] when it rejects),
    [Uri.file], [uri.path], [uri.with({ path })], [uriExists] of
    [utils/fs.ts], and the icon text [codicons.tag]. *)
Class Host : Type := {
  JSON_parse : jsstring -> completion JSONValue;
  JSON_stringify : list GlobalFile -> jsstring;
  toLowerCase : jsstring -> jsstring;
  win32 : bool;
  openTextDocument : Uri -> option TextDocument;
  Uri_file : jsstring -> Uri;
  uri_path : Uri -> jsstring;
  uri_with_path : Uri -> jsstring -> Uri;
  uriExists : Uri -> bool;
  codicons_tag : jsstring;
}.

(** [this._files.find((f) => f.path === filePath)], as an index. *)
Definition findFile (filePath : jsstring) (files : list GlobalFile) : option nat :=
  fst <$> list_find (fun f => path f = filePath) files.

Section GlobalBookmarksManager.

Context {host : Host}.

Definition normalizePath (filePath : jsstring) : jsstring :=
  let normalized := collapseSlashes (slashes filePath) in
  if win32 then toLowerCase normalized else normalized.

(** The arrow function of [parsed.map] in [load],
    [(file) => ({ ...file, path: this.normalizePath(file.path) })]: the
    call of [normalizePath] throws for an element without a string
    [path]. *)
Definition withNormalizedPath (file : JSONElement) : completion JSONElement :=
  match file with
  | JSONFile f => Returns (JSONFile (setPath (normalizePath (path f)) f))
  | JSONWithoutBookmarks p e => Returns (JSONWithoutBookmarks (normalizePath p) e)
  | JSONWithoutPath e => Throws e
  end.

(** [parsed.map(...)], from the first element on. *)
Fixpoint mapElements (parsed : list JSONElement) : completion (list JSONElement) :=
  match parsed with
  | [] => Returns []
  | file :: rest =>
      match withNormalizedPath file with
      | Throws e => Throws e
      | Returns mappedFile =>
          match mapElements rest with
          | Throws e => Throws e
          | Returns mapped => Returns (mappedFile :: mapped)
          end
      end
  end.

(** [this.countBookmarks()], called for the log over the array [load] has
    just assigned: reading [file.bookmarks.length] throws at the first
    element without bookmarks. When it returns, the elements are the
    [GlobalFile]s given. (The [map] returns no element without a [path].) *)
Fixpoint countLoaded (mapped : list JSONElement) : completion (list GlobalFile) :=
  match mapped with
  | [] => Returns []
  | JSONFile f :: rest =>
      match countLoaded rest with
      | Throws e => Throws e
      | Returns files => Returns (f :: files)
      end
  | JSONWithoutBookmarks _ e :: _ => Throws e
  | JSONWithoutPath e :: _ => Throws e
  end.

(** [load]: whatever is thrown inside the [try], by [JSON.parse], by the
    [map] or by the count for the log, is caught. *)
Definition load (m : Manager) : Manager :=
  let saved := default [] (globalState m) in
  if negb (eqb saved []) then
    let caught e :=
      setFiles []
        (fire (showErrorMessage (lit "Error loading global bookmarks: {0}") [e]) m) in
    match JSON_parse saved with
    | Returns (JSONArray parsed) =>
        match mapElements parsed with
        | Throws e => caught e
        | Returns mapped =>
            match countLoaded mapped with
            | Throws e => caught e
            | Returns files => setFiles files m
            end
        end
    | Returns JSONOther => m
    | Throws e => caught e
    end
  else m.

Definition save (m : Manager) : Manager :=
  let toSave :=
    List.map (fun file => setPath (normalizePath (path file)) file)
      (List.filter (fun f => 0 <? Z.of_nat (length (bookmarks f))) (_files m)) in
  mkManager (_files m) (Some (JSON_stringify toSave)) (fired m).

Definition getOrCreateFile (uri : Uri) (m : Manager) : Manager * nat :=
  let filePath := normalizePath (fsPath uri) in
  match findFile filePath (_files m) with
  | Some file => (m, file)
  | None =>
      (setFiles (_files m ++ [mkGlobalFile filePath []]) m, length (_files m))
  end.

Definition fromUri (uri : option Uri) (m : Manager) : option nat :=
  match uri with
  | None => None
  | Some u => findFile (normalizePath (fsPath u)) (_files m)
  end.

Definition getBookmarksForFile (uri : Uri) (m : Manager) : list Bookmark :=
  match fromUri (Some uri) m with
  | Some file => bookmarksOf m file
  | None => []
  end.

Definition addBookmark (uri : Uri) (l c : Z) (lbl : option jsstring) (m : Manager)
    : Manager :=
  let '(m, file) := getOrCreateFile uri m in
  let pushed := bookmarksOf m file ++ [mkBookmark l c (Some (orEmpty lbl))] in
  let m := withBookmarks file (sortBy line pushed) m in
  let linePreview :=
    match openTextDocument uri with
    | Some doc =>
        match lineAt doc l with
        | Some t => trim t
        | None => []
        end
    | None => []
    end in
  fire (onDidAddBookmark file (l + 1) (c + 1)
          (if truthy lbl then None else Some linePreview) (orUndefined lbl) uri) m.

Definition removeBookmark (file : nat) (index : Z) (l : Z) (m : Manager) : Manager :=
  let m := withBookmarks file (splice1 (bookmarksOf m file) index) m in
  fire (onDidRemoveBookmark file (l + 1)) m.

Definition notifyAndSave (m : Manager) : Manager :=
  fire onDidChange (save m).

(** [toggle]: the promise resolves to [true] when a bookmark was added. *)
Definition toggle (uri : Uri) (l c : Z) (lbl : option jsstring) (m : Manager)
    : Manager * bool :=
  let '(m, file) := getOrCreateFile uri m in
  let index := indexOfBookmark_from (bookmarksOf m file) l 0 in
  if index >=? 0 then
    let m :=
      if truthy lbl then
        let m :=
          withBookmarks file
            (alter (setLabel (orEmpty lbl)) (Z.to_nat index) (bookmarksOf m file)) m in
        fire (onDidUpdateBookmark file index (l + 1) (Some (c + 1)) None lbl) m
      else removeBookmark file index l m in
    (fire onDidChange (save m), false)
  else
    let m := addBookmark uri l c lbl m in
    (fire onDidChange (save m), true).

Definition updateLabel (file : nat) (index : Z) (l c : Z) (newLabel : jsstring)
    (m : Manager) : Manager :=
  let m :=
    withBookmarks file
      (alter (fun _ => mkBookmark l c (Some newLabel)) (Z.to_nat index)
         (bookmarksOf m file)) m in
  let m :=
    if eqb newLabel [] then
      fire (onDidUpdateBookmark file index (l + 1) (Some (c + 1)) (Some []) None) m
    else
      fire (onDidUpdateBookmark file index (l + 1) (Some (c + 1)) None (Some newLabel)) m in
  fire onDidChange (save m).

Definition clearFile (filePath : jsstring) (m : Manager) : Manager :=
  let m :=
    match findFile (normalizePath filePath) (_files m) with
    | Some file => withBookmarks file [] m
    | None => m
    end in
  fire onDidChange (save m).

Definition clearAll (m : Manager) : Manager :=
  fire onDidChange (save (setFiles [] m)).

Definition removeBookmarkByLine (file : nat) (l : Z) (m : Manager) : Manager * bool :=
  let index := indexOfBookmark_from (bookmarksOf m file) l 0 in
  if index >=? 0 then (withBookmarks file (splice1 (bookmarksOf m file) index) m, true)
  else (m, false).

(** *** The command [bookmarks.toggleGlobal] ([extension.ts]) *)

(** A message a command shows, by [window.showInformationMessage] or by
    [window.showWarningMessage], with its text. *)
Inductive Message : Type :=
| Information (text : jsstring)
| Warning (text : jsstring).

(** [window.activeTextEditor], as far as the commands read it: the uri of
    its document, whether the scheme of that uri is [SEARCH_EDITOR_SCHEME],
    and its selections, each given by its [active] position. *)
Record TextEditor : Type := mkTextEditor {
  document_uri : Uri;
  searchEditor : bool;
  selections : list Position;
}.

Inductive ForceState : Type := on | off.

(** The loop over the selections; [toggledLines] are the lines the loop
    has visited. A selection is given by its [active] position. *)
Fixpoint toggleSelections (forceState : option ForceState) (uri : Uri)
    (selections : list Position) (toggledLines : list Z) (m : Manager) : Manager :=
  match selections with
  | [] => m
  | sel :: rest =>
      let l := pos_line sel in
      if bool_decide (l ∈ toggledLines)
      then toggleSelections forceState uri rest toggledLines m
      else
        let toggledLines := toggledLines ++ [l] in
        let m :=
          match forceState with
          | Some on =>
              match fromUri (Some uri) m with
              | Some file =>
                  if indexOfBookmark_from (bookmarksOf m file) l 0 <? 0
                  then addBookmark uri l (character sel) None m
                  else m
              | None => addBookmark uri l (character sel) None m
              end
          | Some off =>
              match fromUri (Some uri) m with
              | Some file =>
                  let idx := indexOfBookmark_from (bookmarksOf m file) l 0 in
                  if idx >=? 0 then removeBookmark file idx l m else m
              | None => m
              end
          | None => fst (toggle uri l (character sel) None m)
          end in
        toggleSelections forceState uri rest toggledLines m
  end.

(** The handler: the manager afterwards and the message shown, if any.
    [activeTextEditor] is [None] when no editor is active, and [toggleMode]
    is the setting [bookmarks.multicursor.toggleMode]. *)
Definition toggleGlobal (toggleMode : jsstring) (activeTextEditor : option TextEditor)
    (m : Manager) : Manager * option Message :=
  match activeTextEditor with
  | None => (m, Some (Information (lit "Open a file first to toggle global bookmarks")))
  | Some editor =>
      if searchEditor editor then
        (m, Some (Information (lit "You can't toggle global bookmarks in Search Editor")))
      else
        let uri := document_uri editor in
        let selections := selections editor in
        let forceState :=
          if eqb toggleMode (lit "allLinesAtOnce") && (1 <? Z.of_nat (length selections))
          then
            let allBookmarked :=
              match fromUri (Some uri) m with
              | Some file =>
                  forallb (fun sel =>
                    indexOfBookmark_from (bookmarksOf m file) (pos_line sel) 0 >=? 0)
                    selections
              | None => false
              end in
            Some (if allBookmarked then off else on)
          else None in
        (notifyAndSave (toggleSelections forceState uri selections [] m), None)
  end.

(** *** The global part of the handler of [onDidChangeTextDocument] *)

(** [updateStickyGlobalBookmarks] works on the [GlobalFile] object of the
    manager; a throw ends the handler with the array as it is then. *)
Definition stickyGlobal (keepBookmarksOnLineDelete : bool) (uri : Uri)
    (contentChanges : list TextDocumentContentChangeEvent)
    (document : TextDocument) (m : Manager) : Manager :=
  match fromUri (Some uri) m with
  | Some file =>
      match _files m !! file with
      | Some globalFile =>
          if 0 <? Z.of_nat (length (bookmarks globalFile)) then
            match Sticky.updateStickyGlobalBookmarks keepBookmarksOnLineDelete
                    contentChanges globalFile document with
            | (globalFile', Returns globalUpdated) =>
                let m := withBookmarks file (bookmarks globalFile') m in
                if globalUpdated then notifyAndSave m else m
            | (globalFile', Throws _) => withBookmarks file (bookmarks globalFile') m
            end
          else m
      | None => m
      end
  | None => m
  end.

End GlobalBookmarksManager.

(** ** Listing the bookmarks of a file ([core/operations.ts]) *)

(** [interface File { path: string; bookmarks: Bookmark[]; uri?: Uri }] of
    the project scope. *)
Record File : Type := mkFile {
  file_path : jsstring;
  file_bookmarks : list Bookmark;
  file_uri : option Uri;
}.

Record BookmarkQuickPickItem : Type := mkItem {
  item_description : jsstring;
  item_label : jsstring;
  item_detail : jsstring;
  item_uri : Uri;
}.

(** How a promise ends: it resolves to a value or it stays unsettled (a
    throw inside a [then] callback whose result nobody reads). *)
Inductive settled (A : Type) : Type :=
| Resolved (a : A)
| Unsettled.
Arguments Resolved {A} a.
Arguments Unsettled {A}.

(** [s.endsWith("/")] *)
Definition endsWithSlash (s : jsstring) : bool :=
  match rev s with
  | c :: _ => (c =? 47)%N
  | [] => false
  end.

Section ListBookmarks.

Context {host : Host}.

(** [uriWith] of [utils/fs.ts] *)
Definition uriWith (uri : Uri) (prefix filePath : jsstring) : Uri :=
  let newPrefix := if eqb prefix (lit "/") then [] else prefix in
  uri_with_path uri (newPrefix ++ lit "/" ++ filePath).

(** The loop over the bookmarks of the file: the items and the invalid
    lines found, or [None] when [lineAt] throws. *)
Fixpoint classify (doc : TextDocument) (filePath : jsstring) (uriDocBookmark : Uri)
    (bks : list Bookmark) (items : list BookmarkQuickPickItem) (invalids : list Z)
    : option (list BookmarkQuickPickItem * list Z) :=
  match bks with
  | [] => Some (items, invalids)
  | b :: rest =>
      let bookmarkLine := line b + 1 in
      let bookmarkColumn := column b + 1 in
      if bookmarkLine <=? lineCount doc then
        match lineAt doc (bookmarkLine - 1) with
        | None => None
        | Some t =>
            let lineText := trim t in
            let description :=
              lit "(Ln " ++ toString bookmarkLine ++ lit ", Col "
                ++ toString bookmarkColumn ++ lit ")" in
            let item :=
              if bool_decide (label b = Some [])
              then mkItem description lineText filePath uriDocBookmark
              else
                mkItem description
                  (codicons_tag ++ lit " " ++ default (lit "undefined") (label b))
                  filePath uriDocBookmark in
            classify doc filePath uriDocBookmark rest (items ++ [item]) invalids
        end
      else
        classify doc filePath uriDocBookmark rest items (invalids ++ [bookmarkLine])
  end.

(** [file.bookmarks.indexOf(<Bookmark>{ line: invalid - 1 })]:
    [Array.prototype.indexOf] compares with [===], which for objects is
    identity, and its argument is an object the call itself creates; no
    element of the array is that object, so the result is [-1] whatever
    the array holds. *)
Definition indexOfNewObject (bks : list Bookmark) (l : Z) : Z := -1.

(** The loop over [invalids], with its [splice(idxInvalid, 1)]. *)
Fixpoint removeInvalids (invalids : list Z) (bks : list Bookmark) : list Bookmark :=
  match invalids with
  | [] => bks
  | invalid :: rest =>
      let idxInvalid := indexOfNewObject bks (invalid - 1) in
      removeInvalids rest (splice1 bks idxInvalid)
  end.

(** The [Uri] of the document of [file], [uriDocBookmark] in
    [listBookmarks]; [workspaceFolder] is given by its [uri]. *)
Definition uriDocBookmark (file : File) (workspaceFolder : option Uri) : Uri :=
  match file_uri file with
  | Some u => u
  | None =>
      match workspaceFolder with
      | None => Uri_file (file_path file)
      | Some folder =>
          let prefix :=
            if endsWithSlash (uri_path folder) then uri_path folder
            else uri_path folder ++ lit "/" in
          uriWith folder prefix (file_path file)
      end
  end.

(** [listBookmarks(file, workspaceFolder)]: the file afterwards, and the
    promise's value, [None] for [undefined]. *)
Definition listBookmarks (file : File) (workspaceFolder : option Uri)
    : File * settled (option (list BookmarkQuickPickItem)) :=
  if (length (file_bookmarks file) =? 0)%nat then (file, Resolved None)
  else
    let uri := uriDocBookmark file workspaceFolder in
    if negb (uriExists uri) then (file, Resolved None)
    else
      match openTextDocument uri with
      | None => (file, Unsettled)
      | Some doc =>
          match classify doc (file_path file) uri (file_bookmarks file) [] [] with
          | None => (file, Unsettled)
          | Some (items, invalids) =>
              (mkFile (file_path file) (removeInvalids invalids (file_bookmarks file))
                 (file_uri file),
               Resolved (Some items))
          end
      end.

End ListBookmarks.

(** ** Loading the project scope ([storage/workspaceState.ts]) *)

Section WorkspaceState.

(** The controller of the project scope ([core/controller.ts]) is used
    through its constructor and [loadFrom(jsonObject, relativePath?)],
    which works on the controller it is called on and may throw; [parse]
    is [JSON.parse] and [JSON] the type of what it returns. *)
Variable JSON : Type.
Variable parse : jsstring -> completion JSON.
Variable Controller : Type.
Variable newController : Controller.
Variable loadFrom : Controller -> JSON -> option bool -> Controller * completion unit.

(** [[...wsBookmarks, ...gsBookmarks].sort((a, b) => a.line - b.line)] in
    [fileSystemData], which throws when a parsed value cannot be spread or
    an element has no [line] to read; [emptyArray] is the [[]] the two
    variables start from. *)
Variable mergeBookmarks : JSON -> JSON -> completion unit.
Variable emptyArray : JSON.

(** [saveBookmarksInProject] is the setting of that name and
    [workspaceFolders] is [workspace.workspaceFolders?.length ?? 0]. *)
Definition canSaveBookmarksInProject (saveBookmarksInProject : bool)
    (workspaceFolders : Z) : bool :=
  if saveBookmarksInProject && (workspaceFolders =? 0) then false
  else saveBookmarksInProject.

(** [readFileUri] of [utils/fs.ts]: the decoded bytes of the file, parsed.
    [bytes] is what [workspace.fs.readFile] gives. *)
Definition readFileUri (bytes : completion jsstring) : completion JSON :=
  match bytes with
  | Throws e => Throws e
  | Returns decoded => parse decoded
  end.

(** [fileSystemData(wsFolder)] of [utils/fs.ts], called with a workspace
    folder: it parses the texts stored under ["bookmarks"] in the workspace
    state and under ["globalBookmarks"] in the global state, each in a
    [try] whose [catch] shows an error message, and merges what it parsed.
    Its caller only logs the data it returns, so the result here is
    whether it returns, and the messages shown. *)
Definition fileSystemData (savedBookmarks globalBookmarks : option jsstring)
    : completion unit * list Notification :=
  let '(wsBookmarks, shownWs) :=
    match parse (default (lit "[]") savedBookmarks) with
    | Returns parsed => (parsed, [])
    | Throws e =>
        (emptyArray, [showErrorMessage (lit "Error loading Bookmarks: " ++ e) []])
    end in
  let '(gsBookmarks, shownGs) :=
    match parse (default (lit "[]") globalBookmarks) with
    | Returns parsed => (parsed, [])
    | Throws e =>
        (emptyArray, [showErrorMessage (lit "Error loading Global Bookmarks: " ++ e) []])
    end in
  (mergeBookmarks wsBookmarks gsBookmarks, shownWs ++ shownGs).

(** [loadBookmarks(workspaceFolder)]; the folder is given by its [uri].
    The argument of the first [logger.debug] calls [fileSystemData] when a
    folder is given. [bookmarksFileInProject] is the file
    [.vscode/bookmarks.json] of the folder, [None] when it does not exist,
    [savedBookmarks] is the value stored under ["bookmarks"] in the
    workspace state and [globalBookmarks] the one stored under
    ["globalBookmarks"] in the global state. The result is how the promise
    ends, a controller or a throw, and the messages shown to the user. *)
Definition loadBookmarks (saveBookmarksInProject : bool) (workspaceFolders : Z)
    (workspaceFolder : option Uri)
    (bookmarksFileInProject : option (completion jsstring))
    (savedBookmarks globalBookmarks : option jsstring)
    : completion Controller * list Notification :=
  let '(logged, shown) :=
    match workspaceFolder with
    | None => (Returns tt, [])
    | Some _ => fileSystemData savedBookmarks globalBookmarks
    end in
  match logged with
  | Throws error => (Throws error, shown)
  | Returns _ =>
      if canSaveBookmarksInProject saveBookmarksInProject workspaceFolders then
        match workspaceFolder with
        | None =>
            (Throws (lit "TypeError: Cannot read properties of undefined (reading 'uri')"),
             shown)
        | Some _ =>
            match bookmarksFileInProject with
            | None => (Returns newController, shown)
            | Some bytes =>
                match readFileUri bytes with
                | Throws error =>
                    (Returns newController,
                     shown ++ [showErrorMessage (lit "Error loading Bookmarks: " ++ error) []])
                | Returns contents =>
                    match loadFrom newController contents (Some true) with
                    | (loaded, Returns _) => (Returns loaded, shown)
                    | (loaded, Throws error) =>
                        (Returns loaded,
                         shown
                         ++ [showErrorMessage (lit "Error loading Bookmarks: " ++ error) []])
                    end
                end
            end
        end
      else
        let saved := default [] savedBookmarks in
        if negb (eqb saved []) then
          match parse saved with
          | Throws error => (Throws error, shown)
          | Returns parsed =>
              match loadFrom newController parsed None with
              | (loaded, Returns _) => (Returns loaded, shown)
              | (_, Throws error) => (Throws error, shown)
              end
          end
        else (Returns newController, shown)
  end.

End WorkspaceState.

(** ** Counting the bookmarks of the global scope ([global/globalBookmarks.ts]) *)

Definition hasAnyBookmark (m : Manager) : bool :=
  existsb (fun f => 0 <? Z.of_nat (length (bookmarks f))) (_files m).

Definition countBookmarks (m : Manager) : Z :=
  fold_left (fun total file => total + Z.of_nat (length (bookmarks file))) (_files m) 0.

Definition countFilesWithBookmarks (m : Manager) : Z :=
  Z.of_nat (length (List.filter (fun f => 0 <? Z.of_nat (length (bookmarks f))) (_files m))).

(** ** Reading a position back from its text ([utils/fs.ts]) *)

(** [\d] *)
Definition isDigit (c : N) : bool := ((48 <=? c) && (c <=? 57))%N.

(** The longest prefix of [s] whose code units satisfy [p], and the rest
    of [s]. *)
Fixpoint span (p : N -> bool) (s : jsstring) : jsstring * jsstring :=
  match s with
  | c :: rest =>
      if p c then let '(taken, remaining) := span p rest in (c :: taken, remaining)
      else ([], s)
  | [] => ([], [])
  end.

(** The value of a run of decimal digits. *)
Definition decimal (digits : jsstring) : Z :=
  fold_left (fun n c => 10 * n + Z.of_N (c - 48)) digits 0.

(** [parseInt(s, 10)]: leading white space, an optional sign, then the
    digits up to the first other code unit; [None] is [NaN], the result
    when no digit is there. *)
Definition parseInt (s : jsstring) : option Z :=
  let s := trimStart s in
  let '(sign, s) :=
    match s with
    | c :: rest =>
        if (c =? 45)%N then (-1, rest)
        else if (c =? 43)%N then (1, rest)
        else (1, s)
    | [] => (1, s)
    end in
  match fst (span isDigit s) with
  | [] => None
  | digits => Some (sign * decimal digits)
  end.

(** The pieces of the expression [/\(Ln\s(\d+),\sCol\s(\d+)\)/], each
    giving what is left of [s] behind it: a literal text, [\s], and
    [(\d+)] with the text of the group. [\d+] takes the longest run of
    digits; a shorter run is followed by a digit, where the expression goes
    on with [,] or [)], so giving digits back leads to no other match. *)
Definition literally (pre s : jsstring) : option jsstring :=
  if eqb (take (length pre) s) pre then Some (drop (length pre) s) else None.

Definition whiteSpace (s : jsstring) : option jsstring :=
  match s with
  | c :: rest => if isWhiteSpace c then Some rest else None
  | [] => None
  end.

Definition digits (s : jsstring) : option (jsstring * jsstring) :=
  match span isDigit s with
  | ([], _) => None
  | group => Some group
  end.

(** A match of the expression that starts at the first code unit of [s]:
    the texts of its two groups. *)
Definition matchAtStart (s : jsstring) : option (jsstring * jsstring) :=
  s ← literally (lit "(Ln") s;
  s ← whiteSpace s;
  '(l, s) ← digits s;
  s ← literally (lit ",") s;
  s ← whiteSpace s;
  s ← literally (lit "Col") s;
  s ← whiteSpace s;
  '(c, s) ← digits s;
  _ ← literally (lit ")") s;
  Some (l, c).

(** [re.exec(position)]: the match that starts first. *)
Fixpoint exec (s : jsstring) : option (jsstring * jsstring) :=
  match matchAtStart s with
  | Some groups => Some groups
  | None =>
      match s with
      | _ :: rest => exec rest
      | [] => None
      end
  end.

(** What [parsePosition] returns: [line] and [column] are results of
    [parseInt], so numbers or [NaN]. *)
Record Point : Type := mkPoint {
  point_line : option Z;
  point_column : option Z;
}.

Definition parsePosition (position : jsstring) : option Point :=
  match exec position with
  | Some (l, c) => Some (mkPoint (parseInt l) (parseInt c))
  | None => None
  end.

(** ** The side bar of the global scope ([global/globalBookmarkProvider.ts]) *)

(** The two classes of nodes. A [GlobalFileNode] holds the [GlobalFile]
    object itself, here its index in [_files]. *)
Inductive TreeNode : Type :=
| GlobalFileNode (filePath : jsstring) (globalFile : nat)
| GlobalBookmarkNode (lbl : jsstring) (description : option jsstring)
    (filePath : jsstring) (l c : Z) (uri : Uri).

Section GlobalBookmarkProvider.

Context {host : Host}.

(** The text shown for a bookmark: its label behind a pencil (U+270E), or
    the text of its line, or [Line n] when the line cannot be read. *)
Definition preview (uri : Uri) (bkm : Bookmark) : jsstring :=
  if truthy (label bkm) then [9998%N; 32%N] ++ orEmpty (label bkm)
  else
    match openTextDocument uri with
    | Some doc =>
        match lineAt doc (line bkm) with
        | Some t => trim t
        | None => lit "Line " ++ toString (line bkm + 1)
        end
    | None => lit "Line " ++ toString (line bkm + 1)
    end.

(** [getChildren(element)]; [hidePosition] is the value stored under
    [GLOBAL_SIDEBAR_HIDE_POSITION]. *)
Definition getChildren (hidePosition : bool) (element : option TreeNode)
    (m : Manager) : list TreeNode :=
  match element with
  | None =>
      omap id
        (imap (fun i f =>
                 if 0 <? Z.of_nat (length (bookmarks f))
                 then Some (GlobalFileNode (path f) i) else None)
           (_files m))
  | Some (GlobalFileNode filePath globalFile) =>
      let uri := Uri_file filePath in
      (fun bkm =>
         let desc :=
           if negb hidePosition
           then Some (lit "(Ln " ++ toString (line bkm + 1) ++ lit ", Col "
                        ++ toString (column bkm + 1) ++ lit ")")
           else None in
         GlobalBookmarkNode (preview uri bkm) desc filePath (line bkm) (column bkm) uri)
      <$> bookmarksOf m globalFile
  | Some (GlobalBookmarkNode _ _ _ _ _ _) => []
  end.

End GlobalBookmarkProvider.

(** ** The commands of the side bar and of the palette ([extension.ts]) *)

Section GlobalCommands.

Context {host : Host}.

(** [_bookmarks.deleteGlobalBookmark]: only a [GlobalBookmarkNode] has a
    [line]. *)
Definition deleteGlobalBookmark (node : option TreeNode) (m : Manager) : Manager :=
  match node with
  | Some (GlobalBookmarkNode _ _ filePath l c _) =>
      fst (toggle (Uri_file filePath) l c None m)
  | _ => m
  end.

(** [_bookmarks.editGlobalLabel]; [showInputBox] is the user's answer to
    the input box that offers [value], [None] when the box is dismissed. *)
Definition editGlobalLabel (showInputBox : jsstring -> option jsstring)
    (node : option TreeNode) (m : Manager) : Manager :=
  match node with
  | Some (GlobalBookmarkNode _ _ filePath l c _) =>
      match fromUri (Some (Uri_file filePath)) m with
      | None => m
      | Some file =>
          let index := indexOfBookmark_from (bookmarksOf m file) l 0 in
          if index <? 0 then m
          else
            let currentLabel :=
              orEmpty (bookmarksOf m file !! Z.to_nat index ≫= label) in
            match showInputBox currentLabel with
            | None => m
            | Some newLabel => updateLabel file index l c newLabel m
            end
      end
  | _ => m
  end.

(** [_bookmarks.clearGlobalFromFile] *)
Definition clearGlobalFromFile (node : option TreeNode) (m : Manager) : Manager :=
  match node with
  | Some (GlobalFileNode filePath _) | Some (GlobalBookmarkNode _ _ filePath _ _ _) =>
      if eqb filePath [] then m else clearFile filePath m
  | None => m
  end.

(** The loop of [bookmarks.toggleGlobalLabeled] over the selections, one
    [toggle] with the label for every line not visited before. *)
Fixpoint toggleLabeledSelections (uri : Uri) (selections : list Position)
    (toggledLines : list Z) (lbl : jsstring) (m : Manager) : Manager :=
  match selections with
  | [] => m
  | sel :: rest =>
      let l := pos_line sel in
      if bool_decide (l ∈ toggledLines)
      then toggleLabeledSelections uri rest toggledLines lbl m
      else
        toggleLabeledSelections uri rest (toggledLines ++ [l]) lbl
          (fst (toggle uri l (character sel) (Some lbl) m))
  end.

(** [bookmarks.toggleGlobalLabeled]: the manager afterwards and the
    message shown, if any. [suggestion] is what [suggestLabel] makes of the
    primary selection and [useSelectionWhenAvailable] the setting read by
    the function of that name; [showInputBox] is the user's answer to the
    input box that offers [value], [None] when the box is dismissed. The
    handler reads [selections[0].active], which throws for an editor
    without a selection. *)
Definition toggleGlobalLabeled (suggestion : jsstring)
    (useSelectionWhenAvailable : bool) (showInputBox : jsstring -> option jsstring)
    (activeTextEditor : option TextEditor) (m : Manager)
    : Manager * completion (option Message) :=
  match activeTextEditor with
  | None =>
      (m, Returns (Some (Information (lit "Open a file first to toggle global bookmarks"))))
  | Some editor =>
      if searchEditor editor then
        (m, Returns (Some (Information
                             (lit "You can't toggle global bookmarks in Search Editor"))))
      else
        let uri := document_uri editor in
        let selections := selections editor in
        match selections with
        | [] =>
            (m, Throws (lit "TypeError: Cannot read properties of undefined (reading 'active')"))
        | first :: _ =>
            let firstLine := pos_line first in
            let oldLabel :=
              match fromUri (Some uri) m with
              | Some existingFile =>
                  let existingIndex :=
                    indexOfBookmark_from (bookmarksOf m existingFile) firstLine 0 in
                  if existingIndex >=? 0
                  then orEmpty (bookmarksOf m existingFile !! Z.to_nat existingIndex ≫= label)
                  else []
              | None => []
              end in
            if negb (eqb suggestion []) && useSelectionWhenAvailable then
              (notifyAndSave (toggleLabeledSelections uri selections [] suggestion m),
               Returns None)
            else
              match showInputBox (if negb (eqb suggestion []) then suggestion else oldLabel) with
              | None => (m, Returns None)
              | Some lbl =>
                  if eqb lbl [] && eqb oldLabel [] then
                    (m, Returns (Some (Warning
                                         (lit "You must define a label for the global bookmark."))))
                  else
                    (notifyAndSave (toggleLabeledSelections uri selections [] lbl m),
                     Returns None)
              end
        end
  end.

(** One item of [bookmarks.listGlobals]. *)
Definition globalItem (file : GlobalFile) (bkm : Bookmark) : BookmarkQuickPickItem :=
  let uri := Uri_file (path file) in
  let lineText :=
    match openTextDocument uri with
    | Some doc =>
        match lineAt doc (line bkm) with
        | Some t => trim t
        | None => lit "Line " ++ toString (line bkm + 1)
        end
    | None => lit "Line " ++ toString (line bkm + 1)
    end in
  mkItem
    (lit "(Ln " ++ toString (line bkm + 1) ++ lit ", Col "
       ++ toString (column bkm + 1) ++ lit ")")
    (if truthy (label bkm) then codicons_tag ++ lit " " ++ orEmpty (label bkm)
     else lineText)
    (path file) uri.

(** The items, file by file in the order of [files]. *)
Definition listGlobalsItems (m : Manager) : list BookmarkQuickPickItem :=
  List.flat_map
    (fun file =>
       if (length (bookmarks file) =? 0)%nat then []
       else globalItem file <$> bookmarks file)
    (_files m).

(** What [bookmarks.listGlobals] does in the end: it shows the message
    that nothing is there, goes back to the editor it started from, asks
    for a line and a column of the document of the chosen item to be
    revealed, or does nothing. *)
Inductive Shown : Type :=
| NoGlobalBookmarksFound
| BackToEditor
| RevealPosition (uri : Uri) (l c : option Z)
| Nowhere.

(** [activeTextEditor] says whether there is an active editor,
    [showQuickPick] is the user's choice among the items ([None] when the
    list is dismissed), and [parser] is [parsePosition] of
    [sidebar/parser.ts], the function this file imports under that
    name. *)
Definition listGlobals (parser : jsstring -> option Point) (activeTextEditor : bool)
    (showQuickPick : list BookmarkQuickPickItem -> option BookmarkQuickPickItem)
    (m : Manager) : Shown :=
  if negb (hasAnyBookmark m) then NoGlobalBookmarksFound
  else
    match showQuickPick (listGlobalsItems m) with
    | None => if activeTextEditor then BackToEditor else Nowhere
    | Some selection =>
        match parser (item_description selection) with
        | Some point =>
            RevealPosition (item_uri selection)
              ((fun l => l - 1) <$> point_line point)
              ((fun c => c - 1) <$> point_column point)
        | None => Nowhere
        end
    end.

(** [getActiveFileBookmarks]: the bookmarks of the active file of the
    project scope together with the global ones of the same document, by
    line. [doc] is the [uri] of the document of the active editor ([None]
    without an editor), [ensureActiveFile] what the function of that name
    returns for it, [activeFile] the active file of the controller then,
    and [getFileUri] the controller's method. *)
Definition getActiveFileBookmarks (doc : option (option Uri)) (ensureActiveFile : bool)
    (activeFile : option File) (getFileUri : File -> option Uri) (m : Manager)
    : list Bookmark :=
  match doc with
  | None => []
  | Some docUri =>
      if negb ensureActiveFile then []
      else
        match activeFile with
        | None => []
        | Some activeFile =>
            let resolvedUri :=
              match docUri with
              | Some u => Some u
              | None =>
                  match file_uri activeFile with
                  | Some u => Some u
                  | None => getFileUri activeFile
                  end
              end in
            match resolvedUri with
            | None => sortBy line (file_bookmarks activeFile)
            | Some resolved =>
                let globalBookmarks :=
                  match fromUri (Some resolved) m with
                  | Some globalFile => bookmarksOf m globalFile
                  | None => []
                  end in
                sortBy line (file_bookmarks activeFile ++ globalBookmarks)
            end
        end
  end.

End GlobalCommands.

(** ** Selections along the bookmarks ([selections.ts]) *)

(** A [Selection] of the editor with the properties the functions read. *)
Record Selection : Type := mkSelection {
  sel_start : Position;
  sel_end : Position;
  sel_active : Position;
  isReversed : bool;
  isEmpty : bool;
}.

(** What a function of this file does in the end. *)
Inductive SelectionEffect : Type :=
| showInformationMessage (message : jsstring)
| setStatusBarMessage (message : jsstring)
| selectLines (lines : list Z)
| shrinkSelectionToPosition (position : Position) (direction : Directions)
| expandSelectionToPosition (position : Position) (direction : Directions).

Section Selections.

Variables NO_BOOKMARKS NO_MORE_BOOKMARKS NO_BOOKMARKS_BEFORE NO_BOOKMARKS_AFTER : Z.
Variables navigateThroughAllFiles wrapNavigation : bool.

(** [activeTextEditor] is the selections of the active editor, the primary
    one first; [None] without an editor. *)
Definition selectBookmarkedLines (activeTextEditor : option (Selection * list Selection))
    (bookmarks : list Bookmark) : SelectionEffect :=
  match activeTextEditor with
  | None => showInformationMessage (lit "Open a file first to clear bookmarks")
  | Some _ =>
      if (length bookmarks =? 0)%nat then showInformationMessage (lit "No Bookmarks found")
      else selectLines (line <$> bookmarks)
  end.

Definition shrinkSelection (activeTextEditor : option (Selection * list Selection))
    (bookmarks : list Bookmark) : SelectionEffect :=
  match activeTextEditor with
  | None => showInformationMessage (lit "Open a file first to shrink bookmark selection")
  | Some (selection, others) =>
      if 1 <? Z.of_nat (length (selection :: others)) then
        showInformationMessage (lit "Command not supported with more than one selection")
      else if isEmpty selection then showInformationMessage (lit "No selection found")
      else if (length bookmarks =? 0)%nat then
        showInformationMessage (lit "No Bookmarks found")
      else
        let direction := if isReversed selection then Forward else Backward in
        let activeSelectionStartLine :=
          if isReversed selection then pos_line (sel_end selection)
          else pos_line (sel_start selection) in
        let currPosition :=
          match direction with
          | Forward => sel_start selection
          | Backward => sel_end selection
          end in
        match nextBookmark NO_BOOKMARKS NO_MORE_BOOKMARKS NO_BOOKMARKS_BEFORE
                NO_BOOKMARKS_AFTER navigateThroughAllFiles wrapNavigation
                bookmarks currPosition direction with
        | inl _ => setStatusBarMessage (lit "No more bookmarks")
        | inr next =>
            if match direction with
               | Backward => pos_line next <? activeSelectionStartLine
               | Forward => pos_line next >? activeSelectionStartLine
               end
            then setStatusBarMessage (lit "No more bookmarks to shrink")
            else shrinkSelectionToPosition next direction
        end
  end.

Definition expandSelectionToNextBookmark
    (activeTextEditor : option (Selection * list Selection))
    (bookmarks : list Bookmark) (direction : Directions) : SelectionEffect :=
  match activeTextEditor with
  | None => showInformationMessage (lit "Open a file first to clear bookmarks")
  | Some (selection, _) =>
      if (length bookmarks =? 0)%nat then showInformationMessage (lit "No Bookmarks found")
      else
        let currPosition :=
          if isEmpty selection then sel_active selection
          else
            match direction with
            | Forward => sel_end selection
            | Backward => sel_start selection
            end in
        match nextBookmark NO_BOOKMARKS NO_MORE_BOOKMARKS NO_BOOKMARKS_BEFORE
                NO_BOOKMARKS_AFTER navigateThroughAllFiles wrapNavigation
                bookmarks currPosition direction with
        | inl _ => setStatusBarMessage (lit "No more bookmarks")
        | inr next => expandSelectionToPosition next direction
        end
  end.

End Selections.

(** * Properties and reference functions

    What the statements below are written with: the invariant of a store,
    and, for each operation, a function that says in terms of lists what the
    operation is meant to compute. *)

(** ** Stores *)

(** Ascending by line, no two bookmarks on one line. *)
Definition strictlySorted (bks : list Bookmark) : Prop :=
  StronglySorted (fun a b => line a < line b) bks.

(** Ascending by line. *)
Definition sortedByLine (bks : list Bookmark) : Prop :=
  StronglySorted (fun a b => line a <= line b) bks.

Definition noMarkerOn (l : Z) (bks : list Bookmark) : Prop :=
  Forall (fun b => line b ≠ l) bks.

Definition markerOn (l : Z) (bks : list Bookmark) : Prop :=
  Exists (fun b => line b = l) bks.

(** Every file of the manager holds a strictly sorted array. *)
Definition storeInvariant (m : Manager) : Prop :=
  Forall (fun f => strictlySorted (bookmarks f)) (_files m).

(** The bookmarks of the file found under [filePath]. *)
Definition bookmarksAt (filePath : jsstring) (m : Manager) : list Bookmark :=
  match findFile filePath (_files m) with
  | Some file => bookmarksOf m file
  | None => []
  end.

Definition positionOf (b : Bookmark) : Position := mkPosition (line b) (column b).

(** A plain bookmark at column 0. *)
Definition plain (l : Z) : Bookmark := mkBookmark l 0 (Some []).

(** ** Edits *)

Definition relocate (f : Z → Z) (b : Bookmark) : Bookmark := setLine (f (line b)) b.

(** What both shifting loops do to one bookmark. *)
Definition shiftBy (eventLine eventChar delta : Z) (b : Bookmark) : Bookmark :=
  if Sticky.isShifted (line b) eventLine eventChar then setLine (line b + delta) b else b.

(** The edit point counts as the start of its line: it is at column 0, or
    the line, as the document has it after the edit, holds white space
    only. *)
Definition atLineStart (document : TextDocument) (startLine startChar : Z) : Prop :=
  startChar = 0
  ∨ ∃ t, lineAt document startLine = Some t ∧ removeWhiteSpace (removeTabs t) = [].

#[global] Instance atLineStart_dec document startLine startChar :
  Decision (atLineStart document startLine startChar).
Proof.
  unfold atLineStart. destruct (lineAt document startLine) as [t|].
  - destruct (decide (startChar = 0 ∨ removeWhiteSpace (removeTabs t) = [])) as [H | H].
    + left. destruct H; [by left | right; eauto].
    + right. intros [? | (t' & [= <-] & ?)]; tauto.
  - destruct (decide (startChar = 0)) as [H | H].
    + left. by left.
    + right. intros [? | (t' & [=] & _)]. done.
Defined.

(** An insertion moves the bookmarks after its line, and the one on its
    line when the insertion is at the start of the line. *)
Definition shiftedByInsertion (document : TextDocument) (startLine startChar : Z)
    (b : Bookmark) : Prop :=
  startLine < line b ∨ (line b = startLine ∧ atLineStart document startLine startChar).

#[global] Instance shiftedByInsertion_dec document startLine startChar b :
  Decision (shiftedByInsertion document startLine startChar b).
Proof. unfold shiftedByInsertion. apply _. Defined.

Definition afterInsertion (document : TextDocument) (startLine startChar k : Z)
    (bks : list Bookmark) : list Bookmark :=
  (fun b => if decide (shiftedByInsertion document startLine startChar b)
            then setLine (line b + k) b else b) <$> bks.

(** The lines [startLine] up to, not including, [endLine] are deleted. *)
Definition inDeletedRange (startLine endLine : Z) (b : Bookmark) : Prop :=
  startLine <= line b < endLine.

#[global] Instance inDeletedRange_dec startLine endLine b :
  Decision (inDeletedRange startLine endLine b).
Proof. unfold inDeletedRange. apply _. Defined.

(** Every bookmark on a deleted line is destroyed. *)
Definition destroyDeleted (startLine endLine : Z) (bks : list Bookmark) : list Bookmark :=
  filter (fun b => ¬ inDeletedRange startLine endLine b) bks.

(** The first bookmark on a deleted line is collapsed onto [endLine]; the
    later ones then find a bookmark on [endLine] and are destroyed. *)
Fixpoint collapseDeleted (startLine endLine : Z) (bks : list Bookmark) : list Bookmark :=
  match bks with
  | [] => []
  | b :: rest =>
      if decide (inDeletedRange startLine endLine b)
      then setLine endLine b :: destroyDeleted startLine endLine rest
      else b :: collapseDeleted startLine endLine rest
  end.

(** The deletion pass under the policy [keep]: collapse, unless a bookmark
    already sits on [endLine]. *)
Definition afterRemoval (keep : bool) (startLine endLine : Z) (bks : list Bookmark)
    : list Bookmark :=
  if keep then
    if decide (markerOn endLine bks) then destroyDeleted startLine endLine bks
    else collapseDeleted startLine endLine bks
  else destroyDeleted startLine endLine bks.

(** The bookmarks past [startLine] move up by the number of deleted
    lines. *)
Definition shiftUp (startLine endLine : Z) (bks : list Bookmark) : list Bookmark :=
  (fun b => if decide (startLine < line b)
            then setLine (line b - (endLine - startLine)) b else b) <$> bks.

(** ** Batches of the command [bookmarks.toggleGlobal] *)

(** The bookmarks the all-lines-at-once batch adds: one for the first
    selection on each line that has no marker in [bks]. *)
Fixpoint additions (selections : list Position) (toggledLines : list Z)
    (bks : list Bookmark) : list Bookmark :=
  match selections with
  | [] => []
  | sel :: rest =>
      let l := pos_line sel in
      if decide (l ∈ toggledLines) then additions rest toggledLines bks
      else if decide (markerOn l bks) then additions rest (toggledLines ++ [l]) bks
      else mkBookmark l (character sel) (Some [])
             :: additions rest (toggledLines ++ [l]) bks
  end.

(** The loop of the handler with [forceState] "on", seen from the
    bookmarks of the file. *)
Fixpoint addMissing (selections : list Position) (toggledLines : list Z)
    (bks : list Bookmark) : list Bookmark :=
  match selections with
  | [] => bks
  | sel :: rest =>
      let l := pos_line sel in
      if decide (l ∈ toggledLines) then addMissing rest toggledLines bks
      else
        addMissing rest (toggledLines ++ [l])
          (if indexOfBookmark_from bks l 0 <? 0
           then sortBy line (bks ++ [mkBookmark l (character sel) (Some [])])
           else bks)
  end.

(** The same loop with [forceState] "off". *)
Fixpoint removePresent (selections : list Position) (toggledLines : list Z)
    (bks : list Bookmark) : list Bookmark :=
  match selections with
  | [] => bks
  | sel :: rest =>
      let l := pos_line sel in
      if decide (l ∈ toggledLines) then removePresent rest toggledLines bks
      else
        removePresent rest (toggledLines ++ [l])
          (if indexOfBookmark_from bks l 0 >=? 0
           then splice1 bks (indexOfBookmark_from bks l 0) else bks)
  end.

(** ** Listings *)

(** A bookmark points into a document of [n] lines. *)
Definition withinDocument (n : Z) (b : Bookmark) : Prop := line b + 1 <= n.

#[global] Instance withinDocument_dec n b : Decision (withinDocument n b).
Proof. unfold withinDocument. apply _. Defined.

(** ** What the sticky engine leaves alone *)

(** The column and the label of a bookmark. *)
Definition anchor (b : Bookmark) : Z * option jsstring := (column b, label b).

(** ** The files of the manager *)

(** No two files of the manager have the same path. *)
Definition onePerPath (m : Manager) : Prop := NoDup (path <$> _files m).

(** A file that holds a bookmark, the files [save] writes. *)
Definition nonEmpty (f : GlobalFile) : Prop := bookmarks f ≠ [].

#[global] Instance nonEmpty_dec f : Decision (nonEmpty f).
Proof. unfold nonEmpty. apply _. Defined.

(** ** Labels *)

(** A bookmark on line [l] carries the label [lbl]. *)
Definition labelled (l : Z) (lbl : jsstring) (bks : list Bookmark) : Prop :=
  ∃ b, b ∈ bks ∧ line b = l ∧ label b = Some lbl.

(** ** Numbers as text *)

(** The code units of a number in decimal notation, digit by digit. *)
Definition digitsOf (d : Decimal.uint) : jsstring :=
  lit (NilEmpty.string_of_uint d).

(** The text [(Ln l, Col c)] that the lists and the tree show for a
    position. *)
Definition positionText (l c : Z) : jsstring :=
  lit "(Ln " ++ toString l ++ lit ", Col " ++ toString c ++ lit ")".

(** ** The items of a list *)

(** The item [listBookmarks] makes of a bookmark within the document. *)
Definition listedItem `{host : Host} (doc : TextDocument) (filePath : jsstring)
    (uri : Uri) (b : Bookmark) : BookmarkQuickPickItem :=
  mkItem (positionText (line b + 1) (column b + 1))
    (if bool_decide (label b = Some [])
     then trim (default [] (lineAt doc (line b)))
     else codicons_tag ++ lit " " ++ default (lit "undefined") (label b))
    filePath uri.

(** ** What is stored *)


(** ** What [load] catches *)

(** The error an element without a string [path] makes [load] throw, and
    the one an element without bookmarks does. *)
Definition withoutPath (element : JSONElement) : option jsstring :=
  match element with
  | JSONWithoutPath e => Some e
  | _ => None
  end.

Definition withoutBookmarks (element : JSONElement) : option jsstring :=
  match element with
  | JSONWithoutBookmarks _ e => Some e
  | _ => None
  end.

(** The error of the first element without a path, or else of the first
    without bookmarks; [None] for an array of [GlobalFile]s. *)
Definition thrownFor (parsed : list JSONElement) : option jsstring :=
  match head (omap withoutPath parsed) with
  | Some e => Some e
  | None => head (omap withoutBookmarks parsed)
  end.

(** * Example inputs *)

(** The store of the examples: plain markers on lines 2, 5 and 9. *)
Definition store259 : GlobalFile :=
  mkGlobalFile (lit "/src/app.ts") [plain 2; plain 5; plain 9].

(** Three newlines. *)
Definition threeNewlines : jsstring := [10; 10; 10]%N.

(** A document of ten lines of code, and the same with line 5 blank. *)
Definition tenLines : TextDocument := replicate 10 (lit "  call();").

Definition tenLinesBlank5 : TextDocument :=
  <[5%nat := lit "    "]> tenLines.

Definition sixLines : TextDocument := replicate 6 (lit "let x = 1;").

(** A host on a POSIX platform, given its [JSON.parse] and the documents
    it can open. Its [JSON.stringify] writes nothing, as no example reads
    the stored text back. *)
Definition hostWith (parse : jsstring → completion JSONValue)
    (documents : Uri → option TextDocument) : Host :=
  {| JSON_parse := parse;
     JSON_stringify := fun _ => [];
     toLowerCase := fun s => s;
     win32 := false;
     openTextDocument := documents;
     Uri_file := mkUri;
     uri_path := fsPath;
     uri_with_path := fun _ p => mkUri p;
     uriExists := fun _ => true;
     codicons_tag := lit "$(tag)" |}.

Definition appTs : Uri := mkUri (lit "/src/app.ts").

(** A manager whose only file is [/src/app.ts], with the given bookmarks. *)
Definition managerOf (bks : list Bookmark) : Manager :=
  mkManager [mkGlobalFile (lit "/src/app.ts") bks] None [].

(** A file of the project scope with two bookmarks past the end of
    [sixLines]. *)
Definition listedFile : File :=
  mkFile (lit "src/app.ts") [plain 2; plain 5; plain 9; plain 12] (Some appTs).

(** A file of the project scope whose bookmark past the end of [sixLines]
    comes before the one within it. *)
Definition unsortedFile : File :=
  mkFile (lit "src/app.ts") [plain 9; plain 2] (Some appTs).

(** The text of an array of one file whose bookmarks are on lines 5 and 2,
    in that order, and what [JSON.parse] makes of it. *)
Definition quoted (s : jsstring) : jsstring := [34%N] ++ s ++ [34%N].

Definition unsortedBlob : jsstring :=
  lit "[{" ++ quoted (lit "path") ++ lit ":" ++ quoted (lit "/src/app.ts") ++ lit ","
  ++ quoted (lit "bookmarks") ++ lit ":[{" ++ quoted (lit "line") ++ lit ":5,"
  ++ quoted (lit "column") ++ lit ":0," ++ quoted (lit "label") ++ lit ":" ++ quoted []
  ++ lit "},{" ++ quoted (lit "line") ++ lit ":2," ++ quoted (lit "column") ++ lit ":0,"
  ++ quoted (lit "label") ++ lit ":" ++ quoted [] ++ lit "}]}]".

Definition parseUnsortedBlob (s : jsstring) : completion JSONValue :=
  if eqb s unsortedBlob
  then Returns (JSONArray [JSONFile (mkGlobalFile (lit "/src/app.ts") [plain 5; plain 2])])
  else Throws (lit "SyntaxError").

(** What [JSON.parse] makes of the text of one opening brace. *)
Definition parseBrace (s : jsstring) : completion unit :=
  if eqb s (lit "{") then Throws (lit "SyntaxError: Unexpected end of JSON input")
  else Returns tt.

(** The host of the examples, without open documents and with every
    document being [sixLines]. *)
Definition posix : Host := hostWith parseUnsortedBlob (fun _ => None).

Definition posixSixLines : Host := hostWith parseUnsortedBlob (fun _ => Some sixLines).

(** A host whose [JSON.stringify] writes [unsortedBlob] for the array that
    [parseUnsortedBlob] reads from it, and the text of an empty array for
    any other. *)
Definition posixStoring : Host :=
  {| JSON_parse := parseUnsortedBlob;
     JSON_stringify := fun files =>
       if bool_decide (files = [mkGlobalFile (lit "/src/app.ts") [plain 5; plain 2]])
       then unsortedBlob else lit "[]";
     toLowerCase := fun s => s;
     win32 := false;
     openTextDocument := fun _ => None;
     Uri_file := mkUri;
     uri_path := fsPath;
     uri_with_path := fun _ p => mkUri p;
     uriExists := fun _ => true;
     codicons_tag := lit "$(tag)" |}.

(** * Proofs *)

Import Sticky.

Ltac zlia :=
  rewrite ?Nat2Z.inj_succ in *; unfold Z.succ in *;
  change (Z.of_nat 0) with 0 in *; lia.

Set Warnings "-clear-no-such-hyp".

(** ** Finding a bookmark by its line *)

Lemma indexOf_from_cases (bks : list Bookmark) (l i : Z) :
  (indexOfBookmark_from bks l i = -1 ∧ noMarkerOn l bks)
  ∨ ∃ (k : nat) (b : Bookmark),
      indexOfBookmark_from bks l i = i + Z.of_nat k
      ∧ bks !! k = Some b ∧ line b = l ∧ noMarkerOn l (take k bks).
Proof.
  revert i. induction bks as [|y rest IH]; intros i; simpl.
  - left. split; [done | constructor].
  - destruct (Z.eqb_spec (line y) l) as [Heq | Hne].
    + right. exists 0%nat, y. repeat split; [lia | done | constructor].
    + destruct (IH (i + 1)) as [[Hr Hno] | (k & b & Hr & Hk & Hb & Hno)].
      * left. split; [done | by constructor].
      * right. exists (S k), b. repeat split; [lia | done | done | by constructor].
Qed.

Lemma indexOf_absent (bks : list Bookmark) (l i : Z) :
  noMarkerOn l bks → indexOfBookmark_from bks l i = -1.
Proof.
  intros Hno. revert i. induction Hno as [|y rest Hy _ IH]; intros i; simpl; [done|].
  destruct (Z.eqb_spec (line y) l); [done | apply IH].
Qed.

Lemma indexOf_present (bks : list Bookmark) (l : Z) (k : nat) (b : Bookmark) (i : Z) :
  bks !! k = Some b → line b = l → noMarkerOn l (take k bks) →
  indexOfBookmark_from bks l i = i + Z.of_nat k.
Proof.
  revert k i. induction bks as [|y rest IH]; intros k i Hk Hb Hno; [done|].
  destruct k as [|k]; simpl in *.
  - simplify_eq. rewrite Z.eqb_refl. lia.
  - apply Forall_cons in Hno as [Hy Hno].
    destruct (Z.eqb_spec (line y) l); [done|].
    rewrite (IH k (i + 1)); [lia | done..].
Qed.

Lemma indexOf_negative (bks : list Bookmark) (l i : Z) :
  0 <= i → indexOfBookmark_from bks l i < 0 → noMarkerOn l bks.
Proof.
  intros Hi Hneg.
  destruct (indexOf_from_cases bks l i) as [[_ Hno] | (k & b & Hr & _)]; [done | lia].
Qed.

Section SortFacts.

Context {A : Type} (key : A → Z).

Lemma insertBy_perm (x : A) (a : list A) : insertBy key x a ≡ₚ x :: a.
Proof.
  induction a as [|y rest IH]; simpl; [done|].
  destruct (key y <=? key x); [|done].
  rewrite IH. apply Permutation_swap.
Qed.

Lemma sortBy_snoc (a : list A) (x : A) :
  sortBy key (a ++ [x]) = insertBy key x (sortBy key a).
Proof. unfold sortBy. by rewrite fold_left_app. Qed.

Lemma sortBy_perm (a : list A) : sortBy key a ≡ₚ a.
Proof.
  induction a as [|x a IH] using rev_ind; [done|].
  rewrite sortBy_snoc, insertBy_perm, IH. apply Permutation_cons_append.
Qed.

Lemma insertBy_last (x : A) (a : list A) :
  Forall (fun y => key y <= key x) a → insertBy key x a = a ++ [x].
Proof.
  induction 1 as [|y rest Hy _ IH]; simpl; [done|].
  destruct (Z.leb_spec (key y) (key x)); [by rewrite IH | lia].
Qed.

Lemma sortBy_sorted (a : list A) :
  StronglySorted (fun y z => key y <= key z) a → sortBy key a = a.
Proof.
  induction a as [|x a IH] using rev_ind; intros Hs; [done|].
  apply StronglySorted_app in Hs as (Hlt & Ha & _).
  rewrite sortBy_snoc, IH by done.
  apply insertBy_last, Forall_forall. intros y Hy. apply Hlt; [done | by left].
Qed.

Lemma insertBy_strictly_sorted (x : A) (a : list A) :
  StronglySorted (fun y z => key y < key z) a →
  Forall (fun y => key y ≠ key x) a →
  StronglySorted (fun y z => key y < key z) (insertBy key x a).
Proof.
  induction 1 as [|y rest Hrest IH Hy]; intros Hne; simpl.
  - by repeat constructor.
  - apply Forall_cons in Hne as [Hyx Hne].
    destruct (Z.leb_spec (key y) (key x)).
    + constructor; [by apply IH|].
      rewrite insertBy_perm. constructor; [lia | done].
    + constructor; [by constructor|].
      constructor; [lia|]. eapply Forall_impl; [exact Hy|]. simpl. lia.
Qed.

End SortFacts.

Lemma strictlySorted_weaken (bks : list Bookmark) :
  strictlySorted bks → StronglySorted (fun a b => line a <= line b) bks.
Proof.
  induction 1 as [|y rest _ IH Hy]; constructor; [done|].
  eapply Forall_impl; [exact Hy|]. simpl. lia.
Qed.

Lemma splice1_at (bks : list Bookmark) (k : nat) :
  (k < length bks)%nat → splice1 bks (Z.of_nat k) = delete k bks.
Proof.
  intros Hk. unfold splice1.
  destruct (Z.ltb_spec (Z.of_nat k) 0); [lia|].
  f_equal. lia.
Qed.

Lemma insertBy_lookup (x : Bookmark) (bks : list Bookmark) :
  noMarkerOn (line x) bks →
  ∃ k : nat, insertBy line x bks !! k = Some x
    ∧ noMarkerOn (line x) (take k (insertBy line x bks))
    ∧ delete k (insertBy line x bks) = bks.
Proof.
  induction 1 as [|y rest Hy _ (k & Hk & Hno & Hdel)]; simpl.
  - exists 0%nat. repeat split. constructor.
  - destruct (line y <=? line x).
    + exists (S k). simpl. repeat split; [done | by constructor | by rewrite Hdel].
    + exists 0%nat. repeat split. constructor.
Qed.

(** Removing again what was just inserted. *)
Lemma remove_inserted (x : Bookmark) (bks : list Bookmark) :
  noMarkerOn (line x) bks →
  let added := insertBy line x bks in
  indexOfBookmark_from added (line x) 0 >= 0
  ∧ splice1 added (indexOfBookmark_from added (line x) 0) = bks.
Proof.
  intros Hno added.
  destruct (insertBy_lookup x bks Hno) as (k & Hk & Hbefore & Hdel).
  fold added in Hk, Hbefore, Hdel.
  rewrite (indexOf_present added (line x) k x 0), Z.add_0_l by done.
  split; [lia|].
  rewrite splice1_at; [done|]. by eapply lookup_lt_Some.
Qed.

(** ** Strictly sorted stores *)

Lemma setLine_same (b : Bookmark) : setLine (line b) b = b.
Proof. by destruct b. Qed.

Lemma line_setLine (l : Z) (b : Bookmark) : line (setLine l b) = l.
Proof. done. Qed.

Lemma strictlySorted_relocate (f : Z → Z) (bks : list Bookmark) :
  (∀ a b, a ∈ bks → b ∈ bks → line a < line b → f (line a) < f (line b)) →
  strictlySorted bks → strictlySorted (relocate f <$> bks).
Proof.
  intros Hf Hs. induction Hs as [|y rest Hrest IH Hy]; simpl; [constructor|].
  constructor.
  - apply IH. intros a b Ha Hb. apply Hf; by right.
  - apply Forall_fmap, Forall_forall. intros z Hz. simpl.
    apply Hf; [by left | by right |].
    rewrite Forall_forall in Hy. by apply Hy.
Qed.

Lemma strictlySorted_NoDup (bks : list Bookmark) :
  strictlySorted bks → NoDup (line <$> bks).
Proof.
  induction 1 as [|y rest _ IH Hy]; simpl; constructor; [|done].
  rewrite list_elem_of_fmap. intros (z & Hz & Hin).
  rewrite Forall_forall in Hy. specialize (Hy z Hin). lia.
Qed.

Lemma strictlySorted_filter (P : Bookmark → Prop) `{∀ b, Decision (P b)}
    (bks : list Bookmark) :
  strictlySorted bks → strictlySorted (filter P bks).
Proof.
  induction 1 as [|y rest _ IH Hy]; [constructor|].
  rewrite filter_cons. destruct (decide (P y)); [|done].
  constructor; [done|]. apply Forall_forall. intros z Hz.
  rewrite Forall_forall in Hy. apply Hy.
  by apply list_elem_of_filter in Hz as [_ Hz].
Qed.

Lemma strictlySorted_delete (k : nat) (bks : list Bookmark) :
  strictlySorted bks → strictlySorted (delete k bks).
Proof.
  intros Hs. revert k. induction Hs as [|y rest Hrest IH Hy]; intros [|k]; simpl;
    try done; try constructor.
  - apply IH.
  - by apply Forall_delete.
Qed.

Lemma shiftAdded_spec bks eventLine eventChar k updated :
  shiftAdded bks eventLine eventChar k updated
  = (shiftBy eventLine eventChar k <$> bks,
     updated || existsb (fun b => isShifted (line b) eventLine eventChar) bks).
Proof.
  revert updated. induction bks as [|b rest IH]; intros updated; simpl.
  - by rewrite orb_false_r.
  - unfold shiftBy at 1.
    destruct (isShifted (line b) eventLine eventChar); rewrite IH; simpl.
    + by rewrite orb_true_r.
    + done.
Qed.

Lemma shiftDeleted_returns doc bks eventLine eventChar0 eventChar d updated :
  startCharacter doc eventLine eventChar0 = Returns eventChar →
  shiftDeleted doc bks eventLine eventChar0 d updated
  = (shiftBy eventLine eventChar (- d) <$> bks,
     Returns (updated || existsb (fun b => isShifted (line b) eventLine eventChar) bks)).
Proof.
  intros Hc. revert updated. induction bks as [|b rest IH]; intros updated; simpl.
  - by rewrite orb_false_r.
  - rewrite Hc. unfold shiftBy at 1.
    destruct (isShifted (line b) eventLine eventChar); rewrite IH; simpl.
    + rewrite orb_true_r. f_equal.
    + done.
Qed.

Lemma shiftDeleted_throws doc bks eventLine eventChar0 e d updated :
  startCharacter doc eventLine eventChar0 = Throws e →
  shiftDeleted doc bks eventLine eventChar0 d updated
  = (bks, match bks with [] => Returns updated | _ => Throws e end).
Proof. intros Hc. destruct bks; simpl; [done | by rewrite Hc]. Qed.

Lemma shiftBy_relocate eventLine eventChar delta (bks : list Bookmark) :
  shiftBy eventLine eventChar delta <$> bks
  = relocate (fun l => if isShifted l eventLine eventChar then l + delta else l) <$> bks.
Proof.
  apply list_fmap_ext. intros _ b _. unfold shiftBy, relocate.
  destruct (isShifted _ _ _); [done | by rewrite setLine_same].
Qed.

Lemma isShifted_above l eventLine eventChar :
  isShifted l eventLine eventChar = true → eventLine <= l.
Proof. unfold isShifted. lia. Qed.

Lemma isShifted_mono l l' eventLine eventChar :
  l < l' → isShifted l eventLine eventChar = true →
  isShifted l' eventLine eventChar = true.
Proof. unfold isShifted. lia. Qed.

Lemma shiftAdded_sorted (bks : list Bookmark) eventLine eventChar k :
  0 <= k → strictlySorted bks →
  strictlySorted (shiftBy eventLine eventChar k <$> bks).
Proof.
  intros Hk Hs. rewrite shiftBy_relocate.
  apply strictlySorted_relocate; [|done].
  intros a b _ _ Hab.
  destruct (isShifted (line a) eventLine eventChar) eqn:Ha.
  - rewrite (isShifted_mono _ _ _ _ Hab Ha). lia.
  - destruct (isShifted (line b) eventLine eventChar); lia.
Qed.

Lemma shiftDeleted_sorted (bks : list Bookmark) startLine endLine eventChar :
  startLine < endLine →
  Forall (fun b => ¬ inDeletedRange startLine endLine b) bks →
  strictlySorted bks →
  strictlySorted (shiftBy startLine eventChar (- (endLine - startLine)) <$> bks).
Proof.
  intros Hse Hout Hs. rewrite shiftBy_relocate.
  apply strictlySorted_relocate; [|done].
  rewrite Forall_forall in Hout. unfold inDeletedRange in Hout.
  intros a b Ha Hb Hab. pose proof (Hout a Ha). pose proof (Hout b Hb).
  destruct (isShifted (line a) startLine eventChar) eqn:Hsa.
  - rewrite (isShifted_mono _ _ _ _ Hab Hsa). lia.
  - destruct (isShifted (line b) startLine eventChar) eqn:Hsb; [|lia].
    unfold isShifted in Hsa, Hsb. lia.
Qed.

#[local] Arguments Z.leb : simpl never.
#[local] Arguments Z.ltb : simpl never.
#[local] Arguments Z.gtb : simpl never.
#[local] Arguments Z.geb : simpl never.
#[local] Arguments Z.eqb : simpl never.
#[local] Arguments Z.of_nat : simpl never.

(** ** The deletion pass of the sticky engine *)

Lemma filter_all {A} (P : A → Prop) `{∀ x, Decision (P x)} (l : list A) :
  Forall P l → filter P l = l.
Proof.
  induction 1 as [|x l Hx _ IH]; [done|].
  by rewrite filter_cons_True, IH.
Qed.

Lemma delete_is_filter (bks : list Bookmark) (k : nat) (b : Bookmark) :
  NoDup (line <$> bks) → bks !! k = Some b →
  delete k bks = filter (fun y => line y ≠ line b) bks.
Proof.
  revert k. induction bks as [|y rest IH]; intros k Hnd Hk; [done|].
  simpl in Hnd. apply NoDup_cons in Hnd as [Hy Hnd].
  destruct k as [|k]; simpl in *.
  - simplify_eq. rewrite filter_cons_False by (intros ?; done).
    symmetry. apply filter_all, Forall_forall. intros z Hz Heq.
    apply Hy. rewrite <- Heq. by apply list_elem_of_fmap_2.
  - rewrite filter_cons_True.
    + f_equal. by apply IH.
    + intros Heq. apply Hy. rewrite Heq.
      apply list_elem_of_fmap_2. by eapply list_elem_of_lookup_2.
Qed.

(** One round of the first loop of [isDel] in which the bookmark found, if
    any, is spliced out. *)
Lemma splice_found (bks : list Bookmark) (l : Z) :
  NoDup (line <$> bks) →
  (if indexOfBookmark_from bks l 0 >? -1
   then splice1 bks (indexOfBookmark_from bks l 0) else bks)
  = filter (fun y => line y ≠ l) bks.
Proof.
  intros Hnd.
  destruct (indexOf_from_cases bks l 0) as [[-> Hno] | (k & b & -> & Hk & Hb & _)].
  - simpl. symmetry. by apply filter_all.
  - rewrite Z.add_0_l. destruct (Z.gtb_spec (Z.of_nat k) (-1)); [|lia].
    rewrite splice1_at by (by eapply lookup_lt_Some).
    subst l. by apply delete_is_filter.
Qed.

Lemma NoDup_lines_filter (P : Bookmark → Prop) `{∀ b, Decision (P b)}
    (bks : list Bookmark) :
  NoDup (line <$> bks) → NoDup (line <$> filter P bks).
Proof.
  intros Hnd. eapply sublist_NoDup; [exact Hnd|].
  apply fmap_sublist, sublist_filter.
Qed.

Lemma existsb_agree {A} (f g : A → bool) (l : list A) :
  Forall (fun x => f x = g x) l → existsb f l = existsb g l.
Proof. induction 1 as [|x l Hx _ IH]; simpl; [done | by rewrite Hx, IH]. Qed.

Lemma existsb_found {A} (f : A → bool) (l : list A) (x : A) :
  x ∈ l → f x = true → existsb f l = true.
Proof.
  induction 1 as [x l | x y l _ IH]; simpl; intros Hx.
  - by rewrite Hx.
  - rewrite IH by done. apply orb_true_r.
Qed.

Lemma existsb_none {A} (f : A → bool) (l : list A) :
  Forall (fun x => f x = false) l → existsb f l = false.
Proof. induction 1 as [|x l Hx _ IH]; simpl; [done | by rewrite Hx, IH]. Qed.

Lemma removeDeleted_true keep endLine count l bks :
  snd (removeDeleted keep endLine count l bks true) = true.
Proof.
  revert l bks. induction count as [|count IH]; intros l bks; simpl; [done|].
  destruct (_ >? _); apply IH.
Qed.

Lemma removeDeleted_updated keep endLine count l bks updated :
  l + Z.of_nat count <= endLine →
  snd (removeDeleted keep endLine count l bks updated)
  = updated || existsb (fun b => (l <=? line b) && (line b <? l + Z.of_nat count)) bks.
Proof.
  revert l bks updated. induction count as [|count IH]; intros l bks updated Hle; simpl.
  - rewrite existsb_none; [by rewrite orb_false_r|].
    apply Forall_forall. intros b _. zlia.
  - destruct (indexOf_from_cases bks l 0) as [[-> Hno] | (k & b & -> & Hk & Hb & _)].
    + simpl. rewrite IH by zlia. f_equal.
      apply existsb_agree. eapply Forall_impl; [exact Hno|].
      simpl. intros b Hb. zlia.
    + destruct (Z.gtb_spec (0 + Z.of_nat k) (-1)); [|lia].
      rewrite removeDeleted_true. symmetry. apply orb_true_iff. right.
      apply (existsb_found _ _ b); [by eapply list_elem_of_lookup_2 | zlia].
Qed.

Lemma indexOf_found (bks : list Bookmark) (l : Z) :
  markerOn l bks → (indexOfBookmark_from bks l 0 >? -1) = true.
Proof.
  intros Hm.
  destruct (indexOf_from_cases bks l 0) as [[_ Hno] | (k & b & -> & _)];
    [|rewrite Z.gtb_ltb; apply Z.ltb_lt; lia].
  apply Exists_exists in Hm as (b & Hb & Hl).
  unfold noMarkerOn in Hno. rewrite Forall_forall in Hno. by destruct (Hno b Hb).
Qed.

Lemma indexOf_not_found (bks : list Bookmark) (l : Z) :
  noMarkerOn l bks → (indexOfBookmark_from bks l 0 >? -1) = false.
Proof. intros Hno. by rewrite indexOf_absent. Qed.

Lemma markerOn_filter (P : Bookmark → Prop) `{∀ b, Decision (P b)} l bks :
  markerOn l bks → (∀ b, line b = l → P b) → markerOn l (filter P bks).
Proof.
  intros Hm HP. apply Exists_exists in Hm as (b & Hb & Hl).
  apply Exists_exists. exists b. split; [|done].
  apply list_elem_of_filter. auto.
Qed.

Lemma removeDeleted_fst keep endLine count l bks updated updated' :
  fst (removeDeleted keep endLine count l bks updated)
  = fst (removeDeleted keep endLine count l bks updated').
Proof.
  revert l bks updated updated'.
  induction count as [|count IH]; intros l bks updated updated'; simpl; [done|].
  destruct (_ >? _); [done | apply IH].
Qed.

Lemma removeDeleted_destroying keep endLine count l bks updated :
  NoDup (line <$> bks) →
  (keep = true → markerOn endLine bks) →
  ¬ (l <= endLine < l + Z.of_nat count) →
  fst (removeDeleted keep endLine count l bks updated)
  = filter (fun b => ¬ (l <= line b < l + Z.of_nat count)) bks.
Proof.
  revert l bks updated.
  induction count as [|count IH]; intros l bks updated Hnd Hkeep Hend.
  - simpl. symmetry. apply filter_all, Forall_forall. intros b _. zlia.
  - pose proof (splice_found bks l Hnd) as Hstep.
    assert (fst (removeDeleted keep endLine (S count) l bks updated)
            = fst (removeDeleted keep endLine count (l + 1)
                     (filter (fun y => line y ≠ l) bks) updated)) as ->.
    { simpl. destruct (indexOfBookmark_from bks l 0 >? -1) eqn:Hidx.
      - rewrite <- Hstep.
        assert ((if keep
                 then if negb (indexOfBookmark_from bks endLine 0 >? -1)
                      then updateBookmarkLine bks (indexOfBookmark_from bks l 0) endLine
                      else splice1 bks (indexOfBookmark_from bks l 0)
                 else splice1 bks (indexOfBookmark_from bks l 0))
                = splice1 bks (indexOfBookmark_from bks l 0)) as ->.
        { destruct keep; [|done]. by rewrite indexOf_found by auto. }
        apply removeDeleted_fst.
      - by rewrite <- Hstep. }
    rewrite IH.
    + rewrite list_filter_filter. apply list_filter_iff. intros b. zlia.
    + by apply NoDup_lines_filter.
    + intros Hk. apply markerOn_filter; [auto|]. intros b Hb. zlia.
    + zlia.
Qed.

Lemma filter_agree {A} (P Q : A → Prop) `{∀ x, Decision (P x)} `{∀ x, Decision (Q x)}
    (l : list A) :
  Forall (fun x => P x ↔ Q x) l → filter P l = filter Q l.
Proof.
  induction 1 as [|x l Hx _ IH]; [done|].
  rewrite !filter_cons, IH. destruct (decide (P x)), (decide (Q x)); naive_solver.
Qed.

Lemma collapseDeleted_outside startLine endLine (bks : list Bookmark) :
  Forall (fun b => ¬ inDeletedRange startLine endLine b) bks →
  collapseDeleted startLine endLine bks = bks.
Proof.
  induction 1 as [|b rest Hb _ IH]; simpl; [done|].
  destruct (decide _); [done | by rewrite IH].
Qed.

Lemma collapseDeleted_app startLine endLine (pre post : list Bookmark) :
  Forall (fun b => ¬ inDeletedRange startLine endLine b) pre →
  collapseDeleted startLine endLine (pre ++ post)
  = pre ++ collapseDeleted startLine endLine post.
Proof.
  induction 1 as [|b rest Hb _ IH]; simpl; [done|].
  destruct (decide _); [done | by rewrite IH].
Qed.

Lemma collapseDeleted_agree startLine startLine' endLine (bks : list Bookmark) :
  Forall (fun b => inDeletedRange startLine endLine b
                   ↔ inDeletedRange startLine' endLine b) bks →
  collapseDeleted startLine endLine bks = collapseDeleted startLine' endLine bks.
Proof.
  induction 1 as [|b rest Hb Hrest IH]; simpl; [done|].
  destruct (decide _), (decide _); try tauto.
  - f_equal. apply filter_agree. eapply Forall_impl; [exact Hrest|]. simpl. tauto.
  - by rewrite IH.
Qed.

Lemma strictlySorted_middle (pre post : list Bookmark) (b : Bookmark) :
  strictlySorted (pre ++ b :: post) →
  Forall (fun a => line a < line b) pre ∧ Forall (fun c => line b < line c) post.
Proof.
  intros Hs. apply StronglySorted_app in Hs as (Hlt & _ & Hpost).
  apply StronglySorted_cons in Hpost as [Hpost _].
  split; [|done]. apply Forall_forall. intros a Ha. apply Hlt; [done | by left].
Qed.

Lemma removeDeleted_collapsing endLine count l (bks : list Bookmark) updated :
  strictlySorted bks → noMarkerOn endLine bks → l + Z.of_nat count = endLine →
  fst (removeDeleted true endLine count l bks updated) = collapseDeleted l endLine bks.
Proof.
  revert l updated.
  induction count as [|count IH]; intros l updated Hs Hno Hend.
  - simpl. symmetry. apply collapseDeleted_outside, Forall_forall.
    intros b _. unfold inDeletedRange. zlia.
  - simpl. rewrite (indexOf_not_found bks endLine Hno). simpl.
    destruct (indexOf_from_cases bks l 0) as [[-> Hnol] | (k & b & -> & Hk & Hb & _)].
    + simpl. rewrite IH by (done || zlia).
      apply collapseDeleted_agree. eapply Forall_impl; [exact Hnol|].
      unfold inDeletedRange. simpl. lia.
    + rewrite Z.add_0_l.
      destruct (Z.gtb_spec (Z.of_nat k) (-1)); [|lia].
      unfold updateBookmarkLine. rewrite Nat2Z.id.
      apply list_elem_of_split_length in Hk as (pre & post & -> & ->).
      replace (length pre) with (length pre + 0)%nat by lia.
      rewrite alter_app_r. simpl.
      destruct (strictlySorted_middle _ _ _ Hs) as [Hpre Hpost].
      unfold noMarkerOn in Hno.
      apply Forall_app in Hno as [Hnopre Hnopost].
      apply Forall_cons in Hnopost as [_ Hnopost].
      rewrite removeDeleted_destroying.
      * rewrite filter_app, filter_cons_True by (simpl; zlia).
        rewrite collapseDeleted_app.
        2:{ eapply Forall_impl; [exact Hpre|]. unfold inDeletedRange. simpl. lia. }
        simpl. rewrite decide_True by (unfold inDeletedRange; zlia).
        f_equal.
        { apply filter_all. eapply Forall_impl; [exact Hpre|]. simpl. lia. }
        f_equal. apply filter_agree.
        eapply Forall_impl; [exact Hpost|]. unfold inDeletedRange. simpl. zlia.
      * apply strictlySorted_NoDup in Hs.
        rewrite fmap_app, fmap_cons in Hs |- *. simpl.
        apply NoDup_app in Hs as (Hnd1 & Hdisj & Hnd2).
        apply NoDup_cons in Hnd2 as [_ Hnd2].
        apply NoDup_app. split; [done|]. split.
        -- intros x Hx Hin. apply elem_of_cons in Hin as [-> | Hin].
           ++ apply list_elem_of_fmap in Hx as (a & Ha & Hin).
              rewrite Forall_forall in Hnopre. by apply (Hnopre a Hin).
           ++ apply (Hdisj x Hx). by right.
        -- apply NoDup_cons. split; [|done].
           intros Hin. apply list_elem_of_fmap in Hin as (a & Ha & Hin).
           rewrite Forall_forall in Hnopost. by apply (Hnopost a Hin).
      * intros _. apply Exists_app. right. by left.
      * zlia.
Qed.

(** ** The sticky engine keeps a store strictly sorted *)

Lemma not_markerOn (l : Z) (bks : list Bookmark) : ¬ markerOn l bks → noMarkerOn l bks.
Proof.
  intros Hno. apply Forall_forall. intros b Hb Hl. apply Hno.
  apply Exists_exists. eauto.
Qed.

Lemma removeDeleted_spec keep startLine endLine (bks : list Bookmark) updated :
  strictlySorted bks → startLine <= endLine →
  fst (removeDeleted keep endLine (Z.to_nat (endLine - startLine)) startLine bks updated)
  = afterRemoval keep startLine endLine bks.
Proof.
  intros Hs Hle. unfold afterRemoval.
  assert (startLine + Z.of_nat (Z.to_nat (endLine - startLine)) = endLine) as Hend by lia.
  assert (∀ k, (k = true → markerOn endLine bks) →
    fst (removeDeleted k endLine (Z.to_nat (endLine - startLine)) startLine bks updated)
    = destroyDeleted startLine endLine bks) as Hdestroy.
  { intros k Hk. rewrite removeDeleted_destroying; [| by apply strictlySorted_NoDup | done | lia].
    apply list_filter_iff. intros b. unfold inDeletedRange. lia. }
  destruct keep; [|by apply Hdestroy].
  destruct (decide (markerOn endLine bks)) as [Hm | Hno]; [by apply Hdestroy|].
  apply removeDeleted_collapsing; [done | by apply not_markerOn | done].
Qed.

Lemma collapseDeleted_elem startLine endLine (bks : list Bookmark) (c : Bookmark) :
  c ∈ collapseDeleted startLine endLine bks →
  (c ∈ bks ∧ ¬ inDeletedRange startLine endLine c)
  ∨ ∃ b, b ∈ bks ∧ inDeletedRange startLine endLine b ∧ c = setLine endLine b.
Proof.
  induction bks as [|b rest IH]; simpl; [by intros ?%elem_of_nil|].
  destruct (decide _) as [Hin | Hout]; intros [-> | Hc]%elem_of_cons.
  - right. exists b. split; [by left | done].
  - apply list_elem_of_filter in Hc as [Hout Hc]. left. split; [by right | done].
  - left. split; [by left | done].
  - destruct (IH Hc) as [[Hc' Hout'] | (b' & Hb' & Hin' & ->)].
    + left. split; [by right | done].
    + right. exists b'. split; [by right | done].
Qed.

Lemma afterRemoval_outside keep startLine endLine (bks : list Bookmark) :
  Forall (fun b => ¬ inDeletedRange startLine endLine b)
    (afterRemoval keep startLine endLine bks).
Proof.
  assert (Forall (fun b => ¬ inDeletedRange startLine endLine b)
            (destroyDeleted startLine endLine bks)) as Hd.
  { apply Forall_forall. intros b Hb. by apply list_elem_of_filter in Hb as [Hb _]. }
  unfold afterRemoval. destruct keep; [|done]. destruct (decide _); [done|].
  apply Forall_forall. intros c Hc.
  apply collapseDeleted_elem in Hc as [[_ Hout] | (b & _ & _ & ->)]; [done|].
  unfold inDeletedRange. simpl. lia.
Qed.

Lemma collapseDeleted_sorted startLine endLine (bks : list Bookmark) :
  strictlySorted bks → noMarkerOn endLine bks →
  strictlySorted (collapseDeleted startLine endLine bks).
Proof.
  induction 1 as [|b rest Hrest IH Hb]; intros Hno; simpl; [constructor|].
  apply Forall_cons in Hno as [Hnob Hno].
  rewrite Forall_forall in Hb. unfold noMarkerOn in Hno. rewrite Forall_forall in Hno.
  destruct (decide _) as [Hin | Hout].
  - constructor; [by apply strictlySorted_filter|].
    apply Forall_forall. intros c Hc.
    apply list_elem_of_filter in Hc as [Hout Hc].
    pose proof (Hb c Hc). pose proof (Hno c Hc).
    unfold inDeletedRange in *. simpl. lia.
  - constructor; [apply IH; by apply Forall_forall|].
    apply Forall_forall. intros c Hc.
    apply collapseDeleted_elem in Hc as [[Hc _] | (b' & Hb' & Hin' & ->)]; [by apply Hb|].
    pose proof (Hb b' Hb'). unfold inDeletedRange in *. simpl. lia.
Qed.

Lemma afterRemoval_sorted keep startLine endLine (bks : list Bookmark) :
  strictlySorted bks → strictlySorted (afterRemoval keep startLine endLine bks).
Proof.
  intros Hs. unfold afterRemoval.
  destruct keep; [|by apply strictlySorted_filter].
  destruct (decide _); [by apply strictlySorted_filter|].
  apply collapseDeleted_sorted; [done | by apply not_markerOn].
Qed.

(** One change keeps a store strictly sorted, whether it returns or throws. *)
Lemma applyChange_sorted keep doc change (bks : list Bookmark) updated :
  strictlySorted bks →
  strictlySorted (fst (applyChange keep doc change bks updated)).
Proof.
  intros Hs. unfold applyChange.
  destruct (negb (includesNewline (text change)) && negb _) eqn:Hnone; [done|].
  set (afterAdd := if includesNewline (text change) then _ else _).
  assert (strictlySorted (fst afterAdd)) as Hadd.
  { subst afterAdd. destruct (includesNewline (text change)); [|done].
    destruct (startCharacter _ _ _) as [eventChar | e]; [|done].
    rewrite shiftAdded_spec. simpl.
    apply shiftAdded_sorted; [|done]. unfold countNewlines. lia. }
  destruct afterAdd as [bks1 [updated1 | e]]; simpl in *; [|done].
  destruct (Z.ltb_spec (pos_line (range_start change)) (pos_line (range_end change)))
    as [Hlt | Hge]; [|done].
  destruct (removeDeleted _ _ _ _ _ _) as [bks2 updated2] eqn:Hrem.
  assert (bks2 = afterRemoval keep (pos_line (range_start change))
                   (pos_line (range_end change)) bks1) as ->.
  { rewrite <- (removeDeleted_spec keep _ _ bks1 updated1) by (done || lia).
    by rewrite Hrem. }
  destruct (startCharacter doc (pos_line (range_start change))
              (character (range_start change))) as [eventChar | e] eqn:Hc.
  - rewrite (shiftDeleted_returns _ _ _ _ eventChar) by done. simpl.
    apply shiftDeleted_sorted; [done | apply afterRemoval_outside |].
    by apply afterRemoval_sorted.
  - rewrite (shiftDeleted_throws _ _ _ _ e) by done. simpl.
    by apply afterRemoval_sorted.
Qed.

Lemma applyChanges_sorted keep doc changes (bks : list Bookmark) updated :
  strictlySorted bks →
  strictlySorted (fst (applyChanges keep doc changes bks updated)).
Proof.
  revert bks updated. induction changes as [|change rest IH]; intros bks updated Hs;
    simpl; [done|].
  pose proof (applyChange_sorted keep doc change bks updated Hs) as Hone.
  destruct (applyChange keep doc change bks updated) as [bks' [updated' | e]]; simpl in *.
  - by apply IH.
  - done.
Qed.

Lemma updateStickyGlobalBookmarks_sorted keep changes globalFile doc :
  strictlySorted (bookmarks globalFile) →
  strictlySorted (bookmarks (fst (updateStickyGlobalBookmarks keep changes globalFile doc))).
Proof.
  intros Hs. unfold updateStickyGlobalBookmarks.
  destruct changes as [|change rest]; [done|].
  pose proof (applyChanges_sorted keep doc (change :: rest) (bookmarks globalFile) false Hs)
    as Hall.
  destruct (applyChanges _ _ _ _ _) as [bks r]. done.
Qed.

(** ** The manager *)

Lemma strictlySorted_lines (bks : list Bookmark) :
  strictlySorted bks ↔ StronglySorted Z.lt (line <$> bks).
Proof.
  unfold strictlySorted. induction bks as [|b rest IH]; simpl.
  - split; constructor.
  - rewrite !StronglySorted_cons, IH, Forall_fmap. done.
Qed.

Lemma strictlySorted_relabel (f : Bookmark → Bookmark) (bks : list Bookmark) (k : nat) :
  (∀ b, line (f b) = line b) → strictlySorted bks → strictlySorted (alter f k bks).
Proof.
  intros Hf. rewrite !strictlySorted_lines.
  replace (line <$> alter f k bks) with (line <$> bks); [done|].
  revert k. induction bks as [|b rest IH]; intros [|k]; [done..| |].
  - simpl. by rewrite Hf.
  - change (alter f (S k) (b :: rest)) with (b :: alter f k rest).
    rewrite !fmap_cons. f_equal. apply IH.
Qed.

Lemma strictlySorted_splice1 (bks : list Bookmark) (start : Z) :
  strictlySorted bks → strictlySorted (splice1 bks start).
Proof. apply strictlySorted_delete. Qed.

Lemma strictlySorted_push (bks : list Bookmark) (x : Bookmark) :
  strictlySorted bks → noMarkerOn (line x) bks →
  strictlySorted (sortBy line (bks ++ [x])).
Proof.
  intros Hs Hno. rewrite sortBy_snoc, sortBy_sorted by (by apply strictlySorted_weaken).
  by apply insertBy_strictly_sorted.
Qed.

Lemma findFile_cons (p : jsstring) (f : GlobalFile) (files : list GlobalFile) :
  findFile p (f :: files)
  = if decide (path f = p) then Some 0%nat else S <$> findFile p files.
Proof.
  unfold findFile. simpl. destruct (decide (path f = p)); [done|].
  by destruct (list_find _ files) as [[i g]|].
Qed.

Lemma findFile_Some (p : jsstring) (files : list GlobalFile) (i : nat) :
  findFile p files = Some i → ∃ f, files !! i = Some f ∧ path f = p.
Proof.
  revert i. induction files as [|f files IH]; intros i; [done|].
  rewrite findFile_cons. destruct (decide _) as [Hp | Hp].
  - intros [= <-]. by exists f.
  - destruct (findFile p files) as [j|]; [|done]. intros [= <-]. by apply IH.
Qed.

Lemma findFile_paths (p : jsstring) (files files' : list GlobalFile) :
  path <$> files = path <$> files' → findFile p files = findFile p files'.
Proof.
  revert files'. induction files as [|f files IH]; intros [|f' files'] Hp;
    simplify_eq/=; [done|].
  rewrite !findFile_cons, (IH files') by done.
  by destruct (decide _), (decide _); simplify_eq.
Qed.

Lemma findFile_new (p : jsstring) (files : list GlobalFile) :
  findFile p files = None →
  findFile p (files ++ [mkGlobalFile p []]) = Some (length files).
Proof.
  induction files as [|f files IH]; simpl.
  - intros _. rewrite findFile_cons. by rewrite decide_True.
  - rewrite !findFile_cons. destruct (decide _); [done|].
    destruct (findFile p files); [done|]. intros _. by rewrite IH.
Qed.

Lemma paths_alter_bookmarks (bks : list Bookmark) (i : nat) (files : list GlobalFile) :
  path <$> alter (setBookmarks bks) i files = path <$> files.
Proof.
  revert i. induction files as [|f files IH]; intros [|i]; [done..|].
  change (alter (setBookmarks bks) (S i) (f :: files))
    with (f :: alter (setBookmarks bks) i files).
  rewrite !fmap_cons. f_equal. apply IH.
Qed.

Section ManagerFacts.

Context {host : Host}.

Lemma files_save m : _files (save m) = _files m.
Proof. done. Qed.

Lemma files_fire n m : _files (fire n m) = _files m.
Proof. done. Qed.

Lemma getBookmarksForFile_files uri m m' :
  _files m = _files m' → getBookmarksForFile uri m = getBookmarksForFile uri m'.
Proof.
  intros Hf. unfold getBookmarksForFile, fromUri, bookmarksOf. by rewrite Hf.
Qed.

(** What [getOrCreateFile] returns refers to the file of [uri], and the
    bookmarks of that file are those [uri] had. *)
Lemma getOrCreateFile_spec uri m :
  let '(m', file) := getOrCreateFile uri m in
  findFile (normalizePath (fsPath uri)) (_files m') = Some file
  ∧ bookmarksOf m' file = getBookmarksForFile uri m
  ∧ (storeInvariant m → storeInvariant m')
  ∧ fired m' = fired m ∧ globalState m' = globalState m.
Proof.
  unfold getOrCreateFile, getBookmarksForFile, fromUri.
  destruct (findFile _ (_files m)) as [file|] eqn:Hfind.
  - by rewrite Hfind.
  - cbn beta iota. cbn [_files setFiles].
    rewrite findFile_new by done. repeat split; simpl.
    + unfold bookmarksOf. simpl. by rewrite list_lookup_middle.
    + intros Hinv. apply Forall_app. split; [done|].
      repeat constructor.
Qed.

Lemma withBookmarks_lookup uri file bks m :
  findFile (normalizePath (fsPath uri)) (_files m) = Some file →
  getBookmarksForFile uri (withBookmarks file bks m) = bks.
Proof.
  intros Hfind. unfold getBookmarksForFile, fromUri, withBookmarks, bookmarksOf. simpl.
  rewrite (findFile_paths _ _ (_files m)) by apply paths_alter_bookmarks.
  rewrite Hfind. apply findFile_Some in Hfind as (f & Hf & _).
  by rewrite list_lookup_alter_eq, Hf.
Qed.

Lemma withBookmarks_find p file bks m :
  findFile p (_files (withBookmarks file bks m)) = findFile p (_files m).
Proof. apply findFile_paths, paths_alter_bookmarks. Qed.

Lemma withBookmarks_invariant file bks m :
  storeInvariant m → strictlySorted bks → storeInvariant (withBookmarks file bks m).
Proof.
  intros Hinv Hs. unfold storeInvariant, withBookmarks. simpl.
  apply Forall_alter; [done|]. by intros f _ _.
Qed.

Lemma bookmarksOf_sorted m file :
  storeInvariant m → strictlySorted (bookmarksOf m file).
Proof.
  intros Hinv. unfold bookmarksOf.
  destruct (_files m !! file) as [f|] eqn:Hf; [|constructor].
  unfold storeInvariant in Hinv. rewrite Forall_forall in Hinv.
  apply Hinv. by eapply list_elem_of_lookup_2.
Qed.

(** The bookmarks of [uri] after [addBookmark]. *)
Lemma addBookmark_bookmarks uri l c lbl m :
  getBookmarksForFile uri (addBookmark uri l c lbl m)
  = sortBy line (getBookmarksForFile uri m ++ [mkBookmark l c (Some (orEmpty lbl))]).
Proof.
  unfold addBookmark. pose proof (getOrCreateFile_spec uri m) as Hget.
  destruct (getOrCreateFile uri m) as [m' file].
  destruct Hget as (Hfind & Hbks & _).
  rewrite (getBookmarksForFile_files _ _ (withBookmarks file
    (sortBy line (bookmarksOf m' file ++ [mkBookmark l c (Some (orEmpty lbl))])) m'))
    by done.
  rewrite withBookmarks_lookup by done. by rewrite Hbks.
Qed.

Lemma addBookmark_invariant uri l c lbl m :
  storeInvariant m → noMarkerOn l (getBookmarksForFile uri m) →
  storeInvariant (addBookmark uri l c lbl m).
Proof.
  intros Hinv Hno. unfold addBookmark. pose proof (getOrCreateFile_spec uri m) as Hget.
  destruct (getOrCreateFile uri m) as [m' file].
  destruct Hget as (Hfind & Hbks & Hinv' & _).
  unfold storeInvariant. rewrite files_fire.
  apply withBookmarks_invariant; [auto|].
  apply strictlySorted_push; [by apply bookmarksOf_sorted; auto|].
  by rewrite Hbks.
Qed.

(** [toggle] on the bookmarks of [uri]: what it returns and what the
    array holds afterwards. *)
Lemma toggle_spec uri l c lbl m :
  let bks := getBookmarksForFile uri m in
  let index := indexOfBookmark_from bks l 0 in
  snd (toggle uri l c lbl m) = negb (index >=? 0)
  ∧ getBookmarksForFile uri (fst (toggle uri l c lbl m))
    = if index >=? 0 then
        if truthy lbl then alter (setLabel (orEmpty lbl)) (Z.to_nat index) bks
        else splice1 bks index
      else sortBy line (bks ++ [mkBookmark l c (Some (orEmpty lbl))]).
Proof.
  intros bks index. unfold toggle.
  pose proof (getOrCreateFile_spec uri m) as Hget.
  destruct (getOrCreateFile uri m) as [m' file] eqn:Hm'.
  destruct Hget as (Hfind & Hbks & _).
  rewrite Hbks. fold bks. fold index.
  destruct (index >=? 0) eqn:Hidx; simpl; split; try done.
  - destruct (truthy lbl).
    + rewrite (getBookmarksForFile_files _ _
        (withBookmarks file (alter (setLabel (orEmpty lbl)) (Z.to_nat index) bks) m'))
        by done.
      by apply withBookmarks_lookup.
    + unfold removeBookmark. rewrite Hbks. fold bks.
      rewrite (getBookmarksForFile_files _ _
        (withBookmarks file (splice1 bks index) m')) by done.
      by apply withBookmarks_lookup.
  - rewrite (getBookmarksForFile_files _ _ (addBookmark uri l c lbl m')) by done.
    rewrite addBookmark_bookmarks. subst bks. rewrite <- Hbks.
    f_equal. f_equal.
    unfold getBookmarksForFile, fromUri. by rewrite Hfind.
Qed.

Lemma toggle_invariant uri l c lbl m :
  storeInvariant m → storeInvariant (fst (toggle uri l c lbl m)).
Proof.
  intros Hinv. unfold toggle.
  pose proof (getOrCreateFile_spec uri m) as Hget.
  destruct (getOrCreateFile uri m) as [m' file] eqn:Hm'.
  destruct Hget as (Hfind & Hbks & Hinv' & _). specialize (Hinv' Hinv).
  pose proof (bookmarksOf_sorted m' file Hinv') as Hs.
  destruct (Z.geb_spec (indexOfBookmark_from (bookmarksOf m' file) l 0) 0) as [Hge | Hlt];
    simpl; unfold storeInvariant; rewrite files_fire, files_save.
  - destruct (truthy lbl).
    + rewrite files_fire. apply withBookmarks_invariant; [done|].
      by apply strictlySorted_relabel.
    + unfold removeBookmark. rewrite files_fire.
      apply withBookmarks_invariant; [done|]. by apply strictlySorted_splice1.
  - apply addBookmark_invariant; [done|].
    unfold getBookmarksForFile, fromUri. rewrite Hfind.
    by apply (indexOf_negative _ _ 0).
Qed.

End ManagerFacts.

(** ** The loops of [bookmarks.toggleGlobal] *)

Lemma indexOf_geb_found (bks : list Bookmark) (l : Z) :
  markerOn l bks → (indexOfBookmark_from bks l 0 >=? 0) = true.
Proof.
  intros Hm. pose proof (indexOf_found bks l Hm).
  destruct (indexOf_from_cases bks l 0) as [[Hr _] | (k & b & Hr & _)]; rewrite Hr in *; lia.
Qed.

Lemma indexOf_geb_not_found (bks : list Bookmark) (l : Z) :
  noMarkerOn l bks → (indexOfBookmark_from bks l 0 >=? 0) = false.
Proof. intros Hno. by rewrite indexOf_absent. Qed.

Lemma indexOf_ltb_found (bks : list Bookmark) (l : Z) :
  markerOn l bks → (indexOfBookmark_from bks l 0 <? 0) = false.
Proof. intros Hm. pose proof (indexOf_geb_found bks l Hm). lia. Qed.

Lemma indexOf_ltb_not_found (bks : list Bookmark) (l : Z) :
  noMarkerOn l bks → (indexOfBookmark_from bks l 0 <? 0) = true.
Proof. intros Hno. by rewrite indexOf_absent. Qed.

Lemma markerOn_perm (l : Z) (bks bks' : list Bookmark) :
  bks ≡ₚ bks' → markerOn l bks → markerOn l bks'.
Proof.
  intros Hp Hm. apply Exists_exists in Hm as (b & Hb & Hl).
  apply Exists_exists. exists b. by rewrite <- Hp.
Qed.

Lemma splice_found_geb (bks : list Bookmark) (l : Z) :
  NoDup (line <$> bks) →
  (if indexOfBookmark_from bks l 0 >=? 0
   then splice1 bks (indexOfBookmark_from bks l 0) else bks)
  = filter (fun y => line y ≠ l) bks.
Proof.
  intros Hnd. rewrite <- (splice_found bks l Hnd).
  destruct (indexOf_from_cases bks l 0) as [[Hr _] | (k & b & Hr & _)]; rewrite Hr.
  - done.
  - replace (0 + Z.of_nat k >=? 0) with true by lia.
    by replace (0 + Z.of_nat k >? -1) with true by lia.
Qed.

Section ToggleGlobalFacts.

Context {host : Host}.

Lemma fromUri_bookmarks uri m file :
  fromUri (Some uri) m = Some file → bookmarksOf m file = getBookmarksForFile uri m.
Proof. intros Hf. unfold getBookmarksForFile. by rewrite Hf. Qed.

Lemma fromUri_none uri m :
  fromUri (Some uri) m = None → getBookmarksForFile uri m = [].
Proof. intros Hf. unfold getBookmarksForFile. by rewrite Hf. Qed.

Lemma toggleSelections_on uri selections toggledLines m :
  getBookmarksForFile uri (toggleSelections (Some on) uri selections toggledLines m)
  = addMissing selections toggledLines (getBookmarksForFile uri m).
Proof.
  revert toggledLines m.
  induction selections as [|sel rest IH]; intros toggledLines m; [done|].
  cbn -[bookmarksOf fromUri addBookmark removeBookmark
        getBookmarksForFile indexOfBookmark_from].
  rewrite bool_decide_decide.
  destruct (decide (pos_line sel ∈ toggledLines)); [apply IH|].
  rewrite IH. f_equal.
  destruct (fromUri (Some uri) m) as [file|] eqn:Hfile.
  - rewrite (fromUri_bookmarks uri m file Hfile).
    destruct (_ <? 0); [apply addBookmark_bookmarks | done].
  - rewrite (fromUri_none uri m Hfile). simpl.
    rewrite addBookmark_bookmarks. by rewrite (fromUri_none uri m Hfile).
Qed.

Lemma toggleSelections_off uri selections toggledLines m :
  getBookmarksForFile uri (toggleSelections (Some off) uri selections toggledLines m)
  = removePresent selections toggledLines (getBookmarksForFile uri m).
Proof.
  revert toggledLines m.
  induction selections as [|sel rest IH]; intros toggledLines m; [done|].
  cbn -[bookmarksOf fromUri addBookmark removeBookmark
        getBookmarksForFile indexOfBookmark_from].
  rewrite bool_decide_decide.
  destruct (decide (pos_line sel ∈ toggledLines)); [apply IH|].
  rewrite IH. f_equal.
  destruct (fromUri (Some uri) m) as [file|] eqn:Hfile.
  - rewrite (fromUri_bookmarks uri m file Hfile).
    destruct (_ >=? 0); [|done].
    unfold removeBookmark. rewrite (fromUri_bookmarks uri m file Hfile).
    rewrite (getBookmarksForFile_files _ _
      (withBookmarks file (splice1 (getBookmarksForFile uri m)
         (indexOfBookmark_from (getBookmarksForFile uri m) (pos_line sel) 0)) m)) by done.
    apply withBookmarks_lookup. exact Hfile.
  - by rewrite (fromUri_none uri m Hfile).
Qed.

End ToggleGlobalFacts.

Lemma addMissing_perm selections toggledLines (bks cur extra : list Bookmark) :
  cur ≡ₚ bks ++ extra → Forall (fun b => line b ∈ toggledLines) extra →
  addMissing selections toggledLines cur
  ≡ₚ bks ++ extra ++ additions selections toggledLines bks.
Proof.
  revert toggledLines cur extra.
  induction selections as [|sel rest IH]; intros toggledLines cur extra Hp Hextra; simpl.
  - by rewrite app_nil_r.
  - destruct (decide (pos_line sel ∈ toggledLines)) as [Hin | Hnotin]; [by apply IH|].
    assert (Forall (fun b => line b ∈ toggledLines ++ [pos_line sel]) extra) as Hextra'.
    { eapply Forall_impl; [exact Hextra|]. intros b Hb. apply elem_of_app. by left. }
    destruct (decide (markerOn (pos_line sel) bks)) as [Hm | Hno].
    + rewrite indexOf_ltb_found.
      2:{ eapply markerOn_perm; [symmetry; exact Hp|]. apply Exists_app. by left. }
      by apply IH.
    + rewrite indexOf_ltb_not_found.
      2:{ apply not_markerOn. intros Hm.
          apply (markerOn_perm _ _ _ Hp), Exists_app in Hm as [Hm | Hm]; [done|].
          apply Exists_exists in Hm as (b & Hb & Hl).
          rewrite Forall_forall in Hextra. apply Hnotin. rewrite <- Hl. by apply Hextra. }
      rewrite (IH _ _ (extra ++ [mkBookmark (pos_line sel) (character sel) (Some [])])).
      * by rewrite <- !app_assoc.
      * rewrite sortBy_perm, Hp. by rewrite app_assoc.
      * apply Forall_app. split; [done|]. constructor; [|done].
        simpl. apply elem_of_app. right. by left.
Qed.

Lemma removePresent_filter selections toggledLines (bks : list Bookmark) :
  NoDup (line <$> bks) →
  removePresent selections toggledLines bks
  = filter (fun b => ¬ (line b ∈ (pos_line <$> selections) ∧ line b ∉ toggledLines)) bks.
Proof.
  revert toggledLines bks.
  induction selections as [|sel rest IH]; intros toggledLines bks Hnd; simpl.
  - symmetry. apply filter_all, Forall_forall. intros b _ [Hin _].
    by apply elem_of_nil in Hin.
  - destruct (decide (pos_line sel ∈ toggledLines)) as [Hin | Hnotin].
    + rewrite IH by done. apply list_filter_iff. intros b.
      rewrite elem_of_cons.
      destruct (decide (line b = pos_line sel)) as [Heq | Hne]; [|tauto].
      rewrite <- Heq in Hin. tauto.
    + rewrite splice_found_geb by done.
      rewrite IH by (by apply NoDup_lines_filter).
      rewrite list_filter_filter. apply list_filter_iff. intros b.
      rewrite elem_of_cons, elem_of_app, list_elem_of_singleton.
      destruct (decide (line b = pos_line sel)) as [Heq | Hne]; [|tauto].
      rewrite <- Heq in Hnotin. tauto.
Qed.

(** ** Pruning in [listBookmarks] *)

Lemma delete_last {A} (l : list A) : delete (length l - 1)%nat l = take (length l - 1)%nat l.
Proof.
  induction l as [|a l IH]; [done|].
  destruct l as [|a' l]; [done|].
  replace (length (a :: a' :: l) - 1)%nat with (S (length (a' :: l) - 1)) by (simpl; lia).
  simpl delete. simpl take. f_equal. apply IH.
Qed.

Lemma splice1_last {A} (l : list A) : splice1 l (-1) = take (length l - 1)%nat l.
Proof.
  unfold splice1. replace (-1 <? 0) with true by lia.
  rewrite <- delete_last. f_equal. lia.
Qed.

Lemma removeInvalids_take (invalids : list Z) (bks : list Bookmark) :
  removeInvalids invalids bks = take (length bks - length invalids)%nat bks.
Proof.
  revert bks. induction invalids as [|invalid rest IH]; intros bks; simpl.
  - rewrite Nat.sub_0_r. by rewrite firstn_all.
  - unfold indexOfNewObject. rewrite IH, splice1_last, take_take, length_take.
    f_equal. lia.
Qed.

Lemma filter_none {A} (P : A → Prop) `{∀ x, Decision (P x)} (l : list A) :
  Forall (fun x => ¬ P x) l → filter P l = [].
Proof.
  induction 1 as [|x l Hx _ IH]; [done|]. by rewrite filter_cons_False.
Qed.

Lemma sorted_split (n : Z) (bks : list Bookmark) :
  sortedByLine bks →
  bks = filter (withinDocument n) bks ++ filter (fun b => ¬ withinDocument n b) bks.
Proof.
  induction 1 as [|b rest _ IH Hb]; [done|].
  destruct (decide (withinDocument n b)) as [Hin | Hout].
  - rewrite filter_cons_True, filter_cons_False by tauto. simpl. by rewrite <- IH.
  - rewrite filter_cons_False, filter_cons_True by done.
    rewrite filter_none, filter_all; [done | |];
      (eapply Forall_impl; [exact Hb|]); unfold withinDocument in *; simpl; lia.
Qed.

Lemma sorted_prune (n : Z) (bks : list Bookmark) :
  sortedByLine bks →
  take (length bks - length (filter (fun b => ¬ withinDocument n b) bks))%nat bks
  = filter (withinDocument n) bks.
Proof.
  intros Hs. rewrite (sorted_split n bks Hs) at 1 3.
  rewrite length_app, Nat.add_sub. apply take_app_length.
Qed.

(** Keeping as many bookmarks, from the start, as there are bookmarks
    within the document keeps one that is not, as soon as one that is not
    comes before one that is. *)
Lemma take_within_keeps (n : Z) (pre post : list Bookmark) (invalid valid : Bookmark) :
  ¬ withinDocument n invalid → valid ∈ post → withinDocument n valid →
  ∃ b, b ∈ take (length (filter (withinDocument n) (pre ++ invalid :: post)))
             (pre ++ invalid :: post)
       ∧ ¬ withinDocument n b.
Proof.
  intros Hinvalid Hin Hvalid.
  assert (Hpos : ∃ k, length (filter (withinDocument n) post) = S k).
  { apply list_elem_of_split in Hin as (l1 & l2 & ->).
    rewrite filter_app, filter_cons_True, length_app by done. simpl.
    exists (length (filter (withinDocument n) l1) + length (filter (withinDocument n) l2))%nat.
    lia. }
  destruct Hpos as (k & Hk).
  induction pre as [|a pre IH]; simpl.
  - rewrite filter_cons_False by done. rewrite Hk. simpl.
    exists invalid. split; [left|done].
  - destruct (decide (withinDocument n a)) as [Ha | Ha].
    + rewrite filter_cons_True by done. simpl.
      destruct IH as (b & Hb & Hout). exists b. split; [by right|done].
    + rewrite filter_cons_False by done.
      rewrite filter_app, filter_cons_False, length_app, Hk by done.
      rewrite Nat.add_succ_r. simpl. exists a. split; [left|done].
Qed.

Lemma lineAt_within (doc : TextDocument) (l : Z) :
  0 <= l → l + 1 <= lineCount doc → is_Some (lineAt doc l).
Proof.
  intros H0 Hn. unfold lineAt, lineCount in *.
  replace (l <? 0) with false by lia. apply lookup_lt_is_Some. lia.
Qed.

Lemma classify_spec `{host : Host} doc filePath uri (bks : list Bookmark) items invalids :
  Forall (fun b => 0 <= line b) bks →
  ∃ items',
    classify doc filePath uri bks items invalids
    = Some (items ++ items',
            invalids ++ ((fun b => line b + 1)
                           <$> filter (fun b => ¬ withinDocument (lineCount doc) b) bks))
    ∧ length items' = length (filter (withinDocument (lineCount doc)) bks).
Proof.
  intros Hnn. revert items invalids.
  induction Hnn as [|b rest Hb _ IH]; intros items invalids; cbn [classify].
  - exists []. rewrite filter_nil, fmap_nil. by rewrite !app_nil_r.
  - destruct (Z.leb_spec (line b + 1) (lineCount doc)) as [Hin | Hout].
    + replace (line b + 1 - 1) with (line b) by lia.
      destruct (lineAt_within doc (line b) Hb Hin) as [t ->].
      rewrite (filter_cons_True (withinDocument (lineCount doc))),
        (filter_cons_False (fun b => ¬ withinDocument (lineCount doc) b))
        by (unfold withinDocument; cbn beta; lia).
      match goal with |- context [classify _ _ _ _ (items ++ [?it]) _] =>
        destruct (IH (items ++ [it]) invalids) as (items' & -> & Hlen); exists (it :: items')
      end.
      rewrite <- app_assoc. cbn [length app]. by rewrite Hlen.
    + rewrite (filter_cons_False (withinDocument (lineCount doc))),
        (filter_cons_True (fun b => ¬ withinDocument (lineCount doc) b))
        by (unfold withinDocument; cbn beta; lia).
      destruct (IH items (invalids ++ [line b + 1])) as (items' & -> & Hlen).
      exists items'. rewrite <- app_assoc. done.
Qed.

(** ** The forward scan *)

Lemma scanForward_none (bks : list Bookmark) (currentLine : Z) :
  Forall (fun b => line b <= currentLine) bks → scanForward bks currentLine = None.
Proof.
  induction 1 as [|b rest Hb _ IH]; simpl; [done|].
  by replace (line b >? currentLine) with false by lia.
Qed.

Lemma scanForward_first (pre post : list Bookmark) (b : Bookmark) (currentLine : Z) :
  Forall (fun a => line a <= currentLine) pre → currentLine < line b →
  scanForward (pre ++ b :: post) currentLine = Some (positionOf b).
Proof.
  induction 1 as [|a pre Ha _ IH]; intros Hb; simpl.
  - by replace (line b >? currentLine) with true by lia.
  - replace (line a >? currentLine) with false by lia. by apply IH.
Qed.

(** In any list, the first bookmark past the cursor comes after bookmarks
    that are not past it. *)
Lemma first_after_split (bks : list Bookmark) (b : Bookmark) (currentLine : Z) :
  b ∈ bks → currentLine < line b →
  ∃ pre b1 post, bks = pre ++ b1 :: post
    ∧ Forall (fun a => line a <= currentLine) pre ∧ currentLine < line b1.
Proof.
  induction bks as [|a rest IH]; [by intros ?%elem_of_nil|].
  intros Hin Hlt. destruct (Z.le_gt_cases (line a) currentLine) as [Hle | Hgt].
  - apply elem_of_cons in Hin as [-> | Hin]; [lia|].
    destruct (IH Hin Hlt) as (pre & b1 & post & -> & Hpre & Hb1).
    exists (a :: pre), b1, post. split; [done|]. split; [by constructor|done].
  - exists [], a, rest. split; [done|]. split; [constructor|lia].
Qed.

(** In a list sorted by line, that bookmark is on the least line past the
    cursor. *)
Lemma first_after_least (pre post : list Bookmark) (b b' : Bookmark) (currentLine : Z) :
  sortedByLine (pre ++ b :: post) →
  Forall (fun a => line a <= currentLine) pre →
  b' ∈ pre ++ b :: post → currentLine < line b' → line b <= line b'.
Proof.
  unfold sortedByLine. induction pre as [|a pre IH]; simpl; intros Hs Hpre Hin Hlt.
  - apply StronglySorted_inv in Hs as [_ Hall].
    apply elem_of_cons in Hin as [-> | Hin]; [lia|].
    rewrite Forall_forall in Hall. by apply Hall.
  - apply StronglySorted_inv in Hs as [Hs _]. apply Forall_cons in Hpre as [Ha Hpre].
    apply elem_of_cons in Hin as [-> | Hin]; [lia|]. by apply IH.
Qed.

(** ** The start column of an edit *)

Lemma startCharacter_spec document startLine startChar :
  0 <= startChar → (startChar = 0 ∨ is_Some (lineAt document startLine)) →
  ∃ eventChar,
    startCharacter document startLine startChar = Returns eventChar
    ∧ 0 <= eventChar
    ∧ (eventChar = 0 ↔ atLineStart document startLine startChar).
Proof.
  intros Hnn Hline. unfold startCharacter, atLineStart.
  destruct (Z.gtb_spec startChar 0) as [Hpos | Hzero].
  - destruct Hline as [-> | [t Ht]]; [lia|]. rewrite Ht.
    rewrite bool_decide_decide.
    destruct (decide (removeWhiteSpace (removeTabs t) = [])) as [Hblank | Hnot].
    + exists 0. repeat split; [lia | eauto].
    + exists startChar. repeat split; [done | lia |].
      intros [? | (t' & [= <-] & ?)]; [lia | done].
  - exists startChar. repeat split; [done | by left | lia].
Qed.

Lemma fmap_agree {A B} (f g : A → B) (l : list A) :
  Forall (fun x => f x = g x) l → f <$> l = g <$> l.
Proof. induction 1 as [|x l Hx _ IH]; [done|]. rewrite !fmap_cons. by f_equal. Qed.

Lemma isShifted_insertion document startLine startChar eventChar (b : Bookmark) :
  0 <= eventChar → (eventChar = 0 ↔ atLineStart document startLine startChar) →
  isShifted (line b) startLine eventChar = true
  ↔ shiftedByInsertion document startLine startChar b.
Proof.
  intros Hnn Hzero. unfold isShifted, shiftedByInsertion.
  destruct (decide (eventChar = 0)) as [-> | Hpos].
  - pose proof (proj1 Hzero eq_refl). split; [|lia].
    intros H'. destruct (decide (startLine < line b)); [by left | right]. split; [lia | done].
  - assert (¬ atLineStart document startLine startChar) by (intros ?%Hzero; done).
    split; [intros ?; left; lia | intros [? | [_ ?]]; [lia | done]].
Qed.

Lemma isShifted_after_removal startLine endLine eventChar (b : Bookmark) :
  0 <= eventChar → ¬ inDeletedRange startLine endLine b → startLine < endLine →
  isShifted (line b) startLine eventChar = true ↔ startLine < line b.
Proof. unfold isShifted, inDeletedRange. lia. Qed.

(** ** The invariant, operation by operation *)

Section InvariantFacts.

Context {host : Host}.

Lemma removeBookmark_invariant file index l m :
storeInvariant m → storeInvariant (removeBookmark file index l m).
Proof.
intros Hinv. unfold removeBookmark, storeInvariant. rewrite files_fire.
apply withBookmarks_invariant; [done|].
by apply strictlySorted_splice1, bookmarksOf_sorted.
Qed.

Lemma toggleSelections_invariant forceState uri selections toggledLines m :
storeInvariant m →
storeInvariant (toggleSelections forceState uri selections toggledLines m).
Proof.
revert toggledLines m.
induction selections as [|sel rest IH]; intros toggledLines m Hinv; [done|].
cbn -[bookmarksOf fromUri addBookmark removeBookmark toggle
      indexOfBookmark_from].
destruct (bool_decide _); [by apply IH|]. apply IH.
destruct forceState as [[|]|].
- destruct (fromUri (Some uri) m) as [file|] eqn:Hfile.
  + destruct (Z.ltb_spec (indexOfBookmark_from (bookmarksOf m file) (pos_line sel) 0) 0);
      [|done].
    apply addBookmark_invariant; [done|].
    rewrite <- (fromUri_bookmarks uri m file Hfile).
    by apply (indexOf_negative _ _ 0).
  + apply addBookmark_invariant; [done|].
    rewrite (fromUri_none uri m Hfile). constructor.
- destruct (fromUri (Some uri) m) as [file|]; [|done].
  destruct (_ >=? 0); [|done]. by apply removeBookmark_invariant.
- by apply toggle_invariant.
Qed.

(** The command in an active editor that is not a Search Editor. *)
Lemma toggleGlobal_active toggleMode uri sels m :
fst (toggleGlobal toggleMode (Some (mkTextEditor uri false sels)) m)
= notifyAndSave
    (toggleSelections
       (if eqb toggleMode (lit "allLinesAtOnce") && (1 <? Z.of_nat (length sels))
        then Some (if match fromUri (Some uri) m with
                      | Some file =>
                          forallb (fun sel =>
                            indexOfBookmark_from (bookmarksOf m file) (pos_line sel) 0
                            >=? 0) sels
                      | None => false
                      end then off else on)
        else None) uri sels [] m).
Proof. done. Qed.

Lemma toggleGlobal_invariant toggleMode activeTextEditor m :
storeInvariant m → storeInvariant (fst (toggleGlobal toggleMode activeTextEditor m)).
Proof.
intros Hinv. unfold toggleGlobal.
destruct activeTextEditor as [editor|]; [|done].
destruct (searchEditor editor); [done|].
cbn [fst]. unfold notifyAndSave, storeInvariant.
rewrite files_fire, files_save. by apply toggleSelections_invariant.
Qed.

Lemma stickyGlobal_invariant keep uri contentChanges document m :
storeInvariant m → storeInvariant (stickyGlobal keep uri contentChanges document m).
Proof.
intros Hinv. unfold stickyGlobal.
destruct (fromUri (Some uri) m) as [file|]; [|done].
destruct (_files m !! file) as [globalFile|] eqn:Hfile; [|done].
destruct (0 <? _); [|done].
assert (strictlySorted (bookmarks globalFile)) as Hs.
{ unfold storeInvariant in Hinv. rewrite Forall_forall in Hinv.
  apply Hinv. by eapply list_elem_of_lookup_2. }
pose proof (updateStickyGlobalBookmarks_sorted keep contentChanges globalFile document Hs)
  as Hsticky.
destruct (Sticky.updateStickyGlobalBookmarks _ _ _ _) as [globalFile' [updated | e]];
  simpl in Hsticky.
- destruct updated.
  + unfold notifyAndSave, storeInvariant. rewrite files_fire, files_save.
    by apply withBookmarks_invariant.
  + by apply withBookmarks_invariant.
- by apply withBookmarks_invariant.
Qed.

(** An array of [GlobalFile]s goes through the [map] and the count of
  [load]. *)
Lemma mapElements_files (files : list GlobalFile) :
mapElements (JSONFile <$> files)
= Returns (JSONFile <$> List.map (fun file => setPath (normalizePath (path file)) file) files).
Proof.
induction files as [|f files IH]; [done|].
rewrite fmap_cons. cbn [mapElements withNormalizedPath]. by rewrite IH.
Qed.

Lemma countLoaded_files (files : list GlobalFile) :
countLoaded (JSONFile <$> files) = Returns files.
Proof.
induction files as [|f files IH]; [done|].
rewrite fmap_cons. cbn [countLoaded]. by rewrite IH.
Qed.

(** No other array does. *)
Lemma countLoaded_Returns (mapped : list JSONElement) (files : list GlobalFile) :
countLoaded mapped = Returns files → mapped = JSONFile <$> files.
Proof.
revert files. induction mapped as [|[f|p e|e] mapped IH]; intros files; simpl.
- by intros [= <-].
- destruct (countLoaded mapped) as [files'|]; [|done]. intros [= <-].
  by rewrite (IH files').
- done.
- done.
Qed.

Lemma mapElements_Returns (parsed : list JSONElement) (files : list GlobalFile) :
mapElements parsed = Returns (JSONFile <$> files) →
∃ stored, parsed = JSONFile <$> stored
  ∧ files = List.map (fun file => setPath (normalizePath (path file)) file) stored.
Proof.
revert files. induction parsed as [|[f|p e|e] parsed IH]; intros files; simpl.
- destruct files; [|done]. intros _. by exists [].
- destruct (mapElements parsed) as [mapped|]; [|done].
  destruct files as [|g files]; [done|]. intros [= <- ->].
  destruct (IH files eq_refl) as (stored & -> & ->). by exists (f :: stored).
- destruct (mapElements parsed) as [mapped|]; [|done].
  destruct files as [|g files]; done.
- done.
Qed.

(** What [load] does with an array: it takes the files of the stored
  text, or it catches a throw. *)
Lemma load_array m saved parsed :
globalState m = Some saved → saved ≠ [] →
JSON_parse saved = Returns (JSONArray parsed) →
(∃ stored, parsed = JSONFile <$> stored
   ∧ load m
     = setFiles (List.map (fun file => setPath (normalizePath (path file)) file) stored) m)
∨ (∃ e, (∀ stored, parsed ≠ JSONFile <$> stored)
     ∧ load m
       = setFiles []
           (fire (showErrorMessage (lit "Error loading global bookmarks: {0}") [e]) m)).
Proof.
intros Hsaved Hne Hparse. unfold load. rewrite Hsaved. cbn [from_option id].
unfold eqb. rewrite bool_decide_false by done. cbn [negb]. rewrite Hparse.
destruct (mapElements parsed) as [mapped|e] eqn:Hmap.
- destruct (countLoaded mapped) as [files|e] eqn:Hcount.
  + left. apply countLoaded_Returns in Hcount as ->.
    apply mapElements_Returns in Hmap as (stored & -> & ->). by exists stored.
  + right. exists e. split; [|done]. intros stored ->.
    rewrite mapElements_files in Hmap. injection Hmap as <-.
    by rewrite countLoaded_files in Hcount.
- right. exists e. split; [|done]. intros stored ->.
  by rewrite mapElements_files in Hmap.
Qed.

(** [load] keeps each array of the stored text as it is. *)
Lemma load_invariant m :
storeInvariant m →
(∀ saved parsed, globalState m = Some saved →
   JSON_parse saved = Returns (JSONArray (JSONFile <$> parsed)) →
   Forall (fun f => strictlySorted (bookmarks f)) parsed) →
storeInvariant (load m).
Proof.
intros Hinv Hblob.
destruct (globalState m) as [saved|] eqn:Hsaved;
  [|unfold load; by rewrite Hsaved].
destruct (decide (saved = [])) as [-> | Hne];
  [unfold load; by rewrite Hsaved|].
destruct (JSON_parse saved) as [[parsed|] | e] eqn:Hparse.
- destruct (load_array m saved parsed Hsaved Hne Hparse)
    as [(stored & -> & ->) | (e & _ & ->)]; [|constructor].
  unfold storeInvariant. simpl.
  specialize (Hblob saved stored eq_refl Hparse). clear Hparse.
  induction Hblob as [|f files Hf _ IH]; simpl; constructor; done.
- unfold load. rewrite Hsaved. cbn [from_option id].
  unfold eqb. rewrite bool_decide_false by done. cbn [negb]. by rewrite Hparse.
- unfold load. rewrite Hsaved. cbn [from_option id].
  unfold eqb. rewrite bool_decide_false by done. cbn [negb]. rewrite Hparse. constructor.
Qed.

(** A malformed text under the key of the global scope: [load] shows the
  error and leaves the manager without files. *)
Lemma load_malformed m saved e :
globalState m = Some saved → saved ≠ [] → JSON_parse saved = Throws e →
load m
= mkManager [] (Some saved)
    (fired m ++ [showErrorMessage (lit "Error loading global bookmarks: {0}") [e]]).
Proof.
intros Hsaved Hne Hparse. unfold load. rewrite Hsaved. simpl.
unfold eqb. rewrite bool_decide_false by done. simpl. rewrite Hparse.
unfold setFiles, fire. simpl. by rewrite Hsaved.
Qed.

End InvariantFacts.

(** ** Toggling *)

Lemma markerOn_index (bks : list Bookmark) (l : Z) :
  markerOn l bks →
  ∃ (k : nat) (b : Bookmark),
    indexOfBookmark_from bks l 0 = Z.of_nat k ∧ bks !! k = Some b ∧ line b = l.
Proof.
  intros Hm. pose proof (indexOf_found bks l Hm) as Hidx.
  destruct (indexOf_from_cases bks l 0) as [[Hr _] | (k & b & Hr & Hk & Hb & _)].
  - rewrite Hr in Hidx. done.
  - exists k, b. split; [lia | done].
Qed.

Lemma allPresent_markers (bks : list Bookmark) (selections : list Position) :
  forallb (fun sel => indexOfBookmark_from bks (pos_line sel) 0 >=? 0) selections = true
  ↔ Forall (fun sel => markerOn (pos_line sel) bks) selections.
Proof.
  induction selections as [|sel rest IH]; simpl; [split; [constructor | done]|].
  rewrite andb_true_iff, Forall_cons, IH.
  assert ((indexOfBookmark_from bks (pos_line sel) 0 >=? 0) = true
          ↔ markerOn (pos_line sel) bks) as ->; [|done].
  split; [|apply indexOf_geb_found].
  intros Hidx. destruct (decide (markerOn (pos_line sel) bks)) as [|Hno]; [done|].
  apply not_markerOn in Hno. rewrite indexOf_geb_not_found in Hidx; done.
Qed.

Section ToggleClaims.

Context {host : Host}.

(** What a relabel fires. *)
Lemma toggle_relabel_fired uri l c newLabel m (k : nat) :
newLabel ≠ [] →
indexOfBookmark_from (getBookmarksForFile uri m) l 0 = Z.of_nat k →
fired (fst (toggle uri l c (Some newLabel) m))
= fired m
  ++ [onDidUpdateBookmark (snd (getOrCreateFile uri m)) (Z.of_nat k) (l + 1)
        (Some (c + 1)) None (Some newLabel);
      onDidChange].
Proof.
intros Hne Hidx. unfold toggle.
pose proof (getOrCreateFile_spec uri m) as Hget.
destruct (getOrCreateFile uri m) as [m' file].
destruct Hget as (_ & Hbks & _ & Hfired & _).
rewrite Hbks, Hidx. replace (Z.of_nat k >=? 0) with true by lia.
assert (truthy (Some newLabel) = true) as -> by (by destruct newLabel).
simpl. rewrite Hfired. by rewrite <- app_assoc.
Qed.

End ToggleClaims.

(** ** The other files of the manager *)

Lemma findFile_snoc (p : jsstring) (files : list GlobalFile) (f : GlobalFile) :
  findFile p (files ++ [f])
  = match findFile p files with
    | Some i => Some i
    | None => if decide (path f = p) then Some (length files) else None
    end.
Proof.
  induction files as [|g files IH]; simpl.
  - rewrite findFile_cons. by destruct (decide _).
  - rewrite !findFile_cons, IH. destruct (decide (path g = p)); [done|].
    destruct (findFile p files); [done|]. by destruct (decide _).
Qed.

Lemma bookmarksAt_withBookmarks p file bks m :
  bookmarksAt p (withBookmarks file bks m)
  = if decide (findFile p (_files m) = Some file) then bks else bookmarksAt p m.
Proof.
  unfold bookmarksAt.
  rewrite (findFile_paths _ (_files (withBookmarks file bks m)) (_files m))
    by apply paths_alter_bookmarks.
  destruct (findFile p (_files m)) as [i|] eqn:Hfind; [|by rewrite decide_False].
  unfold bookmarksOf, withBookmarks. simpl.
  destruct (decide (Some i = Some file)) as [[= ->] | Hne].
  - apply findFile_Some in Hfind as (f & Hf & _).
    by rewrite list_lookup_alter_eq, Hf.
  - rewrite list_lookup_alter_ne; [done|]. by intros ->.
Qed.

Lemma bookmarksAt_files p m m' : _files m = _files m' → bookmarksAt p m = bookmarksAt p m'.
Proof. intros Hf. unfold bookmarksAt, bookmarksOf. by rewrite Hf. Qed.

Lemma findFile_other p q files i j :
  findFile p files = Some i → findFile q files = Some j → p ≠ q → i ≠ j.
Proof.
  intros (f & Hf & Hp)%findFile_Some (g & Hg & Hq)%findFile_Some Hne ->.
  simplify_eq.
Qed.

Section OtherFiles.

Context {host : Host}.

Lemma getBookmarksForFile_at uri m :
getBookmarksForFile uri m = bookmarksAt (normalizePath (fsPath uri)) m.
Proof. done. Qed.

Lemma bookmarksAt_getOrCreateFile p uri m :
bookmarksAt p (fst (getOrCreateFile uri m)) = bookmarksAt p m.
Proof.
unfold getOrCreateFile.
destruct (findFile _ (_files m)) as [file|] eqn:Hfind; [done|].
unfold bookmarksAt, bookmarksOf. simpl. rewrite findFile_snoc.
destruct (findFile p (_files m)) as [i|] eqn:Hp.
- apply findFile_Some in Hp as (f & Hf & _).
  by rewrite lookup_app_l by (by eapply lookup_lt_Some).
- destruct (decide _); [|done]. by rewrite list_lookup_middle.
Qed.

Lemma bookmarksAt_other p uri file bks m :
findFile (normalizePath (fsPath uri)) (_files m) = Some file →
p ≠ normalizePath (fsPath uri) →
bookmarksAt p (withBookmarks file bks m) = bookmarksAt p m.
Proof.
intros Hfile Hne. rewrite bookmarksAt_withBookmarks.
destruct (decide _) as [Hp | _]; [|done].
by destruct (findFile_other _ _ _ _ _ Hp Hfile Hne).
Qed.

Lemma addBookmark_other p uri l c lbl m :
p ≠ normalizePath (fsPath uri) →
bookmarksAt p (addBookmark uri l c lbl m) = bookmarksAt p m.
Proof.
intros Hne. unfold addBookmark.
pose proof (getOrCreateFile_spec uri m) as Hget.
pose proof (bookmarksAt_getOrCreateFile p uri m) as Hsame.
destruct (getOrCreateFile uri m) as [m' file]. destruct Hget as (Hfind & _).
rewrite (bookmarksAt_files _ _ (withBookmarks file
  (sortBy line (bookmarksOf m' file ++ [mkBookmark l c (Some (orEmpty lbl))])) m'))
  by done.
by rewrite (bookmarksAt_other p uri).
Qed.

(** [toggle] leaves the bookmarks of every other file as they are. *)
Lemma toggle_other p uri l c lbl m :
p ≠ normalizePath (fsPath uri) →
bookmarksAt p (fst (toggle uri l c lbl m)) = bookmarksAt p m.
Proof.
intros Hne. unfold toggle.
pose proof (getOrCreateFile_spec uri m) as Hget.
pose proof (bookmarksAt_getOrCreateFile p uri m) as Hsame.
destruct (getOrCreateFile uri m) as [m' file]. destruct Hget as (Hfind & _).
simpl in Hsame. rewrite <- Hsame.
destruct (_ >=? 0); simpl.
- destruct (truthy lbl).
  + rewrite (bookmarksAt_files _ _ (withBookmarks file
      (alter (setLabel (orEmpty lbl))
         (Z.to_nat (indexOfBookmark_from (bookmarksOf m' file) l 0))
         (bookmarksOf m' file)) m')) by done.
    by apply (bookmarksAt_other p uri).
  + rewrite (bookmarksAt_files _ _ (withBookmarks file
      (splice1 (bookmarksOf m' file) (indexOfBookmark_from (bookmarksOf m' file) l 0))
      m')) by done.
    by apply (bookmarksAt_other p uri).
- rewrite (bookmarksAt_files _ _ (addBookmark uri l c lbl m')) by done.
  by apply addBookmark_other.
Qed.

End OtherFiles.

(** * Main results *)

(** ** Navigation *)

(** C4: for every non-empty list of bookmarks and every cursor position,
    [nextBookmark] in direction [Forward] returns the position of the first
    bookmark of the list on a line strictly after the cursor's: the
    bookmarks before it are on the cursor's line or above, so a bookmark on
    the cursor's line is not chosen, and in a list sorted by line (two
    bookmarks may share a line, as in the merged list of
    [getActiveFileBookmarks]) no bookmark after the cursor is on a lesser
    line. When no bookmark is after the cursor and [navigateThroughAllFiles]
    is off, it returns the first bookmark of the list with [wrapNavigation]
    on and [NO_BOOKMARKS_AFTER] with it off. With bookmarks on lines 3, 7
    and 12 and the cursor on line 12, that is line 3 and
    [NO_BOOKMARKS_AFTER]. *)
Theorem nextBookmark_forward
    (NO_BOOKMARKS NO_MORE_BOOKMARKS NO_BOOKMARKS_BEFORE NO_BOOKMARKS_AFTER : Z)
    (navigateThroughAllFiles wrapNavigation : bool)
    (bookmarks : list Bookmark) (currentPosition : Position) :
  bookmarks ≠ [] →
  let next :=
    nextBookmark NO_BOOKMARKS NO_MORE_BOOKMARKS NO_BOOKMARKS_BEFORE NO_BOOKMARKS_AFTER
      navigateThroughAllFiles wrapNavigation bookmarks currentPosition Forward in
  (∀ pre b post, bookmarks = pre ++ b :: post →
     Forall (fun a => line a <= pos_line currentPosition) pre →
     pos_line currentPosition < line b →
     next = inr (positionOf b)
     ∧ (sortedByLine bookmarks →
        ∀ b', b' ∈ bookmarks → pos_line currentPosition < line b' → line b <= line b'))
  ∧ ((∃ b, b ∈ bookmarks ∧ pos_line currentPosition < line b) →
     ∃ pre b post, bookmarks = pre ++ b :: post
       ∧ Forall (fun a => line a <= pos_line currentPosition) pre
       ∧ pos_line currentPosition < line b)
  ∧ ((∀ b, b ∈ bookmarks → line b <= pos_line currentPosition) →
     navigateThroughAllFiles = false →
     ∀ first, head bookmarks = Some first →
     next = if wrapNavigation then inr (positionOf first) else inl NO_BOOKMARKS_AFTER)
  ∧ nextBookmark NO_BOOKMARKS NO_MORE_BOOKMARKS NO_BOOKMARKS_BEFORE NO_BOOKMARKS_AFTER
      false true [plain 3; plain 7; plain 12] (mkPosition 12 0) Forward
    = inr (mkPosition 3 0)
  ∧ nextBookmark NO_BOOKMARKS NO_MORE_BOOKMARKS NO_BOOKMARKS_BEFORE NO_BOOKMARKS_AFTER
      false false [plain 3; plain 7; plain 12] (mkPosition 12 0) Forward
    = inl NO_BOOKMARKS_AFTER.
Proof.
  intros Hne next. split; [|split; [|split; [|split; reflexivity]]].
  - intros pre b post Heq Hpre Hcur. split.
    + subst next. unfold nextBookmark. destruct bookmarks as [|first rest]; [done|].
      rewrite Heq. by rewrite scanForward_first.
    + rewrite Heq. intros Hs b' Hb' Hlt. by eapply first_after_least.
  - intros (b & Hb & Hlt). by eapply first_after_split.
  - intros Hall -> first Hfirst. subst next. unfold nextBookmark.
    destruct bookmarks as [|first' rest]; [done|]. simpl in Hfirst. simplify_eq.
    rewrite scanForward_none by (by apply Forall_forall).
    by destruct wrapNavigation.
Qed.

Lemma nextBookmark_forward_witness :
  nextBookmark (-1) (-2) (-3) (-4) false true
    [plain 3; mkBookmark 7 1 None; plain 7; plain 12] (mkPosition 5 2) Forward
  = inr (mkPosition 7 1).
Proof.
  refine (proj1 (proj1 (nextBookmark_forward (-1) (-2) (-3) (-4) false true
                   [plain 3; mkBookmark 7 1 None; plain 7; plain 12] (mkPosition 5 2) _)
                   [plain 3] (mkBookmark 7 1 None) [plain 7; plain 12] _ _ _)).
  - discriminate.
  - reflexivity.
  - repeat constructor. discriminate.
  - reflexivity.
Defined.

(** ** The sticky engine *)

(** C2, as the code has it: an edit that deletes nothing and inserts text
    with [k] newlines at column [startChar] of line [startLine] moves by
    [k] every bookmark on a line strictly after [startLine], and the
    bookmark on [startLine] exactly when the insertion is at column 0 or the
    text of line [startLine], in the document after the edit, holds white
    space only. With bookmarks on lines 2, 5 and 9, three newlines at column
    0 of line 5 give lines 2, 8 and 12, and at column 4 of line 5, that line
    holding code, lines 2, 5 and 12. *)
Theorem pure_insertion_shift (keepBookmarksOnLineDelete : bool)
    (document : TextDocument) (globalFile : GlobalFile)
    (startLine startChar : Z) (inserted : jsstring) :
  includesNewline inserted = true →
  0 <= startChar →
  (startChar = 0 ∨ is_Some (lineAt document startLine)) →
  let point := mkPosition startLine startChar in
  (∃ updated,
     updateStickyGlobalBookmarks keepBookmarksOnLineDelete
       [mkChange point point inserted] globalFile document
     = (setBookmarks
          (afterInsertion document startLine startChar (countNewlines inserted)
             (bookmarks globalFile)) globalFile,
        Returns updated))
  ∧ line <$> bookmarks (fst (updateStickyGlobalBookmarks keepBookmarksOnLineDelete
       [mkChange (mkPosition 5 0) (mkPosition 5 0) threeNewlines] store259 document))
    = [2; 8; 12]
  ∧ line <$> bookmarks (fst (updateStickyGlobalBookmarks keepBookmarksOnLineDelete
       [mkChange (mkPosition 5 4) (mkPosition 5 4) threeNewlines] store259 tenLines))
    = [2; 5; 12].
Proof.
  intros Hadd Hnn Hline point. split; [|split; reflexivity].
  destruct (startCharacter_spec document startLine startChar Hnn Hline)
    as (eventChar & Hc & Hec & Hzero).
  unfold updateStickyGlobalBookmarks, applyChanges, applyChange.
  subst point. cbn [text range_start range_end pos_line character].
  rewrite Hadd, Z.ltb_irrefl, Hc. cbn [negb andb].
  rewrite shiftAdded_spec. eexists. f_equal. f_equal.
  unfold afterInsertion. apply fmap_agree, Forall_forall. intros b _.
  unfold shiftBy.
  pose proof (isShifted_insertion document startLine startChar eventChar b Hec Hzero) as Hiff.
  destruct (isShifted (line b) startLine eventChar), (decide _); try done; naive_solver.
Qed.

Lemma pure_insertion_shift_witness :
  ∃ updated,
    updateStickyGlobalBookmarks false
      [mkChange (mkPosition 5 4) (mkPosition 5 4) threeNewlines] store259 tenLines
    = (setBookmarks (afterInsertion tenLines 5 4 3 (bookmarks store259)) store259,
       Returns updated).
Proof.
  refine (proj1 (pure_insertion_shift false tenLines store259 5 4 threeNewlines _ _ _)).
  - reflexivity.
  - lia.
  - right. vm_compute. eauto.
Defined.

(** C2 as stated fails: three newlines inserted at column 4 of line 5,
    behind white space only, move the bookmark of line 5 as well. *)
Lemma insertion_after_blank_prefix_shifts :
  line <$> bookmarks (fst (updateStickyGlobalBookmarks false
    [mkChange (mkPosition 5 4) (mkPosition 5 4) threeNewlines] store259 tenLinesBlank5))
  ≠ [2; 5; 12].
Proof. vm_compute. discriminate. Qed.

(** C3: for a strictly sorted store and an edit that deletes the lines
    [startLine] up to, not including, [endLine] and inserts no newline:
    with [keepBookmarksOnLineDelete] off every bookmark on a deleted line
    is destroyed; with it on the bookmark is collapsed onto [endLine],
    unless a bookmark already sits there, in which case it is destroyed;
    then every bookmark left past [startLine] moves up by
    [endLine - startLine]. With bookmarks on lines 2, 5 and 9 and the lines
    4 to 6 deleted, that is lines 2 and 6 with the policy off and 2, 4 and 6
    with it on. *)
Theorem line_span_deletion (keepBookmarksOnLineDelete : bool)
    (document : TextDocument) (globalFile : GlobalFile)
    (startLine startChar endLine endChar : Z) (replacement : jsstring) :
  strictlySorted (bookmarks globalFile) →
  startLine < endLine →
  includesNewline replacement = false →
  0 <= startChar →
  (startChar = 0 ∨ is_Some (lineAt document startLine)) →
  (∃ updated,
     updateStickyGlobalBookmarks keepBookmarksOnLineDelete
       [mkChange (mkPosition startLine startChar) (mkPosition endLine endChar) replacement]
       globalFile document
     = (setBookmarks
          (shiftUp startLine endLine
             (afterRemoval keepBookmarksOnLineDelete startLine endLine
                (bookmarks globalFile))) globalFile,
        Returns updated))
  ∧ line <$> bookmarks (fst (updateStickyGlobalBookmarks false
       [mkChange (mkPosition 4 0) (mkPosition 7 0) []] store259 document))
    = [2; 6]
  ∧ line <$> bookmarks (fst (updateStickyGlobalBookmarks true
       [mkChange (mkPosition 4 0) (mkPosition 7 0) []] store259 document))
    = [2; 4; 6].
Proof.
  intros Hs Hlt Hadd Hnn Hline. split; [|split; reflexivity].
  destruct (startCharacter_spec document startLine startChar Hnn Hline)
    as (eventChar & Hc & Hec & _).
  unfold updateStickyGlobalBookmarks, applyChanges, applyChange.
  cbn [text range_start range_end pos_line character].
  rewrite Hadd. replace (startLine <? endLine) with true by lia. cbn [negb andb].
  destruct (removeDeleted _ _ _ _ _ _) as [bks2 updated2] eqn:Hrem.
  assert (bks2 = afterRemoval keepBookmarksOnLineDelete startLine endLine
                   (bookmarks globalFile)) as ->.
  { rewrite <- (removeDeleted_spec _ _ _ _ false) by (done || lia). by rewrite Hrem. }
  rewrite (shiftDeleted_returns _ _ _ _ eventChar) by done.
  eexists. f_equal. f_equal.
  unfold shiftUp. apply fmap_agree.
  eapply Forall_impl; [apply afterRemoval_outside|]. intros b Hout. simpl in Hout.
  unfold shiftBy.
  pose proof (isShifted_after_removal startLine endLine eventChar b Hec Hout Hlt) as Hiff.
  replace (line b + - (endLine - startLine)) with (line b - (endLine - startLine)) by lia.
  destruct (isShifted (line b) startLine eventChar), (decide _); try done; naive_solver.
Qed.

Lemma line_span_deletion_witness :
  ∃ updated,
    updateStickyGlobalBookmarks true
      [mkChange (mkPosition 4 3) (mkPosition 7 1) (lit "x")] store259 tenLines
    = (setBookmarks (shiftUp 4 7 (afterRemoval true 4 7 (bookmarks store259))) store259,
       Returns updated).
Proof.
  refine (proj1 (line_span_deletion true tenLines store259 4 3 7 1 (lit "x") _ _ _ _ _)).
  - unfold strictlySorted. repeat constructor.
  - lia.
  - reflexivity.
  - lia.
  - right. vm_compute. eauto.
Defined.

(** ** The invariant of the stores *)

(** C1, as the code has it: when every file of the manager holds a
    strictly sorted array of bookmarks, so it does after [toggle] (add,
    remove or relabel), after the command [bookmarks.toggleGlobal] (with
    or without an active editor), and after the sticky adjustment of [updateStickyGlobalBookmarks], whether it
    returns or throws (for the file it is given, and for the manager whose
    file it is); [load] takes the arrays as the stored text has them,
    so after [load] the arrays are strictly sorted when those of the stored
    text are. In a strictly sorted array no two bookmarks share a line. *)
Theorem store_invariant_preserved `{host : Host} (m : Manager) :
  storeInvariant m →
  (∀ uri l c lbl, storeInvariant (fst (toggle uri l c lbl m)))
  ∧ (∀ toggleMode activeTextEditor,
       storeInvariant (fst (toggleGlobal toggleMode activeTextEditor m)))
  ∧ (∀ keep uri contentChanges document,
       storeInvariant (stickyGlobal keep uri contentChanges document m))
  ∧ (∀ keep contentChanges globalFile document,
       strictlySorted (bookmarks globalFile) →
       strictlySorted
         (bookmarks
            (fst (updateStickyGlobalBookmarks keep contentChanges globalFile document))))
  ∧ ((∀ saved parsed, globalState m = Some saved →
        JSON_parse saved = Returns (JSONArray (JSONFile <$> parsed)) →
        Forall (fun f => strictlySorted (bookmarks f)) parsed) →
     storeInvariant (load m))
  ∧ Forall (fun f => NoDup (line <$> bookmarks f)) (_files m).
Proof.
  intros Hinv. repeat split.
  - intros. by apply toggle_invariant.
  - intros. by apply toggleGlobal_invariant.
  - intros. by apply stickyGlobal_invariant.
  - intros. by apply updateStickyGlobalBookmarks_sorted.
  - intros. by apply load_invariant.
  - eapply Forall_impl; [exact Hinv|]. intros f. apply strictlySorted_NoDup.
Qed.

Lemma store_invariant_preserved_witness :
  storeInvariant
    (stickyGlobal (host := posix) true appTs
       [mkChange (mkPosition 4 0) (mkPosition 7 0) []] tenLines
       (managerOf [plain 2; plain 5; plain 9])).
Proof.
  refine (proj1 (proj2 (proj2 (store_invariant_preserved (host := posix)
    (managerOf [plain 2; plain 5; plain 9]) _))) _ _ _ _).
  unfold storeInvariant, strictlySorted. simpl. repeat constructor.
Defined.

(** C1 as stated fails for [load]: a stored text whose array has the
    bookmarks of lines 5 and 2 in that order is loaded in that order. *)
Lemma load_keeps_stored_order :
  storeInvariant (mkManager [] (Some unsortedBlob) [])
  ∧ ¬ storeInvariant (load (host := posix) (mkManager [] (Some unsortedBlob) [])).
Proof.
  split; [constructor|].
  intros Hinv. vm_compute in Hinv.
  apply Forall_cons in Hinv as [Hs _].
  apply StronglySorted_cons in Hs as [Hlt _].
  apply Forall_cons in Hlt as [Hlt _]. discriminate Hlt.
Qed.

(** ** Toggling *)

Section ToggleClaims.

Context {host : Host}.

(** C5, as the code has it: when a bookmark is on line [l] of the file and
    [toggle] is called there with a label that is not empty, the bookmark
    stays where it is in the array and on its line, and its label becomes
    the new one; the other bookmarks of the file and the bookmarks of the
    other files are as before. The call fires the update event with the new
    label and the column of the call, and no removal event; what it returns
    is [false], as for a removal. When no two bookmarks of the file shared a
    line before, the bookmark is still the only one on line [l]. *)
Theorem toggle_relabel (m : Manager) (uri : Uri) (l c : Z) (newLabel : jsstring) :
  newLabel ≠ [] →
  markerOn l (getBookmarksForFile uri m) →
  let before := getBookmarksForFile uri m in
  let result := toggle uri l c (Some newLabel) m in
  let after := getBookmarksForFile uri (fst result) in
  snd result = false
  ∧ (∃ (k : nat) (b b' : Bookmark) (file : nat),
       before !! k = Some b ∧ line b = l
       ∧ after !! k = Some b' ∧ line b' = l ∧ label b' = Some newLabel
       ∧ (∀ j, j ≠ k → after !! j = before !! j)
       ∧ fired (fst result)
         = fired m
           ++ [onDidUpdateBookmark file (Z.of_nat k) (l + 1) (Some (c + 1)) None
                 (Some newLabel);
               onDidChange])
  ∧ line <$> after = line <$> before
  ∧ (∀ p, p ≠ normalizePath (fsPath uri) →
       bookmarksAt p (fst result) = bookmarksAt p m)
  ∧ (NoDup (line <$> before) →
     ∀ i j bi bj, after !! i = Some bi → after !! j = Some bj →
       line bi = l → line bj = l → i = j).
Proof.
  intros Hne Hm before result after.
  destruct (markerOn_index before l Hm) as (k & b & Hidx & Hk & Hb).
  destruct (toggle_spec uri l c (Some newLabel) m) as [Hret Hafter].
  fold before in Hret, Hafter. rewrite Hidx in Hret, Hafter.
  replace (Z.of_nat k >=? 0) with true in Hret, Hafter by lia.
  assert (truthy (Some newLabel) = true) as Htruthy by (by destruct newLabel).
  rewrite Htruthy, Nat2Z.id in Hafter. simpl in Hafter.
  fold result in Hret, Hafter. fold after in Hafter.
  assert (line <$> after = line <$> before) as Hlines.
  { rewrite Hafter. clear. generalize k. induction before as [|x rest IH]; intros [|k'];
      [done..|].
    change (alter (setLabel newLabel) (S k') (x :: rest))
      with (x :: alter (setLabel newLabel) k' rest).
    rewrite !fmap_cons. f_equal. apply IH. }
  split; [done|]. split; [|split; [done|split]].
  - exists k, b, (setLabel newLabel b), (snd (getOrCreateFile uri m)).
    repeat split; try done.
    + by rewrite Hafter, list_lookup_alter_eq, Hk.
    + intros j Hj. rewrite Hafter. by apply list_lookup_alter_ne.
    + by apply toggle_relabel_fired.
  - intros p Hp. by apply toggle_other.
  - intros Hnd i j bi bj Hi Hj Hli Hlj. rewrite <- Hlines in Hnd.
    apply (NoDup_lookup _ i j l Hnd); rewrite list_lookup_fmap.
    + rewrite Hi. simpl. by rewrite Hli.
    + rewrite Hj. simpl. by rewrite Hlj.
Qed.

(** C7: when the bookmarks of a file are sorted by line and none is on
    line [l], two calls of [toggle] on line [l] without a label, or with an
    empty one, return [true] (added) and then [false] (removed), and
    afterwards the file has no bookmark on line [l]: its bookmarks, and
    those found under every path of the manager, are what they were before
    the two calls. *)
Theorem toggle_twice (m : Manager) (uri : Uri) (l c1 c2 : Z)
    (lbl1 lbl2 : option jsstring) :
  truthy lbl1 = false → truthy lbl2 = false →
  sortedByLine (getBookmarksForFile uri m) →
  noMarkerOn l (getBookmarksForFile uri m) →
  let first := toggle uri l c1 lbl1 m in
  let second := toggle uri l c2 lbl2 (fst first) in
  snd first = true ∧ snd second = false
  ∧ getBookmarksForFile uri (fst second) = getBookmarksForFile uri m
  ∧ noMarkerOn l (getBookmarksForFile uri (fst second))
  ∧ ∀ p, bookmarksAt p (fst second) = bookmarksAt p m.
Proof.
  intros Hl1 Hl2 Hs Hno first second.
  destruct (toggle_spec uri l c1 lbl1 m) as [Hret1 Hafter1].
  rewrite (indexOf_absent _ _ 0 Hno) in Hret1, Hafter1. simpl in Hret1, Hafter1.
  fold first in Hret1, Hafter1.
  rewrite sortBy_snoc, sortBy_sorted in Hafter1 by done.
  destruct (toggle_spec uri l c2 lbl2 (fst first)) as [Hret2 Hafter2].
  fold second in Hret2, Hafter2. rewrite Hafter1 in Hret2, Hafter2.
  destruct (remove_inserted (mkBookmark l c1 (Some (orEmpty lbl1)))
              (getBookmarksForFile uri m) Hno) as [Hidx Hrem].
  simpl in Hidx, Hrem.
  replace (_ >=? 0) with true in Hret2, Hafter2 by lia.
  rewrite Hl2, Hrem in Hafter2.
  split; [exact Hret1|]. split; [exact Hret2|]. split; [exact Hafter2|].
  split; [by rewrite Hafter2|].
  intros p. destruct (decide (p = normalizePath (fsPath uri))) as [-> | Hp].
  - by rewrite <- !getBookmarksForFile_at.
  - subst second first. by rewrite !toggle_other by done.
Qed.

(** C6: with the toggle mode "allLinesAtOnce" and more than one
    selection (in an active editor that is not a Search Editor, where the
    command toggles), the command decides from the bookmarks the file has
    before the batch. When every selected line has a bookmark then, the batch
    removes the bookmarks of the selected lines and no other (no two
    bookmarks sharing a line). Otherwise the bookmarks afterwards are those
    of before, each as it was, and one new bookmark for every selected line
    that had none. With bookmarks on lines 1 and 2 and the lines 1, 2 and 3
    selected, a bookmark is added on line 3 and the two others are as they
    were. *)
Theorem toggleGlobal_all_lines_at_once (m : Manager) (uri : Uri)
    (selections : list Position) :
  (1 < length selections)%nat →
  let before := getBookmarksForFile uri m in
  let after :=
    getBookmarksForFile uri
      (fst (toggleGlobal (lit "allLinesAtOnce")
              (Some (mkTextEditor uri false selections)) m)) in
  (Forall (fun sel => markerOn (pos_line sel) before) selections →
   NoDup (line <$> before) →
   after = filter (fun b => line b ∉ (pos_line <$> selections)) before)
  ∧ (¬ Forall (fun sel => markerOn (pos_line sel) before) selections →
     after ≡ₚ before ++ additions selections [] before)
  ∧ getBookmarksForFile (host := posix) appTs
      (fst (toggleGlobal (host := posix) (lit "allLinesAtOnce")
              (Some (mkTextEditor appTs false
                       [mkPosition 1 0; mkPosition 2 0; mkPosition 3 0]))
              (managerOf [mkBookmark 1 4 (Some (lit "entry")); plain 2])))
    = [mkBookmark 1 4 (Some (lit "entry")); plain 2; plain 3].
Proof.
  intros Hlen before after. split; [|split; [|by vm_compute]].
  all: assert (after
          = getBookmarksForFile uri
              (toggleSelections
                 (Some (if forallb (fun sel =>
                          indexOfBookmark_from before (pos_line sel) 0 >=? 0) selections
                        then off else on))
                 uri selections [] m)) as Hafter.
  1, 3: subst after; rewrite toggleGlobal_active; unfold notifyAndSave;
    rewrite (getBookmarksForFile_files _ _
      (toggleSelections
         (if eqb (lit "allLinesAtOnce") (lit "allLinesAtOnce")
             && (1 <? Z.of_nat (length selections))
          then Some (if match fromUri (Some uri) m with
                        | Some file =>
                            forallb (fun sel =>
                              indexOfBookmark_from (bookmarksOf m file) (pos_line sel) 0
                              >=? 0) selections
                        | None => false
                        end then off else on)
          else None) uri selections [] m)) by done;
    replace (1 <? Z.of_nat (length selections)) with true by lia;
    replace (eqb (lit "allLinesAtOnce") (lit "allLinesAtOnce")) with true by done;
    cbn [andb]; do 3 f_equal; subst before;
    destruct (fromUri (Some uri) m) as [file|] eqn:Hfile;
    [ by rewrite (fromUri_bookmarks uri m file Hfile)
    | rewrite (fromUri_none uri m Hfile);
      destruct selections as [|sel rest]; [simpl in Hlen; lia | done] ].
  - intros Hall Hnd. apply allPresent_markers in Hall. rewrite Hall in Hafter.
    rewrite Hafter, toggleSelections_off. fold before.
    rewrite removePresent_filter by done.
    apply list_filter_iff. intros b. split; [|tauto].
    intros Hb Hin. apply Hb. split; [done | apply not_elem_of_nil].
  - intros Hnot.
    destruct (forallb _ selections) eqn:Hall in Hafter;
      [by apply allPresent_markers in Hall|].
    rewrite Hafter, toggleSelections_on. fold before.
    by rewrite (addMissing_perm selections [] before before []) by (by rewrite ?app_nil_r).
Qed.

End ToggleClaims.

Lemma toggle_relabel_witness :
  snd (toggle (host := posix) appTs 5 7 (Some (lit "todo")) (managerOf [plain 2; plain 5]))
  = false.
Proof.
  refine (proj1 (toggle_relabel (host := posix) (managerOf [plain 2; plain 5]) appTs 5 7
                   (lit "todo") _ _)).
  - discriminate.
  - vm_compute. apply Exists_cons_tl, Exists_cons_hd. reflexivity.
Defined.

(** C5 as stated fails: after a relabel at column 7 the bookmark has the
    column it had, and the call returns what a removal returns. *)
Lemma toggle_relabel_keeps_column :
  getBookmarksForFile (host := posix) appTs
    (fst (toggle (host := posix) appTs 5 7 (Some (lit "todo"))
            (managerOf [plain 2; plain 5])))
  ≠ [plain 2; mkBookmark 5 7 (Some (lit "todo"))]
  ∧ snd (toggle (host := posix) appTs 5 7 (Some (lit "todo"))
           (managerOf [plain 2; plain 5]))
    = snd (toggle (host := posix) appTs 5 7 None (managerOf [plain 2; plain 5])).
Proof. split; [vm_compute; discriminate | reflexivity]. Qed.

Lemma toggle_twice_witness :
  getBookmarksForFile (host := posix) appTs
    (fst (toggle (host := posix) appTs 5 3 None
       (fst (toggle (host := posix) appTs 5 0 None (managerOf [plain 2; plain 9])))))
  = [plain 2; plain 9].
Proof.
  refine (proj1 (proj2 (proj2 (toggle_twice (host := posix)
    (managerOf [plain 2; plain 9]) appTs 5 0 3 None None _ _ _ _)))).
  - reflexivity.
  - reflexivity.
  - vm_compute. repeat constructor; discriminate.
  - vm_compute. repeat constructor; discriminate.
Defined.

Lemma toggleGlobal_all_lines_at_once_witness :
  getBookmarksForFile (host := posix) appTs
    (fst (toggleGlobal (host := posix) (lit "allLinesAtOnce")
            (Some (mkTextEditor appTs false
                     [mkPosition 1 0; mkPosition 2 0; mkPosition 3 0]))
            (managerOf [mkBookmark 1 4 (Some (lit "entry")); plain 2])))
  ≡ₚ [mkBookmark 1 4 (Some (lit "entry")); plain 2] ++ [plain 3].
Proof.
  refine (proj1 (proj2 (toggleGlobal_all_lines_at_once (host := posix)
    (managerOf [mkBookmark 1 4 (Some (lit "entry")); plain 2]) appTs
    [mkPosition 1 0; mkPosition 2 0; mkPosition 3 0] _)) _).
  - simpl. lia.
  - intros Hall. apply Forall_cons in Hall as [_ Hall].
    apply Forall_cons in Hall as [_ Hall]. apply Forall_cons in Hall as [Hm _].
    vm_compute in Hm. apply Exists_cons in Hm as [Hm | Hm]; [discriminate|].
    apply Exists_cons in Hm as [Hm | Hm]; [discriminate|]. by apply Exists_nil in Hm.
Defined.

(** ** Listing *)

(** On a list sorted by line, on lines that are not negative, the
    bookmarks past the last line of the document are the last of the list:
    [listBookmarks] leaves the file with the bookmarks within the document,
    in their order, and the promise resolves to one item for each of
    them. *)
Lemma listBookmarks_sorted `{host : Host}
    (file : File) (workspaceFolder : option Uri) (doc : TextDocument) :
  let uri := uriDocBookmark file workspaceFolder in
  file_bookmarks file ≠ [] →
  uriExists uri = true →
  openTextDocument uri = Some doc →
  Forall (fun b => 0 <= line b) (file_bookmarks file) →
  sortedByLine (file_bookmarks file) →
  ∃ items invalids,
    classify doc (file_path file) uri (file_bookmarks file) [] [] = Some (items, invalids)
    ∧ invalids
      = (fun b => line b + 1)
          <$> filter (fun b => ¬ withinDocument (lineCount doc) b) (file_bookmarks file)
    ∧ length items
      = length (filter (withinDocument (lineCount doc)) (file_bookmarks file))
    ∧ listBookmarks file workspaceFolder
      = (mkFile (file_path file)
           (filter (withinDocument (lineCount doc)) (file_bookmarks file))
           (file_uri file),
         Resolved (Some items)).
Proof.
  intros uri Hne Hexists Hopen Hnn Hs.
  destruct (classify_spec doc (file_path file) uri (file_bookmarks file)
              [] [] Hnn) as (items & Hclassify & Hlen).
  rewrite !app_nil_l in Hclassify.
  eexists items, _. split; [exact Hclassify|]. split; [done|]. split; [done|].
  unfold listBookmarks. fold uri.
  destruct (file_bookmarks file) as [|b rest] eqn:Hbks; [done|].
  cbn [length Nat.eqb]. rewrite Hexists. cbn [negb]. rewrite Hopen, Hclassify.
  rewrite removeInvalids_take, length_fmap.
  by rewrite sorted_prune.
Qed.

(** C8, as the code has it: the bookmarks past the end of the document are
    found, but the lookup of each of them in the array always answers [-1],
    and [splice(-1, 1)] removes the last bookmark of the array, whichever
    it is. When a bookmark past the end of the document comes before one
    within it, listing the file therefore keeps a bookmark that is past the
    end and removes one that is within the document: the file is left with
    fewer bookmarks within the document than it had. *)
Theorem listBookmarks_prunes_the_last `{host : Host}
    (file : File) (workspaceFolder : option Uri) (doc : TextDocument)
    (pre post : list Bookmark) (invalid valid : Bookmark) :
  let uri := uriDocBookmark file workspaceFolder in
  uriExists uri = true →
  openTextDocument uri = Some doc →
  Forall (fun b => 0 <= line b) (file_bookmarks file) →
  file_bookmarks file = pre ++ invalid :: post →
  ¬ withinDocument (lineCount doc) invalid →
  valid ∈ post → withinDocument (lineCount doc) valid →
  let kept := file_bookmarks (fst (listBookmarks file workspaceFolder)) in
  (∃ items, snd (listBookmarks file workspaceFolder) = Resolved (Some items))
  ∧ kept
    = take (length (filter (withinDocument (lineCount doc)) (file_bookmarks file)))
        (file_bookmarks file)
  ∧ (∃ b, b ∈ kept ∧ ¬ withinDocument (lineCount doc) b)
  ∧ (length (filter (withinDocument (lineCount doc)) kept)
     < length (filter (withinDocument (lineCount doc)) (file_bookmarks file)))%nat.
Proof.
  intros uri Hexists Hopen Hnn Hbks Hinvalid Hin Hvalid kept.
  destruct (classify_spec doc (file_path file) uri (file_bookmarks file)
              [] [] Hnn) as (items & Hclassify & _).
  rewrite !app_nil_l in Hclassify.
  assert (Hlist : listBookmarks file workspaceFolder
                  = (mkFile (file_path file)
                       (take (length (filter (withinDocument (lineCount doc))
                                        (file_bookmarks file)))
                          (file_bookmarks file))
                       (file_uri file),
                     Resolved (Some items))).
  { unfold listBookmarks. fold uri. rewrite Hbks at 1. rewrite length_app.
    cbn [length]. rewrite Nat.add_succ_r. cbn [Nat.eqb].
    rewrite Hexists. cbn [negb]. rewrite Hopen, Hclassify.
    rewrite removeInvalids_take, length_fmap. do 3 f_equal.
    pose proof (Permutation_length
                  (filter_app_complement (withinDocument (lineCount doc))
                     (file_bookmarks file))) as Hlen.
    rewrite length_app in Hlen. lia. }
  subst kept. rewrite Hlist. cbn [fst snd file_bookmarks].
  split; [by exists items|]. split; [done|].
  destruct (take_within_keeps (lineCount doc) pre post invalid valid
              Hinvalid Hin Hvalid) as (b & Hb & Hout).
  rewrite <- Hbks in Hb. split; [by exists b|].
  eapply Nat.lt_le_trans; [by eapply length_filter_lt|].
  rewrite length_take. lia.
Qed.

Lemma listBookmarks_prunes_the_last_witness :
  line <$> file_bookmarks (fst (listBookmarks (host := posixSixLines) unsortedFile None))
  = [9].
Proof.
  destruct (listBookmarks_prunes_the_last (host := posixSixLines) unsortedFile None
              sixLines [] [plain 2] (plain 9) (plain 2)) as (_ & -> & _).
  - reflexivity.
  - reflexivity.
  - repeat constructor; discriminate.
  - reflexivity.
  - vm_compute. intros H. by apply H.
  - left.
  - vm_compute. discriminate.
  - reflexivity.
Defined.

(** ** Malformed stored text *)

(** C9, for the project scope kept in the workspace state: when the text
    stored under ["bookmarks"] does not parse, [loadBookmarks] ends in a
    throw, so its promise is rejected and no controller, empty or not,
    comes back. Called without a workspace folder it shows no message and
    the throw is the one of [JSON.parse]. Called with a folder it first
    shows the error message of [fileSystemData], which parses the same text
    for the log (and one more message when the text of the global scope
    does not parse either), and then throws all the same. *)
Theorem loadBookmarks_malformed_workspace_state
    (JSON : Type) (parse : jsstring → completion JSON)
    (Controller : Type) (newController : Controller)
    (loadFrom : Controller → JSON → option bool → Controller * completion unit)
    (mergeBookmarks : JSON → JSON → completion unit) (emptyArray : JSON)
    (workspaceFolders : Z) (workspaceFolder : option Uri)
    (bookmarksFileInProject : option (completion jsstring))
    (savedBookmarks e : jsstring) (globalBookmarks : option jsstring) :
  savedBookmarks ≠ [] →
  parse savedBookmarks = Throws e →
  let outcome :=
    loadBookmarks JSON parse Controller newController loadFrom mergeBookmarks emptyArray
      false workspaceFolders workspaceFolder bookmarksFileInProject
      (Some savedBookmarks) globalBookmarks in
  (∃ error, fst outcome = Throws error)
  ∧ (workspaceFolder = None → outcome = (Throws e, []))
  ∧ (workspaceFolder ≠ None →
     snd outcome
     = showErrorMessage (lit "Error loading Bookmarks: " ++ e) []
       :: match parse (default (lit "[]") globalBookmarks) with
          | Returns _ => []
          | Throws g => [showErrorMessage (lit "Error loading Global Bookmarks: " ++ g) []]
          end).
Proof.
  intros Hne Hparse outcome. subst outcome.
  unfold loadBookmarks, fileSystemData, canSaveBookmarksInProject.
  cbn [from_option id andb]. rewrite Hparse.
  unfold eqb. rewrite bool_decide_false by done. cbn [negb].
  destruct workspaceFolder as [folder|].
  - destruct (parse (default (lit "[]") globalBookmarks)) as [gs|g];
      destruct (mergeBookmarks emptyArray _) as [[]|error]; cbn [fst snd app];
      rewrite ?Hparse; cbn [fst snd]; split_and!; by eauto.
  - cbn [fst snd]. split_and!; by eauto.
Qed.

Lemma loadBookmarks_malformed_workspace_state_witness :
  (∃ error,
     fst (loadBookmarks unit parseBrace unit tt (fun c _ _ => (c, Returns tt))
            (fun _ _ => Returns tt) tt
            false 1 (Some appTs) None (Some (lit "{")) None)
     = Throws error)
  ∧ snd (loadBookmarks unit parseBrace unit tt (fun c _ _ => (c, Returns tt))
           (fun _ _ => Returns tt) tt
           false 1 (Some appTs) None (Some (lit "{")) None)
    = [showErrorMessage
         (lit "Error loading Bookmarks: SyntaxError: Unexpected end of JSON input") []].
Proof.
  destruct (loadBookmarks_malformed_workspace_state unit parseBrace unit tt
              (fun c _ _ => (c, Returns tt)) (fun _ _ => Returns tt) tt
              1 (Some appTs) None (lit "{")
              (lit "SyntaxError: Unexpected end of JSON input") None)
    as (Hthrows & _ & Hshown).
  - discriminate.
  - reflexivity.
  - split; [exact Hthrows|]. apply Hshown. discriminate.
Defined.

(** The load of the project scope kept in [.vscode/bookmarks.json] catches
    the throw, as [load] of the global scope does: the controller comes back
    new, with an error message after those of [fileSystemData]. *)
Lemma loadBookmarks_malformed_project_file
    (JSON : Type) (parse : jsstring → completion JSON)
    (Controller : Type) (newController : Controller)
    (loadFrom : Controller → JSON → option bool → Controller * completion unit)
    (mergeBookmarks : JSON → JSON → completion unit) (emptyArray : JSON)
    (workspaceFolders : Z) (folder : Uri) (savedBookmarks globalBookmarks : option jsstring)
    (contents e : jsstring) (shown : list Notification) :
  workspaceFolders ≠ 0 →
  parse contents = Throws e →
  fileSystemData JSON parse mergeBookmarks emptyArray savedBookmarks globalBookmarks
  = (Returns tt, shown) →
  loadBookmarks JSON parse Controller newController loadFrom mergeBookmarks emptyArray
    true workspaceFolders (Some folder) (Some (Returns contents))
    savedBookmarks globalBookmarks
  = (Returns newController,
     shown ++ [showErrorMessage (lit "Error loading Bookmarks: " ++ e) []]).
Proof.
  intros Hne Hparse Hlogged. unfold loadBookmarks. rewrite Hlogged.
  unfold canSaveBookmarksInProject, readFileUri.
  replace (workspaceFolders =? 0) with false by lia. simpl. by rewrite Hparse.
Qed.

(** * Further properties of the code *)

(** ** Navigation, both directions ([core/operations.ts]) *)

Lemma scanBackward_none (bks : list Bookmark) (currentLine : Z) :
  Forall (fun b => currentLine <= line b) bks →
  scanBackward (rev bks) currentLine = None.
Proof.
  intros H. apply Forall_rev in H. induction H as [|b rest Hb _ IH]; [done|].
  simpl. replace (line b <? currentLine) with false by lia. done.
Qed.

Lemma scanBackward_last (pre post : list Bookmark) (b : Bookmark) (currentLine : Z) :
  Forall (fun c => currentLine <= line c) post → line b < currentLine →
  scanBackward (rev (pre ++ b :: post)) currentLine = Some (positionOf b).
Proof.
  intros Hpost Hb. rewrite rev_app_distr. simpl. rewrite <- app_assoc. simpl.
  apply Forall_rev in Hpost. induction Hpost as [|c rest Hc _ IH]; simpl.
  - by replace (line b <? currentLine) with true by lia.
  - by replace (line c <? currentLine) with false by lia.
Qed.

Lemma scanForward_found (bks : list Bookmark) (currentLine : Z) (p : Position) :
  scanForward bks currentLine = Some p →
  ∃ b, b ∈ bks ∧ p = positionOf b ∧ currentLine < line b.
Proof.
  induction bks as [|b rest IH]; [done|]. simpl.
  destruct (line b >? currentLine) eqn:Hgt.
  - intros [= <-]. exists b. split; [left|]. split; [done|lia].
  - intros H. destruct (IH H) as (b' & Hin & Hp & Hlt). exists b'. split; [by right|done].
Qed.

Lemma scanBackward_found (rbks : list Bookmark) (currentLine : Z) (p : Position) :
  scanBackward rbks currentLine = Some p →
  ∃ b, b ∈ rbks ∧ p = positionOf b ∧ line b < currentLine.
Proof.
  induction rbks as [|b rest IH]; [done|]. simpl.
  destruct (line b <? currentLine) eqn:Hlt.
  - intros [= <-]. exists b. split; [left|]. split; [done|lia].
  - intros H. destruct (IH H) as (b' & Hin & Hp & Hlt'). exists b'. split; [by right|done].
Qed.

Lemma last_default {A} (l : list A) (d x : A) : last l = Some x → List.last l d = x.
Proof.
  induction l as [|a [|b rest] IH]; [done| |].
  - by intros [= <-].
  - intros H. apply IH. exact H.
Qed.

Lemma greatest_before_split (bks : list Bookmark) (b : Bookmark) (currentLine : Z) :
  strictlySorted bks → b ∈ bks → line b < currentLine →
  (∀ b', b' ∈ bks → line b' < currentLine → line b' <= line b) →
  ∃ pre post, bks = pre ++ b :: post ∧ Forall (fun c => currentLine <= line c) post.
Proof.
  intros Hs Hin Hlt Hgreatest.
  apply list_elem_of_split in Hin as (pre & post & ->).
  exists pre, post. split; [done|].
  apply strictlySorted_middle in Hs as [_ Hpost].
  apply Forall_forall. intros c Hc.
  rewrite Forall_forall in Hpost. specialize (Hpost c Hc).
  destruct (decide (currentLine <= line c)) as [|Hn]; [done|].
  assert (line c <= line b); [|lia].
  apply Hgreatest; [|lia]. apply elem_of_app. right. by right.
Qed.

(** X1: for every non-empty, strictly sorted list of bookmarks,
    [nextBookmark] in direction [Backward] returns the position of the
    bookmark of greatest line among those on a line strictly before the
    cursor's; when no bookmark is before the cursor and
    [navigateThroughAllFiles] is off, it returns the last bookmark of the
    list with [wrapNavigation] on and [NO_BOOKMARKS_BEFORE] with it off. *)
Theorem nextBookmark_backward
    (NO_BOOKMARKS NO_MORE_BOOKMARKS NO_BOOKMARKS_BEFORE NO_BOOKMARKS_AFTER : Z)
    (navigateThroughAllFiles wrapNavigation : bool)
    (bookmarks : list Bookmark) (currentPosition : Position) :
  bookmarks ≠ [] → strictlySorted bookmarks →
  let next :=
    nextBookmark NO_BOOKMARKS NO_MORE_BOOKMARKS NO_BOOKMARKS_BEFORE NO_BOOKMARKS_AFTER
      navigateThroughAllFiles wrapNavigation bookmarks currentPosition Backward in
  (∀ b, b ∈ bookmarks → line b < pos_line currentPosition →
     (∀ b', b' ∈ bookmarks → line b' < pos_line currentPosition → line b' <= line b) →
     next = inr (positionOf b))
  ∧ ((∀ b, b ∈ bookmarks → pos_line currentPosition <= line b) →
     navigateThroughAllFiles = false →
     ∀ final, last bookmarks = Some final →
     next = if wrapNavigation then inr (positionOf final) else inl NO_BOOKMARKS_BEFORE).
Proof.
  intros Hne Hs next. split.
  - intros b Hb Hcur Hgreatest.
    destruct (greatest_before_split bookmarks b _ Hs Hb Hcur Hgreatest)
      as (pre & post & Heq & Hpost).
    subst next. unfold nextBookmark. destruct bookmarks as [|first rest]; [done|].
    rewrite Heq. by rewrite scanBackward_last.
  - intros Hall -> final Hfinal. subst next. unfold nextBookmark.
    destruct bookmarks as [|first rest]; [done|].
    rewrite scanBackward_none by (by apply Forall_forall).
    destruct wrapNavigation; [|done]. cbn [negb].
    by rewrite (last_default _ first final Hfinal).
Qed.

Lemma nextBookmark_backward_witness :
  nextBookmark (-1) (-2) (-3) (-4) false true [plain 3; plain 7; plain 12]
    (mkPosition 9 2) Backward
  = inr (mkPosition 7 0).
Proof.
  refine (proj1 (nextBookmark_backward (-1) (-2) (-3) (-4) false true
                   [plain 3; plain 7; plain 12] (mkPosition 9 2) _ _) (plain 7) _ _ _).
  - discriminate.
  - unfold strictlySorted. repeat constructor.
  - apply list_elem_of_In. simpl. tauto.
  - reflexivity.
  - intros b' Hb' Hgt. apply list_elem_of_In in Hb'. simpl in *.
    destruct Hb' as [<- | [<- | [<- | []]]]; simpl in *; lia.
Defined.

Lemma nextBookmark_wrapping
    (NO_BOOKMARKS NO_MORE_BOOKMARKS NO_BOOKMARKS_BEFORE NO_BOOKMARKS_AFTER : Z)
    (bookmarks : list Bookmark) (first final : Bookmark) (currentPosition : Position) :
  head bookmarks = Some first → last bookmarks = Some final →
  nextBookmark NO_BOOKMARKS NO_MORE_BOOKMARKS NO_BOOKMARKS_BEFORE NO_BOOKMARKS_AFTER
    false true bookmarks currentPosition Forward
  = inr (default (positionOf first) (scanForward bookmarks (pos_line currentPosition)))
  ∧ nextBookmark NO_BOOKMARKS NO_MORE_BOOKMARKS NO_BOOKMARKS_BEFORE NO_BOOKMARKS_AFTER
      false true bookmarks currentPosition Backward
    = inr (default (positionOf final)
             (scanBackward (rev bookmarks) (pos_line currentPosition))).
Proof.
  intros Hfirst Hfinal. unfold nextBookmark.
  destruct bookmarks as [|first' rest]; [done|].
  simpl in Hfirst. injection Hfirst as ->.
  rewrite (last_default _ first final Hfinal).
  split.
  - by destruct (scanForward _ _).
  - by destruct (scanBackward _ _).
Qed.

(** X2: in a file on its own ([navigateThroughAllFiles] off) with
    [wrapNavigation] on, jumping forward from a bookmark and then backward
    from where that leads comes back to the bookmark, and so does jumping
    backward and then forward, whatever the number of bookmarks. *)
Theorem nextBookmark_there_and_back
    (NO_BOOKMARKS NO_MORE_BOOKMARKS NO_BOOKMARKS_BEFORE NO_BOOKMARKS_AFTER : Z)
    (bookmarks : list Bookmark) (b : Bookmark) (currentPosition : Position) :
  strictlySorted bookmarks → b ∈ bookmarks → pos_line currentPosition = line b →
  let jump :=
    nextBookmark NO_BOOKMARKS NO_MORE_BOOKMARKS NO_BOOKMARKS_BEFORE NO_BOOKMARKS_AFTER
      false true bookmarks in
  (∃ there, jump currentPosition Forward = inr there
            ∧ jump there Backward = inr (positionOf b))
  ∧ (∃ there, jump currentPosition Backward = inr there
              ∧ jump there Forward = inr (positionOf b)).
Proof.
  intros Hs Hin Hcur jump. subst jump.
  assert (∃ first, head bookmarks = Some first) as [first Hfirst].
  { destruct bookmarks; [by apply elem_of_nil in Hin|]. by eexists. }
  assert (∃ final, last bookmarks = Some final) as [final Hfinal].
  { destruct (last bookmarks) eqn:H; [by eexists|].
    apply last_None in H. subst. by apply elem_of_nil in Hin. }
  pose proof (fun cur => nextBookmark_wrapping NO_BOOKMARKS NO_MORE_BOOKMARKS
                NO_BOOKMARKS_BEFORE NO_BOOKMARKS_AFTER bookmarks first final cur
                Hfirst Hfinal) as Hjump.
  assert (Hlow : ∀ x, x ∈ bookmarks → line first <= line x).
  { intros x Hx. destruct bookmarks as [|f rest]; [done|]. simpl in Hfirst.
    injection Hfirst as ->. inversion Hs as [|? ? _ Hall]; subst.
    apply elem_of_cons in Hx as [-> | Hx]; [lia|].
    rewrite Forall_forall in Hall. specialize (Hall x Hx). lia. }
  assert (Hhigh : ∀ x, x ∈ bookmarks → line x <= line final).
  { intros x Hx. apply last_Some in Hfinal as [front ->].
    apply elem_of_app in Hx as [Hx | Hx].
    - apply list_elem_of_split in Hx as (l1 & l2 & ->).
      rewrite <- app_assoc in Hs. simpl in Hs.
      apply strictlySorted_middle in Hs as [_ Hafter].
      apply Forall_app in Hafter as [_ Hafter].
      apply Forall_cons in Hafter as [Hafter _]. lia.
    - apply list_elem_of_singleton in Hx as ->. lia. }
  assert (Hfirst_in : first ∈ bookmarks)
    by (destruct bookmarks; [done|]; simpl in Hfirst; injection Hfirst as ->; left).
  assert (Hfinal_in : final ∈ bookmarks)
    by (apply last_Some in Hfinal as [front ->]; apply elem_of_app; right; left).
  assert (Hfirst_none : scanBackward (rev bookmarks) (line first) = None).
  { apply scanBackward_none, Forall_forall. exact Hlow. }
  assert (Hfinal_none : scanForward bookmarks (line final) = None).
  { apply scanForward_none, Forall_forall. exact Hhigh. }
  assert (Hunique : ∀ x y, x ∈ bookmarks → y ∈ bookmarks → line x = line y → x = y).
  { intros x y Hx Hy Hxy.
    apply list_elem_of_split in Hx as (l1 & l2 & Heq). rewrite Heq in Hs, Hy.
    apply strictlySorted_middle in Hs as [Hbefore Hafter].
    rewrite Forall_forall in Hbefore, Hafter.
    apply elem_of_app in Hy as [Hy | Hy]; [specialize (Hbefore y Hy); lia|].
    apply elem_of_cons in Hy as [-> | Hy]; [done|].
    specialize (Hafter y Hy). lia. }
  apply list_elem_of_split in Hin as (pre & post & Heq).
  rewrite Heq in Hs.
  pose proof (strictlySorted_middle _ _ _ Hs) as [Hpre Hpost].
  assert (Hpre' : Forall (fun a => line a <= line b) pre)
    by (eapply Forall_impl; [exact Hpre|]; simpl; intros; lia).
  assert (Hpost' : Forall (fun c => line b <= line c) post)
    by (eapply Forall_impl; [exact Hpost|]; simpl; intros; lia).
  split.
  - destruct (Hjump currentPosition) as [-> _]. rewrite Hcur.
    eexists. split; [done|].
    destruct post as [|c post'].
    + (* the last bookmark: forward wraps to the first *)
      assert (final = b) as ->.
      { rewrite Heq in Hfinal. rewrite last_app in Hfinal. simpl in Hfinal.
        by injection Hfinal. }
      rewrite Hfinal_none. simpl.
      destruct (Hjump (positionOf first)) as [_ ->]. simpl.
      by rewrite Hfirst_none.
    + (* a later bookmark exists: forward reaches the next one *)
      assert (Hc : line b < line c) by (by apply Forall_cons in Hpost as [Hc _]).
      assert (Hnext : scanForward bookmarks (line b) = Some (positionOf c)).
      { rewrite Heq. change (pre ++ b :: c :: post') with (pre ++ [b] ++ c :: post').
        rewrite app_assoc. apply scanForward_first; [|done].
        apply Forall_app. split; [done|]. constructor; [lia|constructor]. }
      rewrite Hnext. simpl.
      destruct (Hjump (positionOf c)) as [_ ->]. simpl.
      assert (Hback : scanBackward (rev bookmarks) (line c) = Some (positionOf b)).
      { rewrite Heq. apply scanBackward_last; [|done].
        constructor; [lia|].
        change (pre ++ b :: c :: post') with (pre ++ [b] ++ c :: post') in Hs.
        rewrite app_assoc in Hs. apply strictlySorted_middle in Hs as [_ Hall].
        eapply Forall_impl; [exact Hall|]. simpl. intros. lia. }
      by rewrite Hback.
  - destruct (Hjump currentPosition) as [_ ->]. rewrite Hcur.
    eexists. split; [done|].
    destruct pre as [|a pre' _] using rev_ind.
    + (* the first bookmark: backward wraps to the last *)
      assert (first = b) as ->.
      { rewrite Heq in Hfirst. simpl in Hfirst. by injection Hfirst. }
      rewrite Hfirst_none. simpl.
      destruct (Hjump (positionOf final)) as [-> _]. simpl.
      by rewrite Hfinal_none.
    + (* an earlier bookmark exists: backward reaches the previous one *)
      assert (Ha : line a < line b).
      { apply Forall_app in Hpre as [_ Ha]. by apply Forall_cons in Ha as [Ha _]. }
      rewrite <- app_assoc in Heq, Hs. cbn [app] in Heq, Hs.
      assert (Hprev : scanBackward (rev bookmarks) (line b) = Some (positionOf a)).
      { rewrite Heq. apply scanBackward_last; [|done]. constructor; [lia|done]. }
      rewrite Hprev. simpl.
      destruct (Hjump (positionOf a)) as [-> _]. simpl.
      assert (Hfwd : scanForward bookmarks (line a) = Some (positionOf b)).
      { rewrite Heq. change (pre' ++ a :: b :: post) with (pre' ++ [a] ++ b :: post).
        rewrite app_assoc. apply scanForward_first; [|done].
        apply Forall_app. split; [|constructor; [lia|constructor]].
        apply strictlySorted_middle in Hs as [Hbefore _].
        eapply Forall_impl; [exact Hbefore|]. simpl. intros. lia. }
      by rewrite Hfwd.
Qed.

Lemma nextBookmark_there_and_back_witness :
  ∃ there,
    nextBookmark (-1) (-2) (-3) (-4) false true [plain 3; plain 7; plain 12]
      (mkPosition 12 5) Forward = inr there
    ∧ nextBookmark (-1) (-2) (-3) (-4) false true [plain 3; plain 7; plain 12]
        there Backward = inr (mkPosition 12 0).
Proof.
  refine (proj1 (nextBookmark_there_and_back (-1) (-2) (-3) (-4)
                   [plain 3; plain 7; plain 12] (plain 12) (mkPosition 12 5) _ _ _)).
  - unfold strictlySorted. repeat constructor.
  - apply list_elem_of_In. simpl. tauto.
  - reflexivity.
Defined.

Lemma scanForward_None (bks : list Bookmark) (currentLine : Z) :
  scanForward bks currentLine = None → Forall (fun b => line b <= currentLine) bks.
Proof.
  induction bks as [|b rest IH]; [constructor|]. simpl.
  destruct (line b >? currentLine) eqn:Hgt; [done|].
  intros H. constructor; [lia|by apply IH].
Qed.

Lemma scanBackward_None (rbks : list Bookmark) (currentLine : Z) :
  scanBackward rbks currentLine = None → Forall (fun b => currentLine <= line b) rbks.
Proof.
  induction rbks as [|b rest IH]; [constructor|]. simpl.
  destruct (line b <? currentLine) eqn:Hlt; [done|].
  intros H. constructor; [lia|by apply IH].
Qed.

Lemma nextBookmark_cases
    (NO_BOOKMARKS NO_MORE_BOOKMARKS NO_BOOKMARKS_BEFORE NO_BOOKMARKS_AFTER : Z)
    (navigateThroughAllFiles wrapNavigation : bool)
    (bookmarks : list Bookmark) (currentPosition : Position) (direction : Directions) :
  let beyond (b : Bookmark) :=
    match direction with
    | Forward => pos_line currentPosition < line b
    | Backward => line b < pos_line currentPosition
    end in
  match nextBookmark NO_BOOKMARKS NO_MORE_BOOKMARKS NO_BOOKMARKS_BEFORE
          NO_BOOKMARKS_AFTER navigateThroughAllFiles wrapNavigation
          bookmarks currentPosition direction with
  | inr next =>
      (bookmarks = [] ∧ navigateThroughAllFiles = false ∧ next = currentPosition)
      ∨ ∃ b, b ∈ bookmarks ∧ next = positionOf b
             ∧ (navigateThroughAllFiles = true ∨ wrapNavigation = false → beyond b)
  | inl sentinel =>
      (bookmarks = [] ∧ navigateThroughAllFiles = true ∧ sentinel = NO_BOOKMARKS)
      ∨ (bookmarks ≠ [] ∧ Forall (fun b => ¬ beyond b) bookmarks
         ∧ sentinel
           = if navigateThroughAllFiles then NO_MORE_BOOKMARKS
             else match direction with
                  | Forward => NO_BOOKMARKS_AFTER
                  | Backward => NO_BOOKMARKS_BEFORE
                  end)
  end.
Proof.
  intros beyond. unfold nextBookmark.
  destruct bookmarks as [|first rest].
  { destruct navigateThroughAllFiles; [by left|by left]. }
  destruct direction.
  - destruct (scanForward (first :: rest) (pos_line currentPosition)) as [next|] eqn:Hscan.
    + right. apply scanForward_found in Hscan as (b & Hin & -> & Hlt). by exists b.
    + apply scanForward_None in Hscan.
      assert (Hnot : Forall (fun b => ¬ beyond b) (first :: rest)).
      { eapply Forall_impl; [exact Hscan|]. unfold beyond. simpl. intros. lia. }
      destruct navigateThroughAllFiles; [by right|].
      destruct wrapNavigation; simpl; [|by right].
      right. exists first. split; [left|]. split; [done|]. by intros [|].
  - destruct (scanBackward (rev (first :: rest)) (pos_line currentPosition))
      as [next|] eqn:Hscan.
    + right. apply scanBackward_found in Hscan as (b & Hin & -> & Hlt).
      exists b. split; [|done]. apply list_elem_of_In, in_rev. by apply list_elem_of_In.
    + apply scanBackward_None in Hscan. apply Forall_rev in Hscan.
      rewrite rev_involutive in Hscan.
      assert (Hnot : Forall (fun b => ¬ beyond b) (first :: rest)).
      { eapply Forall_impl; [exact Hscan|]. unfold beyond. simpl. intros. lia. }
      destruct navigateThroughAllFiles; [by right|].
      destruct wrapNavigation; cbn [negb]; [|by right].
      right. exists (List.last (first :: rest) first).
      split; [|split; [done|by intros [|]]].
      destruct (last (first :: rest)) as [final|] eqn:Hlast.
      * rewrite (last_default (first :: rest) first final Hlast).
        by apply last_Some_elem_of.
      * by apply last_None in Hlast.
Qed.

(** X3: whatever the list and the settings, a position [nextBookmark]
    returns is the position of a bookmark of the list, or the cursor's own
    when the list is empty; unless it wrapped around, which takes
    [wrapNavigation] on and [navigateThroughAllFiles] off, that bookmark
    is strictly beyond the cursor's line in the direction of the jump. A
    sentinel is returned only when the list is empty or holds no bookmark
    strictly beyond the cursor's line. *)
Theorem nextBookmark_result
    (NO_BOOKMARKS NO_MORE_BOOKMARKS NO_BOOKMARKS_BEFORE NO_BOOKMARKS_AFTER : Z)
    (navigateThroughAllFiles wrapNavigation : bool)
    (bookmarks : list Bookmark) (currentPosition : Position) (direction : Directions) :
  let beyond (b : Bookmark) :=
    match direction with
    | Forward => pos_line currentPosition < line b
    | Backward => line b < pos_line currentPosition
    end in
  match nextBookmark NO_BOOKMARKS NO_MORE_BOOKMARKS NO_BOOKMARKS_BEFORE
          NO_BOOKMARKS_AFTER navigateThroughAllFiles wrapNavigation
          bookmarks currentPosition direction with
  | inr next =>
      (bookmarks = [] ∧ navigateThroughAllFiles = false ∧ next = currentPosition)
      ∨ ∃ b, b ∈ bookmarks ∧ next = positionOf b
             ∧ (navigateThroughAllFiles = true ∨ wrapNavigation = false → beyond b)
  | inl sentinel =>
      (bookmarks = [] ∧ navigateThroughAllFiles = true ∧ sentinel = NO_BOOKMARKS)
      ∨ (bookmarks ≠ [] ∧ Forall (fun b => ¬ beyond b) bookmarks
         ∧ sentinel
           = if navigateThroughAllFiles then NO_MORE_BOOKMARKS
             else match direction with
                  | Forward => NO_BOOKMARKS_AFTER
                  | Backward => NO_BOOKMARKS_BEFORE
                  end)
  end.
Proof. apply nextBookmark_cases. Qed.

(** ** The bookmarks of both scopes, merged ([extension.ts]) *)

Section SortedFacts.

Context {A : Type} (key : A → Z).

Lemma insertBy_sorted (x : A) (a : list A) :
  StronglySorted (fun y z => key y <= key z) a →
  StronglySorted (fun y z => key y <= key z) (insertBy key x a).
Proof.
  induction 1 as [|y rest Hs IH Hall]; simpl.
  - repeat constructor.
  - destruct (key y <=? key x) eqn:Hle.
    + constructor; [done|].
      rewrite (insertBy_perm key x rest). constructor; [lia|done].
    + constructor; [by constructor|]. constructor; [lia|].
      eapply Forall_impl; [exact Hall|]. simpl. intros. lia.
Qed.

Lemma sortBy_is_sorted (a : list A) :
  StronglySorted (fun y z => key y <= key z) (sortBy key a).
Proof.
  induction a as [|x a IH] using rev_ind; [constructor|].
  rewrite sortBy_snoc. by apply insertBy_sorted.
Qed.

End SortedFacts.

Lemma scanForward_least (bks : list Bookmark) (b : Bookmark) (currentLine : Z) :
  sortedByLine bks → b ∈ bks → currentLine < line b →
  ∃ b1, scanForward bks currentLine = Some (positionOf b1)
        ∧ b1 ∈ bks ∧ currentLine < line b1 <= line b.
Proof.
  induction 1 as [|a rest Hs IH Hall]; [by intros ?%elem_of_nil|].
  intros Hin Hlt. simpl. destruct (line a >? currentLine) eqn:Hgt.
  - exists a. split; [done|]. split; [left|].
    apply elem_of_cons in Hin as [-> | Hin]; [lia|].
    rewrite Forall_forall in Hall. specialize (Hall b Hin). lia.
  - apply elem_of_cons in Hin as [-> | Hin]; [lia|].
    destruct (IH Hin Hlt) as (b1 & Hscan & Hin1 & Hb1).
    exists b1. split; [done|]. split; [by right|done].
Qed.

(** X4: for the document of the active editor, [getActiveFileBookmarks]
    returns the bookmarks of the active file of the project scope and the
    global bookmarks of the document together, every one of them once, in
    ascending order of line; a jump forward over that list goes to a
    bookmark of either scope on the nearest line strictly after the
    cursor's, when there is one. *)
Theorem getActiveFileBookmarks_merged `{host : Host}
    (uri : Uri) (activeFile : File) (getFileUri : File → option Uri) (m : Manager) :
  let merged :=
    getActiveFileBookmarks (Some (Some uri)) true (Some activeFile) getFileUri m in
  let both := file_bookmarks activeFile ++ getBookmarksForFile uri m in
  sortedByLine merged
  ∧ merged ≡ₚ both
  ∧ ∀ (NO_BOOKMARKS NO_MORE_BOOKMARKS NO_BOOKMARKS_BEFORE NO_BOOKMARKS_AFTER : Z)
      (navigateThroughAllFiles wrapNavigation : bool)
      (currentPosition : Position) (b : Bookmark),
      b ∈ both → pos_line currentPosition < line b →
      ∃ nearest,
        nearest ∈ both
        ∧ pos_line currentPosition < line nearest <= line b
        ∧ nextBookmark NO_BOOKMARKS NO_MORE_BOOKMARKS NO_BOOKMARKS_BEFORE
            NO_BOOKMARKS_AFTER navigateThroughAllFiles wrapNavigation
            merged currentPosition Forward
          = inr (positionOf nearest).
Proof.
  intros merged both.
  assert (Hmerged : merged = sortBy line both).
  { subst merged both. unfold getActiveFileBookmarks, getBookmarksForFile. simpl.
    by destruct (fromUri (Some uri) m). }
  assert (Hperm : merged ≡ₚ both) by (rewrite Hmerged; apply sortBy_perm).
  assert (Hsorted : sortedByLine merged) by (rewrite Hmerged; apply sortBy_is_sorted).
  split; [done|]. split; [done|].
  intros ? ? ? ? ? ? cur b Hb Hlt.
  rewrite <- Hperm in Hb.
  destruct (scanForward_least merged b _ Hsorted Hb Hlt) as (b1 & Hscan & Hin1 & Hb1).
  exists b1. rewrite <- Hperm. split; [done|]. split; [done|].
  unfold nextBookmark. destruct merged as [|first rest]; [by apply elem_of_nil in Hin1|].
  by rewrite Hscan.
Qed.

(** ** The sticky engine: what it leaves alone, what it reports *)

Lemma setBookmarks_same (f : GlobalFile) : setBookmarks (bookmarks f) f = f.
Proof. by destruct f. Qed.

Lemma shiftBy_none eventLine eventChar delta (bks : list Bookmark) :
  existsb (fun b => isShifted (line b) eventLine eventChar) bks = false →
  shiftBy eventLine eventChar delta <$> bks = bks.
Proof.
  induction bks as [|b rest IH]; [done|]. cbn [existsb].
  intros [Hb Hrest]%orb_false_iff. rewrite fmap_cons, IH by done.
  unfold shiftBy. by rewrite Hb.
Qed.

Lemma removeDeleted_false keep endLine count l (bks : list Bookmark) updated :
  snd (removeDeleted keep endLine count l bks updated) = false →
  fst (removeDeleted keep endLine count l bks updated) = bks ∧ updated = false.
Proof.
  revert l bks updated. induction count as [|count IH]; intros l bks updated; [done|].
  cbn [removeDeleted]. destruct (indexOfBookmark_from bks l 0 >? -1).
  - by rewrite removeDeleted_true.
  - apply IH.
Qed.

Lemma removeDeleted_none keep endLine count l (bks : list Bookmark) updated :
  Forall (fun b => ¬ (l <= line b < l + Z.of_nat count)) bks →
  removeDeleted keep endLine count l bks updated = (bks, updated).
Proof.
  revert l. induction count as [|count IH]; intros l Hnone; [done|].
  cbn [removeDeleted]. rewrite indexOf_not_found.
  - apply IH. eapply Forall_impl; [exact Hnone|]. simpl. intros b Hb. zlia.
  - eapply Forall_impl; [exact Hnone|]. simpl. intros b Hb. zlia.
Qed.

Lemma shiftDeleted_false doc (bks : list Bookmark) eventLine eventChar0 d updated :
  snd (shiftDeleted doc bks eventLine eventChar0 d updated) = Returns false →
  fst (shiftDeleted doc bks eventLine eventChar0 d updated) = bks ∧ updated = false.
Proof.
  destruct (startCharacter doc eventLine eventChar0) as [eventChar|e] eqn:Hc.
  - rewrite (shiftDeleted_returns _ _ _ _ _ _ _ Hc). cbn [fst snd].
    intros [= [-> Hnone]%orb_false_iff]. by rewrite shiftBy_none.
  - rewrite (shiftDeleted_throws _ _ _ _ _ _ _ Hc). cbn [fst snd].
    by destruct bks; [intros [= ->]|].
Qed.

Lemma applyChange_false keep doc change (bks : list Bookmark) updated :
  snd (applyChange keep doc change bks updated) = Returns false →
  fst (applyChange keep doc change bks updated) = bks ∧ updated = false.
Proof.
  unfold applyChange.
  destruct (includesNewline (text change)) eqn:Hadd;
    destruct (pos_line (range_start change) <? pos_line (range_end change)) eqn:Hdel;
    cbn [negb andb].
  - destruct (startCharacter _ _ _) as [eventChar|e]; [|done].
    rewrite shiftAdded_spec.
    destruct (removeDeleted _ _ _ _ _ _) as [bks2 updated2] eqn:Hrem.
    intros H. apply shiftDeleted_false in H as [-> ->].
    pose proof (removeDeleted_false keep (pos_line (range_end change))
      (Z.to_nat (pos_line (range_end change) - pos_line (range_start change)))
      (pos_line (range_start change))
      (shiftBy (pos_line (range_start change)) eventChar (countNewlines (text change))
         <$> bks)
      (updated || existsb (fun b => isShifted (line b)
                             (pos_line (range_start change)) eventChar) bks)) as Hfalse.
    rewrite Hrem in Hfalse. cbn [fst snd] in Hfalse.
    destruct (Hfalse eq_refl) as [-> [-> Hnone]%orb_false_iff].
    by rewrite shiftBy_none.
  - destruct (startCharacter _ _ _) as [eventChar|e]; [|done].
    rewrite shiftAdded_spec. cbn [fst snd].
    intros [= [-> Hnone]%orb_false_iff]. by rewrite shiftBy_none.
  - destruct (removeDeleted _ _ _ _ _ _) as [bks2 updated2] eqn:Hrem.
    intros H. apply shiftDeleted_false in H as [-> ->].
    pose proof (removeDeleted_false keep (pos_line (range_end change))
      (Z.to_nat (pos_line (range_end change) - pos_line (range_start change)))
      (pos_line (range_start change)) bks updated) as Hfalse.
    rewrite Hrem in Hfalse. cbn [fst snd] in Hfalse.
    by destruct (Hfalse eq_refl) as [-> ->].
  - by intros [= ->].
Qed.

Lemma applyChanges_false keep doc changes (bks : list Bookmark) updated :
  snd (applyChanges keep doc changes bks updated) = Returns false →
  fst (applyChanges keep doc changes bks updated) = bks ∧ updated = false.
Proof.
  revert bks updated. induction changes as [|change rest IH]; intros bks updated.
  - by intros [= ->].
  - cbn [applyChanges].
    destruct (applyChange keep doc change bks updated) as [bks' [updated'|e]] eqn:Hone;
      [|done].
    intros H. destruct (IH _ _ H) as [-> ->].
    pose proof (applyChange_false keep doc change bks updated) as Hfalse.
    rewrite Hone in Hfalse. cbn [fst snd] in Hfalse.
    by destruct (Hfalse eq_refl) as [-> ->].
Qed.

(** X5: when [updateStickyGlobalBookmarks] returns [false], it has left
    the bookmarks of the file exactly as they were: every change it makes
    to a line number, and every removal, is reported by the result [true],
    on which the caller saves and notifies. *)
Theorem updateStickyGlobalBookmarks_reports_changes (keepBookmarksOnLineDelete : bool)
    (contentChanges : list TextDocumentContentChangeEvent)
    (globalFile : GlobalFile) (document : TextDocument) :
  snd (updateStickyGlobalBookmarks keepBookmarksOnLineDelete contentChanges
         globalFile document) = Returns false →
  fst (updateStickyGlobalBookmarks keepBookmarksOnLineDelete contentChanges
         globalFile document) = globalFile.
Proof.
  unfold updateStickyGlobalBookmarks.
  destruct contentChanges as [|change rest]; [done|].
  destruct (applyChanges _ _ _ _ _) as [bks r] eqn:Happly. cbn [fst snd].
  intros ->.
  pose proof (applyChanges_false keepBookmarksOnLineDelete document (change :: rest)
                (bookmarks globalFile) false) as Hfalse.
  rewrite Happly in Hfalse. cbn [fst snd] in Hfalse.
  destruct (Hfalse eq_refl) as [-> _].
  apply setBookmarks_same.
Qed.

Lemma updateStickyGlobalBookmarks_reports_changes_witness :
  fst (updateStickyGlobalBookmarks false
         [mkChange (mkPosition 9 2) (mkPosition 9 2) threeNewlines] store259 tenLines)
  = store259.
Proof.
  apply updateStickyGlobalBookmarks_reports_changes. reflexivity.
Defined.

(** X6: an edit that stays within its lines, every change replacing text
    of one line by text without a line break, moves and removes nothing;
    the engine returns [false], whatever the document and the setting
    [keepBookmarksOnLineDelete]. *)
Theorem updateStickyGlobalBookmarks_within_lines (keepBookmarksOnLineDelete : bool)
    (contentChanges : list TextDocumentContentChangeEvent)
    (globalFile : GlobalFile) (document : TextDocument) :
  Forall (fun change =>
            includesNewline (text change) = false
            ∧ pos_line (range_end change) <= pos_line (range_start change))
    contentChanges →
  updateStickyGlobalBookmarks keepBookmarksOnLineDelete contentChanges
    globalFile document
  = (globalFile, Returns false).
Proof.
  intros Hall. unfold updateStickyGlobalBookmarks.
  destruct contentChanges as [|change rest] eqn:Heq; [done|]. rewrite <- Heq in *.
  assert (Happly : ∀ bks updated,
    applyChanges keepBookmarksOnLineDelete document contentChanges bks updated
    = (bks, Returns updated)).
  { clear Heq. induction Hall as [|ch more [Hadd Hdel] _ IH]; intros bks updated; [done|].
    cbn [applyChanges]. unfold applyChange. rewrite Hadd.
    replace (pos_line (range_start ch) <? pos_line (range_end ch)) with false by lia.
    cbn [negb andb]. apply IH. }
  rewrite Happly. by rewrite setBookmarks_same.
Qed.

Lemma updateStickyGlobalBookmarks_within_lines_witness :
  updateStickyGlobalBookmarks true
    [mkChange (mkPosition 5 2) (mkPosition 5 6) (lit "name")] store259 tenLines
  = (store259, Returns false).
Proof.
  apply updateStickyGlobalBookmarks_within_lines.
  repeat constructor. simpl. lia.
Defined.

Lemma includesNewline_count (s : jsstring) :
  includesNewline s = true → 0 < countNewlines s.
Proof.
  unfold includesNewline, countNewlines. induction s as [|c rest IH]; [done|].
  simpl. destruct (c =? 10)%N; simpl; [zlia|]. exact IH.
Qed.

Lemma shiftBy_there_and_back eventLine k (b : Bookmark) :
  0 <= k → shiftBy eventLine 0 (- k) (shiftBy eventLine 0 k b) = b.
Proof.
  intros Hk. unfold shiftBy.
  destruct (isShifted (line b) eventLine 0) eqn:Hb.
  - rewrite line_setLine.
    assert (isShifted (line b + k) eventLine 0 = true) as ->
      by (unfold isShifted in *; lia).
    destruct b as [l c lbl]. unfold setLine. simpl. f_equal. lia.
  - by rewrite Hb.
Qed.

(** X7: taking back an insertion of whole lines restores the bookmarks.
    After text with [k] line breaks was inserted at column 0 of a line, the
    edit that deletes the [k] lines from that point again, whether in a
    later event or in the same, leaves every bookmark of the file on the
    line, with the column and the label, it had before the two edits;
    nothing is lost under either setting of [keepBookmarksOnLineDelete]. *)
Theorem updateStickyGlobalBookmarks_insert_then_delete
    (keepBookmarksOnLineDelete : bool) (globalFile : GlobalFile)
    (afterInsert afterDelete : TextDocument) (startLine endChar : Z)
    (inserted replacement : jsstring) :
  includesNewline inserted = true →
  includesNewline replacement = false →
  let start := mkPosition startLine 0 in
  let insertion := mkChange start start inserted in
  let deletion :=
    mkChange start (mkPosition (startLine + countNewlines inserted) endChar)
      replacement in
  fst (updateStickyGlobalBookmarks keepBookmarksOnLineDelete [deletion]
         (fst (updateStickyGlobalBookmarks keepBookmarksOnLineDelete [insertion]
                 globalFile afterInsert))
         afterDelete)
  = globalFile
  ∧ fst (updateStickyGlobalBookmarks keepBookmarksOnLineDelete [insertion; deletion]
           globalFile afterDelete)
    = globalFile.
Proof.
  intros Hadd Hnone start insertion deletion.
  pose proof (includesNewline_count _ Hadd) as Hk.
  set (k := countNewlines inserted) in *.
  assert (Hins : ∀ doc bks updated,
    applyChange keepBookmarksOnLineDelete doc insertion bks updated
    = (shiftBy startLine 0 k <$> bks,
       Returns (updated || existsb (fun b => isShifted (line b) startLine 0) bks))).
  { intros doc bks updated. unfold applyChange. subst insertion start.
    cbn [text range_start range_end pos_line character].
    rewrite Hadd, Z.ltb_irrefl. cbn [negb andb]. unfold startCharacter.
    replace (0 >? 0) with false by lia. by rewrite shiftAdded_spec. }
  assert (Hdel : ∀ doc bks updated, ∃ updated',
    applyChange keepBookmarksOnLineDelete doc deletion
      (shiftBy startLine 0 k <$> bks) updated
    = (bks, Returns updated')).
  { intros doc bks updated. unfold applyChange. subst deletion start.
    cbn [text range_start range_end pos_line character].
    rewrite Hnone. replace (startLine <? startLine + k) with true by lia.
    cbn [negb andb]. rewrite removeDeleted_none.
    2:{ apply Forall_forall. intros b' [b [-> Hb]]%list_elem_of_fmap.
        unfold shiftBy. destruct (isShifted (line b) startLine 0) eqn:Hge.
        - rewrite line_setLine. unfold isShifted in Hge. lia.
        - unfold isShifted in Hge. lia. }
    erewrite shiftDeleted_returns.
    2:{ unfold startCharacter. by replace (0 >? 0) with false by lia. }
    eexists. f_equal. rewrite <- list_fmap_compose.
    replace (startLine + k - startLine) with k by lia.
    rewrite <- (list_fmap_id bks) at 2. apply fmap_agree, Forall_forall.
    intros b _. simpl. apply shiftBy_there_and_back. lia. }
  unfold updateStickyGlobalBookmarks. cbn [applyChanges].
  rewrite !Hins. cbn [fst bookmarks setBookmarks].
  destruct (Hdel afterDelete (bookmarks globalFile)
              (false || existsb (fun b => isShifted (line b) startLine 0)
                          (bookmarks globalFile))) as [u1 ->].
  destruct (Hdel afterDelete (bookmarks globalFile) false) as [u2 ->].
  cbn [fst]. by destruct globalFile.
Qed.

Lemma updateStickyGlobalBookmarks_insert_then_delete_witness :
  fst (updateStickyGlobalBookmarks true
         [mkChange (mkPosition 5 0) (mkPosition 8 0) []]
         (fst (updateStickyGlobalBookmarks true
                 [mkChange (mkPosition 5 0) (mkPosition 5 0) threeNewlines]
                 store259 tenLines))
         tenLines)
  = store259.
Proof.
  refine (proj1 (updateStickyGlobalBookmarks_insert_then_delete true store259
                   tenLines tenLines 5 0 threeNewlines [] _ _)); reflexivity.
Defined.

Lemma anchor_shiftBy eventLine eventChar delta (bks : list Bookmark) :
  anchor <$> (shiftBy eventLine eventChar delta <$> bks) = anchor <$> bks.
Proof.
  rewrite <- list_fmap_compose. apply fmap_agree, Forall_forall. intros b _.
  unfold shiftBy. simpl. by destruct (isShifted _ _ _).
Qed.

Lemma anchor_removeDeleted keep endLine count l (bks : list Bookmark) updated :
  anchor <$> fst (removeDeleted keep endLine count l bks updated)
  `sublist_of` anchor <$> bks.
Proof.
  revert l bks updated. induction count as [|count IH]; intros l bks updated; [done|].
  cbn [removeDeleted].
  assert (Hsplice : ∀ i, anchor <$> splice1 bks i `sublist_of` anchor <$> bks).
  { intros i. apply fmap_sublist. unfold splice1. apply sublist_delete. }
  destruct (indexOfBookmark_from bks l 0 >? -1); [|apply IH].
  etrans; [apply IH|].
  destruct keep; [|apply Hsplice].
  destruct (negb _); [|apply Hsplice].
  unfold updateBookmarkLine.
  rewrite (list_fmap_alter anchor (setLine endLine) id).
  - by rewrite list_alter_id.
  - apply Forall_forall. by intros b _.
Qed.

Lemma anchor_shiftDeleted doc (bks : list Bookmark) eventLine eventChar0 d updated :
  anchor <$> fst (shiftDeleted doc bks eventLine eventChar0 d updated) = anchor <$> bks.
Proof.
  destruct (startCharacter doc eventLine eventChar0) as [eventChar|e] eqn:Hc.
  - rewrite (shiftDeleted_returns _ _ _ _ _ _ _ Hc). apply anchor_shiftBy.
  - by rewrite (shiftDeleted_throws _ _ _ _ _ _ _ Hc).
Qed.

Lemma anchor_applyChange keep doc change (bks : list Bookmark) updated :
  anchor <$> fst (applyChange keep doc change bks updated) `sublist_of` anchor <$> bks.
Proof.
  unfold applyChange.
  destruct (negb (includesNewline (text change)) && negb _) eqn:Hskip; [done|].
  set (afterAdd := if includesNewline (text change) then _ else _).
  assert (Hadd : anchor <$> fst afterAdd = anchor <$> bks).
  { subst afterAdd. destruct (includesNewline (text change)); [|done].
    destruct (startCharacter _ _ _) as [eventChar|e]; [|done].
    rewrite shiftAdded_spec. cbn [fst]. apply anchor_shiftBy. }
  clearbody afterAdd.
  destruct afterAdd as [bks1 [updated1|e]]; cbn [fst] in Hadd |- *; [|by rewrite Hadd].
  destruct (pos_line (range_start change) <? pos_line (range_end change));
    [|cbn [fst]; by rewrite Hadd].
  destruct (removeDeleted _ _ _ _ _ _) as [bks2 updated2] eqn:Hrem.
  rewrite anchor_shiftDeleted, <- Hadd.
  pose proof (anchor_removeDeleted keep (pos_line (range_end change))
    (Z.to_nat (pos_line (range_end change) - pos_line (range_start change)))
    (pos_line (range_start change)) bks1 updated1) as Hsub.
  by rewrite Hrem in Hsub.
Qed.

Lemma anchor_applyChanges keep doc changes (bks : list Bookmark) updated :
  anchor <$> fst (applyChanges keep doc changes bks updated) `sublist_of` anchor <$> bks.
Proof.
  revert bks updated. induction changes as [|change rest IH]; intros bks updated; [done|].
  cbn [applyChanges].
  pose proof (anchor_applyChange keep doc change bks updated) as Hone.
  destruct (applyChange keep doc change bks updated) as [bks' [updated'|e]];
    cbn [fst] in Hone; [|done].
  etrans; [apply IH|done].
Qed.

(** X8: whatever the edit, the sticky engine only moves bookmarks to
    other lines or removes them: the bookmarks left in the file are
    bookmarks it held before, in the order they had, each with the column
    and the label it had; so the engine never adds a bookmark, never
    changes a label or a column and never reorders, and the file keeps its
    path. *)
Theorem updateStickyGlobalBookmarks_keeps_anchors (keepBookmarksOnLineDelete : bool)
    (contentChanges : list TextDocumentContentChangeEvent)
    (globalFile : GlobalFile) (document : TextDocument) :
  let after :=
    fst (updateStickyGlobalBookmarks keepBookmarksOnLineDelete contentChanges
           globalFile document) in
  anchor <$> bookmarks after `sublist_of` anchor <$> bookmarks globalFile
  ∧ (length (bookmarks after) <= length (bookmarks globalFile))%nat
  ∧ path after = path globalFile.
Proof.
  intros after.
  assert (Hsub : anchor <$> bookmarks after `sublist_of` anchor <$> bookmarks globalFile).
  { subst after. unfold updateStickyGlobalBookmarks.
    destruct contentChanges as [|change rest]; [done|].
    pose proof (anchor_applyChanges keepBookmarksOnLineDelete document (change :: rest)
                  (bookmarks globalFile) false) as Hsub.
    by destruct (applyChanges _ _ _ _ _). }
  split; [done|]. split.
  - apply sublist_length in Hsub. by rewrite !length_fmap in Hsub.
  - subst after. unfold updateStickyGlobalBookmarks.
    destruct contentChanges as [|change rest]; [done|].
    by destruct (applyChanges _ _ _ _ _).
Qed.

Lemma startCharacter_total (document : TextDocument) (eventLine eventChar : Z) :
  eventChar <= 0 ∨ 0 <= eventLine < lineCount document →
  ∃ c, startCharacter document eventLine eventChar = Returns c.
Proof.
  intros H. unfold startCharacter. destruct (eventChar >? 0) eqn:Hpos; [|by eexists].
  destruct H as [H | H]; [lia|].
  destruct (lineAt_within document eventLine) as [t ->]; [lia..|].
  destruct (bool_decide _); by eexists.
Qed.

Lemma applyChange_returns keep doc change (bks : list Bookmark) updated :
  character (range_start change) <= 0
  ∨ 0 <= pos_line (range_start change) < lineCount doc →
  ∃ updated', snd (applyChange keep doc change bks updated) = Returns updated'.
Proof.
  intros H. destruct (startCharacter_total doc _ _ H) as [c Hc].
  unfold applyChange.
  destruct (negb (includesNewline (text change)) && negb _); [by eexists|].
  rewrite Hc.
  destruct (includesNewline (text change)).
  - rewrite shiftAdded_spec.
    destruct (pos_line (range_start change) <? pos_line (range_end change));
      [|by eexists].
    destruct (removeDeleted _ _ _ _ _ _) as [bks2 updated2].
    rewrite (shiftDeleted_returns _ _ _ _ _ _ _ Hc). by eexists.
  - destruct (pos_line (range_start change) <? pos_line (range_end change));
      [|by eexists].
    destruct (removeDeleted _ _ _ _ _ _) as [bks2 updated2].
    rewrite (shiftDeleted_returns _ _ _ _ _ _ _ Hc). by eexists.
Qed.

Lemma applyChanges_returns keep doc changes (bks : list Bookmark) updated :
  Forall (fun change =>
            character (range_start change) <= 0
            ∨ 0 <= pos_line (range_start change) < lineCount doc) changes →
  ∃ updated', snd (applyChanges keep doc changes bks updated) = Returns updated'.
Proof.
  intros Hall. revert bks updated.
  induction Hall as [|change rest Hchange _ IH]; intros bks updated; [by eexists|].
  cbn [applyChanges].
  destruct (applyChange_returns keep doc change bks updated Hchange) as [u Hu].
  destruct (applyChange keep doc change bks updated) as [bks' r]. cbn [snd] in Hu.
  subst r. apply IH.
Qed.

Lemma sticky_returns keep changes globalFile doc :
  Forall (fun change =>
            character (range_start change) <= 0
            ∨ 0 <= pos_line (range_start change) < lineCount doc) changes →
  ∃ updated,
    snd (updateStickyGlobalBookmarks keep changes globalFile doc) = Returns updated.
Proof.
  intros Hall. unfold updateStickyGlobalBookmarks.
  destruct changes as [|change rest] eqn:Heq; [by eexists|]. rewrite <- Heq in *.
  destruct (applyChanges_returns keep doc changes (bookmarks globalFile) false Hall)
    as [u Hu].
  destruct (applyChanges _ _ _ _ _) as [bks r]. cbn [snd] in *. by eexists.
Qed.

(** X9: the engine reads the text of the line an edit starts on only for
    an edit that starts behind column 0; when every such edit starts on a
    line the document has, the engine returns its result and does not
    throw, whatever the bookmarks and the edits are. *)
Theorem updateStickyGlobalBookmarks_returns (keepBookmarksOnLineDelete : bool)
    (contentChanges : list TextDocumentContentChangeEvent)
    (globalFile : GlobalFile) (document : TextDocument) :
  Forall (fun change =>
            character (range_start change) <= 0
            ∨ 0 <= pos_line (range_start change) < lineCount document)
    contentChanges →
  ∃ updated,
    snd (updateStickyGlobalBookmarks keepBookmarksOnLineDelete contentChanges
           globalFile document) = Returns updated.
Proof. apply sticky_returns. Qed.

Lemma updateStickyGlobalBookmarks_returns_witness :
  ∃ updated,
    snd (updateStickyGlobalBookmarks false
           [mkChange (mkPosition 4 3) (mkPosition 7 0) [];
            mkChange (mkPosition 40 0) (mkPosition 40 0) threeNewlines]
           store259 tenLines) = Returns updated.
Proof.
  apply updateStickyGlobalBookmarks_returns.
  constructor; [right; vm_compute; split; [discriminate|reflexivity]|].
  constructor; [left; simpl; lia|constructor].
Defined.

Section StickyHandler.

Context {host : Host}.

Lemma withBookmarks_same (m : Manager) (file : nat) (globalFile : GlobalFile) :
  _files m !! file = Some globalFile →
  withBookmarks file (bookmarks globalFile) m = m.
Proof.
  intros Hfile. unfold withBookmarks, setFiles. destruct m as [files state events].
  simpl in *. f_equal. apply list_eq. intros i.
  rewrite list_lookup_alter. case_decide as Heq; [subst i|done].
  rewrite Hfile. by destruct globalFile.
Qed.

(** X10: in the handler of [onDidChangeTextDocument], when no edit makes
    the engine throw, the global manager is either left exactly as it was
    or has saved and notified after the adjustment: its files never differ
    from what was last saved because of a sticky adjustment. *)
Theorem stickyGlobal_saves_what_it_changes (keepBookmarksOnLineDelete : bool)
    (uri : Uri) (contentChanges : list TextDocumentContentChangeEvent)
    (document : TextDocument) (m : Manager) :
  Forall (fun change =>
            character (range_start change) <= 0
            ∨ 0 <= pos_line (range_start change) < lineCount document)
    contentChanges →
  let m' := stickyGlobal keepBookmarksOnLineDelete uri contentChanges document m in
  m' = m ∨ m' = notifyAndSave (setFiles (_files m') m).
Proof.
  intros Hall m'. subst m'. unfold stickyGlobal.
  destruct (fromUri (Some uri) m) as [file|]; [|by left].
  destruct (_files m !! file) as [globalFile|] eqn:Hfile; [|by left].
  destruct (0 <? Z.of_nat (length (bookmarks globalFile))); [|by left].
  destruct (sticky_returns keepBookmarksOnLineDelete contentChanges globalFile
              document Hall) as [updated Hret].
  pose proof (applyChanges_false keepBookmarksOnLineDelete document contentChanges
                (bookmarks globalFile) false) as Hfalse.
  destruct (updateStickyGlobalBookmarks _ _ _ _) as [globalFile' r] eqn:Hsticky.
  cbn [snd] in Hret. subst r. destruct updated.
  - right. unfold notifyAndSave. rewrite files_fire, files_save.
    by destruct m.
  - left. unfold updateStickyGlobalBookmarks in Hsticky.
    destruct contentChanges as [|change rest].
    + injection Hsticky as <-. by apply withBookmarks_same.
    + destruct (applyChanges _ _ _ _ _) as [bks r]. injection Hsticky as <- ->.
      cbn [fst snd] in Hfalse. destruct (Hfalse eq_refl) as [-> _].
      cbn [bookmarks setBookmarks]. by apply withBookmarks_same.
Qed.

End StickyHandler.

Lemma stickyGlobal_saves_what_it_changes_witness :
  let m' :=
    stickyGlobal (host := posix) false appTs
      [mkChange (mkPosition 5 0) (mkPosition 5 0) threeNewlines] tenLines
      (managerOf [plain 2; plain 5; plain 9]) in
  m' = managerOf [plain 2; plain 5; plain 9]
  ∨ m' = notifyAndSave (host := posix)
           (setFiles (_files m') (managerOf [plain 2; plain 5; plain 9])).
Proof.
  apply (stickyGlobal_saves_what_it_changes (host := posix)).
  constructor; [left; simpl; lia|constructor].
Defined.

(** ** Counting ([global/globalBookmarks.ts]) *)

Lemma count_from (files : list GlobalFile) (total : Z) :
  fold_left (fun total file => total + Z.of_nat (length (bookmarks file))) files total
  = total
    + fold_left (fun total file => total + Z.of_nat (length (bookmarks file))) files 0.
Proof.
  revert total. induction files as [|f files IH]; intros total; simpl; [lia|].
  rewrite IH. rewrite (IH (0 + _)). lia.
Qed.

Lemma countBookmarks_cons f files state events :
  countBookmarks (mkManager (f :: files) state events)
  = Z.of_nat (length (bookmarks f)) + countBookmarks (mkManager files state events).
Proof. unfold countBookmarks. simpl. by rewrite count_from. Qed.

Lemma countBookmarks_files m m' : _files m = _files m' → countBookmarks m = countBookmarks m'.
Proof. unfold countBookmarks. by intros ->. Qed.

Lemma countBookmarks_nonneg m : 0 <= countBookmarks m.
Proof.
  destruct m as [files state events]. induction files as [|f files IH]; [done|].
  rewrite countBookmarks_cons. lia.
Qed.

Lemma countBookmarks_withBookmarks (m : Manager) (file : nat) (f : GlobalFile)
    (bks : list Bookmark) :
  _files m !! file = Some f →
  countBookmarks (withBookmarks file bks m)
  = countBookmarks m - Z.of_nat (length (bookmarks f)) + Z.of_nat (length bks).
Proof.
  destruct m as [files state events]. unfold withBookmarks, setFiles. simpl.
  revert file. induction files as [|g files IH]; intros file Hfile; [done|].
  destruct file as [|file]; simpl in Hfile.
  - injection Hfile as ->. cbn [alter list_alter]. rewrite !countBookmarks_cons. simpl. lia.
  - change (alter (setBookmarks bks) (S file) (g :: files))
      with (g :: alter (setBookmarks bks) file files).
    rewrite !countBookmarks_cons. rewrite (IH _ Hfile). lia.
Qed.

Lemma countBookmarks_snoc_empty (m : Manager) (p : jsstring) :
  countBookmarks (setFiles (_files m ++ [mkGlobalFile p []]) m) = countBookmarks m.
Proof.
  destruct m as [files state events]. unfold setFiles. simpl.
  induction files as [|g files IH]; [done|].
  cbn [app]. rewrite !countBookmarks_cons. by rewrite IH.
Qed.

Lemma length_insertBy {A} (key : A → Z) (x : A) (a : list A) :
  length (insertBy key x a) = S (length a).
Proof. by rewrite (insertBy_perm key x a). Qed.

Lemma length_sortBy {A} (key : A → Z) (a : list A) : length (sortBy key a) = length a.
Proof. by rewrite (sortBy_perm key a). Qed.

Section Counting.

Context {host : Host}.

Lemma getOrCreateFile_lookup uri m :
  ∃ f, _files (fst (getOrCreateFile uri m)) !! snd (getOrCreateFile uri m) = Some f
       ∧ bookmarks f = getBookmarksForFile uri m
       ∧ countBookmarks (fst (getOrCreateFile uri m)) = countBookmarks m.
Proof.
  pose proof (getOrCreateFile_spec uri m) as Hspec.
  unfold getOrCreateFile in *.
  destruct (findFile (normalizePath (fsPath uri)) (_files m)) as [file|] eqn:Hfind.
  - destruct Hspec as (Hfound & Hbks & _). cbn [fst snd].
    apply findFile_Some in Hfound as (f & Hf & _). exists f. split; [done|].
    split; [|done]. rewrite <- Hbks. unfold bookmarksOf. by rewrite Hf.
  - destruct Hspec as (Hfound & Hbks & _). cbn [fst snd] in *.
    apply findFile_Some in Hfound as (f & Hf & _). exists f. split; [done|].
    split; [|apply countBookmarks_snoc_empty].
    rewrite <- Hbks. unfold bookmarksOf. by rewrite Hf.
Qed.

(** X11: [toggle] changes the number of global bookmarks
    ([countBookmarks], the number on the badge of the side bar) by exactly
    one, up when it returns [true] and down when it returns [false], but
    for a call with a label on a line that has a bookmark, which returns
    [false] and leaves the number as it is. *)
Theorem toggle_countBookmarks (uri : Uri) (l c : Z) (lbl : option jsstring)
    (m : Manager) :
  countBookmarks (fst (toggle uri l c lbl m))
  = countBookmarks m
    + (if snd (toggle uri l c lbl m) then 1 else if truthy lbl then 0 else -1).
Proof.
  unfold toggle.
  destruct (getOrCreateFile_lookup uri m) as (f & Hf & Hbks & Hcount).
  destruct (getOrCreateFile uri m) as [m1 file] eqn:Hcreate. cbn [fst snd] in *.
  assert (Hof : bookmarksOf m1 file = bookmarks f) by (unfold bookmarksOf; by rewrite Hf).
  rewrite Hof.
  destruct (indexOf_from_cases (bookmarks f) l 0) as [[Hidx Hno] | (k & b & Hidx & Hk & _)];
    rewrite Hidx.
  - (* no bookmark on the line: one is added *)
    replace (-1 >=? 0) with false by lia. cbn [fst snd].
    rewrite (countBookmarks_files _ (addBookmark uri l c lbl m1))
      by (by rewrite files_fire, files_save).
    unfold addBookmark.
    destruct (getOrCreateFile_lookup uri m1) as (f' & Hf' & Hbks' & Hcount').
    destruct (getOrCreateFile uri m1) as [m2 file'] eqn:Hcreate'. cbn [fst snd] in *.
    rewrite (countBookmarks_files _ (withBookmarks file'
               (sortBy line (bookmarksOf m2 file' ++ [mkBookmark l c (Some (orEmpty lbl))]))
               m2)) by (by rewrite files_fire).
    rewrite (countBookmarks_withBookmarks _ _ f' _ Hf').
    rewrite length_sortBy, length_app. unfold bookmarksOf. rewrite Hf'. simpl. zlia.
  - (* a bookmark on the line *)
    replace (0 + Z.of_nat k >=? 0) with true by lia. cbn [fst snd].
    apply lookup_lt_Some in Hk as Hlt.
    destruct (truthy lbl).
    + rewrite (countBookmarks_files _ (withBookmarks file
                 (alter (setLabel (orEmpty lbl)) (Z.to_nat (0 + Z.of_nat k)) (bookmarks f))
                 m1)) by (by rewrite files_fire, files_save, files_fire).
      rewrite (countBookmarks_withBookmarks _ _ f _ Hf), length_alter. lia.
    + unfold removeBookmark. rewrite Hof.
      rewrite (countBookmarks_files _ (withBookmarks file
                 (splice1 (bookmarks f) (0 + Z.of_nat k)) m1))
        by (by rewrite files_fire, files_save, files_fire).
      rewrite (countBookmarks_withBookmarks _ _ f _ Hf).
      rewrite Z.add_0_l, splice1_at, length_delete by done. lia.
Qed.

End Counting.

(** X12: the three counters of the manager agree: [hasAnyBookmark] holds
    exactly when [countBookmarks] is positive and exactly when
    [countFilesWithBookmarks] is, and there are never more files with
    bookmarks than bookmarks, nor more than files. *)
Theorem counters_agree (m : Manager) :
  hasAnyBookmark m = (0 <? countBookmarks m)
  ∧ hasAnyBookmark m = (0 <? countFilesWithBookmarks m)
  ∧ countFilesWithBookmarks m <= countBookmarks m
  ∧ countFilesWithBookmarks m <= Z.of_nat (length (_files m)).
Proof.
  destruct m as [files state events].
  induction files as [|f files (IH1 & IH2 & IH3 & IH4)]; [done|].
  pose proof (countBookmarks_nonneg (mkManager files state events)) as Hnn.
  rewrite countBookmarks_cons.
  unfold hasAnyBookmark, countFilesWithBookmarks in *. cbn [_files existsb List.filter] in *.
  rewrite IH1. rewrite IH1 in IH2. clear IH1.
  destruct (0 <? Z.of_nat (length (bookmarks f))) eqn:Hf; cbn [length orb].
  - repeat split; zlia.
  - assert (Hz : Z.of_nat (length (bookmarks f)) = 0) by lia.
    rewrite Hz, Z.add_0_l. repeat split; [done|done|zlia].
Qed.

(** ** Paths ([global/globalBookmarks.ts]) *)

Lemma collapseSlashes_head (s : jsstring) : head (collapseSlashes s) = head s.
Proof.
  induction s as [|c rest IH]; [done|]. simpl.
  destruct (c =? 47)%N eqn:Hc; [|done].
  destruct rest as [|c' rest']; [done|].
  destruct (c' =? 47)%N eqn:Hc'; [|done].
  rewrite IH. simpl. f_equal. apply N.eqb_eq in Hc, Hc'. congruence.
Qed.

Lemma collapseSlashes_cons_cons (c c' : N) (rest : jsstring) :
  collapseSlashes (c :: c' :: rest)
  = if (c =? 47)%N && (c' =? 47)%N then collapseSlashes (c' :: rest)
    else c :: collapseSlashes (c' :: rest).
Proof. simpl. by destruct (c =? 47)%N, (c' =? 47)%N. Qed.

Lemma collapseSlashes_idempotent (s : jsstring) :
  collapseSlashes (collapseSlashes s) = collapseSlashes s.
Proof.
  induction s as [|c rest IH]; [done|].
  destruct rest as [|c' rest'].
  { simpl. destruct (c =? 47)%N eqn:Hc; simpl; by rewrite Hc. }
  rewrite collapseSlashes_cons_cons.
  destruct ((c =? 47)%N && (c' =? 47)%N) eqn:Hboth; [exact IH|].
  pose proof (collapseSlashes_head (c' :: rest')) as Hhead.
  destruct (collapseSlashes (c' :: rest')) as [|d t] eqn:Hrest; [done|].
  simpl in Hhead. injection Hhead as ->.
  rewrite collapseSlashes_cons_cons, Hboth. by rewrite IH.
Qed.

Lemma collapseSlashes_single (s : jsstring) (i : nat) :
  collapseSlashes s !! i = Some 47%N → collapseSlashes s !! S i ≠ Some 47%N.
Proof.
  revert i. induction s as [|c rest IH]; intros i; [done|].
  destruct rest as [|c' rest'].
  { simpl. destruct (c =? 47)%N; by destruct i. }
  rewrite collapseSlashes_cons_cons.
  destruct ((c =? 47)%N && (c' =? 47)%N) eqn:Hboth; [apply IH|].
  destruct i as [|i]; [|apply IH].
  intros [= ->]. change (collapseSlashes (c' :: rest') !! 0%nat ≠ Some 47%N).
  pose proof (collapseSlashes_head (c' :: rest')) as Hhead.
  destruct (collapseSlashes (c' :: rest')) as [|d t]; [done|].
  simpl in Hhead. injection Hhead as ->. simpl. intros [= ->]. done.
Qed.

Lemma collapseSlashes_Forall (P : N → Prop) (s : jsstring) :
  Forall P s → Forall P (collapseSlashes s).
Proof.
  induction 1 as [|c rest Hc Hrest IH]; [done|]. simpl.
  destruct (c =? 47)%N; [|by constructor].
  destruct rest as [|c' rest']; [by constructor|].
  destruct (c' =? 47)%N; [done|by constructor].
Qed.

Lemma slashes_none (s : jsstring) : Forall (fun c => c ≠ 92%N) (slashes s).
Proof.
  induction s as [|c rest IH]; [constructor|]. simpl.
  constructor; [|done]. destruct (c =? 92)%N eqn:Hc; [done|]. by apply N.eqb_neq.
Qed.

Lemma slashes_id (s : jsstring) : Forall (fun c => c ≠ 92%N) s → slashes s = s.
Proof.
  induction 1 as [|c rest Hc _ IH]; [done|]. simpl. rewrite IH.
  apply N.eqb_neq in Hc. by rewrite Hc.
Qed.

Lemma collapseSlashes_others (s : jsstring) :
  List.filter (fun c => negb (c =? 47)%N) (collapseSlashes s)
  = List.filter (fun c => negb (c =? 47)%N) s.
Proof.
  induction s as [|c rest IH]; [done|]. simpl.
  destruct (c =? 47)%N eqn:Hc; cbn [negb].
  - destruct rest as [|c' rest']; [by simpl; rewrite Hc|].
    destruct (c' =? 47)%N eqn:Hc'; [exact IH|].
    cbn [List.filter]. rewrite Hc. cbn [negb]. exact IH.
  - cbn [List.filter]. rewrite Hc. cbn [negb]. by rewrite IH.
Qed.

Lemma slashes_others (s : jsstring) :
  List.filter (fun c => negb (c =? 47)%N) (slashes s)
  = List.filter (fun c => negb (c =? 47)%N && negb (c =? 92)%N) s.
Proof.
  induction s as [|c rest IH]; [done|]. cbn [slashes List.map List.filter].
  destruct (c =? 92)%N eqn:Hc.
  - apply N.eqb_eq in Hc as ->. simpl. exact IH.
  - cbn [negb]. rewrite andb_true_r. fold (slashes rest).
    destruct (c =? 47)%N; cbn [negb]; by rewrite IH.
Qed.

(** X13: on a platform other than Windows, [normalizePath] returns a
    path without a backslash and without two slashes in a row; it is
    idempotent, and it touches nothing but the separators: the other code
    units of the path are all kept, in their order. *)
Theorem normalizePath_posix `{host : Host} (filePath : jsstring) :
  win32 = false →
  let p := normalizePath filePath in
  normalizePath p = p
  ∧ Forall (fun c => c ≠ 92%N) p
  ∧ (∀ i, p !! i = Some 47%N → p !! S i ≠ Some 47%N)
  ∧ List.filter (fun c => negb (c =? 47)%N && negb (c =? 92)%N) p
    = List.filter (fun c => negb (c =? 47)%N && negb (c =? 92)%N) filePath.
Proof.
  intros Hposix p. subst p. unfold normalizePath. rewrite Hposix.
  assert (Hnone : Forall (fun c => c ≠ 92%N) (collapseSlashes (slashes filePath)))
    by apply collapseSlashes_Forall, slashes_none.
  split; [|split; [done|split]].
  - by rewrite (slashes_id _ Hnone), collapseSlashes_idempotent.
  - apply collapseSlashes_single.
  - rewrite <- (slashes_others filePath), <- (collapseSlashes_others (slashes filePath)).
    rewrite <- (slashes_id _ Hnone) at 2. by rewrite slashes_others.
Qed.

Lemma normalizePath_posix_witness :
  normalizePath (host := posix) (lit "C:\src\\app//main.ts") = lit "C:/src/app/main.ts"
  ∧ normalizePath (host := posix) (lit "C:/src/app/main.ts") = lit "C:/src/app/main.ts".
Proof.
  split; [reflexivity|].
  exact (proj1 (normalizePath_posix (host := posix) (lit "C:\src\\app//main.ts") eq_refl)).
Defined.

(** ** One file for each path *)

Lemma findFile_None (p : jsstring) (files : list GlobalFile) :
  findFile p files = None → p ∉ path <$> files.
Proof.
  induction files as [|f files IH]; [by intros _ ?%elem_of_nil|].
  rewrite findFile_cons. destruct (decide (path f = p)) as [|Hne]; [done|].
  destruct (findFile p files); [done|]. intros _.
  rewrite fmap_cons. intros [?|?]%elem_of_cons; [done|]. by apply IH.
Qed.

Lemma paths_withBookmarks file bks m :
  path <$> _files (withBookmarks file bks m) = path <$> _files m.
Proof. unfold withBookmarks, setFiles. simpl. apply paths_alter_bookmarks. Qed.

Lemma paths_alter (f : GlobalFile → GlobalFile) (i : nat) (files : list GlobalFile) :
  (∀ g, path (f g) = path g) → path <$> alter f i files = path <$> files.
Proof.
  intros Hf. revert i. induction files as [|g files IH]; intros [|i]; [done..| |].
  - cbn [alter list_alter]. by rewrite !fmap_cons, Hf.
  - change (alter f (S i) (g :: files)) with (g :: alter f i files).
    by rewrite !fmap_cons, IH.
Qed.

Section OnePerPath.

Context {host : Host}.

Lemma onePerPath_paths m m' :
  path <$> _files m' = path <$> _files m → onePerPath m → onePerPath m'.
Proof. unfold onePerPath. by intros ->. Qed.

Lemma getOrCreateFile_onePerPath uri m :
  onePerPath m → onePerPath (fst (getOrCreateFile uri m)).
Proof.
  unfold getOrCreateFile, onePerPath.
  destruct (findFile (normalizePath (fsPath uri)) (_files m)) eqn:Hfind; [done|].
  intros Hnd. cbn [fst setFiles _files]. rewrite fmap_app. apply NoDup_app.
  split; [done|]. split; [|apply NoDup_singleton].
  intros p Hp [= ->]%list_elem_of_singleton. by apply findFile_None in Hfind.
Qed.

Lemma addBookmark_onePerPath uri l c lbl m :
  onePerPath m → onePerPath (addBookmark uri l c lbl m).
Proof.
  intros Hnd. unfold addBookmark.
  pose proof (getOrCreateFile_onePerPath uri m Hnd) as Hnd'.
  destruct (getOrCreateFile uri m) as [m1 file]. cbn [fst] in Hnd'.
  eapply onePerPath_paths; [|exact Hnd'].
  by rewrite files_fire, paths_withBookmarks.
Qed.

Lemma removeBookmark_onePerPath file index l m :
  onePerPath m → onePerPath (removeBookmark file index l m).
Proof.
  apply onePerPath_paths. unfold removeBookmark.
  by rewrite files_fire, paths_withBookmarks.
Qed.

Lemma toggle_onePerPath uri l c lbl m :
  onePerPath m → onePerPath (fst (toggle uri l c lbl m)).
Proof.
  intros Hnd. unfold toggle.
  pose proof (getOrCreateFile_onePerPath uri m Hnd) as Hnd'.
  destruct (getOrCreateFile uri m) as [m1 file]. cbn [fst] in Hnd'.
  destruct (_ >=? 0); cbn [fst].
  - eapply onePerPath_paths; [|exact Hnd']. rewrite files_fire, files_save.
    destruct (truthy lbl).
    + by rewrite files_fire, paths_withBookmarks.
    + unfold removeBookmark. by rewrite files_fire, paths_withBookmarks.
  - eapply onePerPath_paths; [|exact (addBookmark_onePerPath uri l c lbl m1 Hnd')].
    by rewrite files_fire, files_save.
Qed.

Lemma toggleSelections_onePerPath forceState uri selections toggledLines m :
  onePerPath m → onePerPath (toggleSelections forceState uri selections toggledLines m).
Proof.
  revert toggledLines m.
  induction selections as [|sel rest IH]; intros toggledLines m Hnd; [done|].
  cbn [toggleSelections]. destruct (bool_decide _); [by apply IH|].
  apply IH. destruct forceState as [[|]|].
  - destruct (fromUri (Some uri) m); [destruct (_ <? 0)|];
      [by apply addBookmark_onePerPath|done|by apply addBookmark_onePerPath].
  - destruct (fromUri (Some uri) m); [|done].
    destruct (_ >=? 0); [by apply removeBookmark_onePerPath|done].
  - by apply toggle_onePerPath.
Qed.

Lemma toggleLabeledSelections_onePerPath uri selections toggledLines lbl m :
  onePerPath m → onePerPath (toggleLabeledSelections uri selections toggledLines lbl m).
Proof.
  revert toggledLines m.
  induction selections as [|sel rest IH]; intros toggledLines m Hnd; [done|].
  cbn [toggleLabeledSelections]. destruct (bool_decide _); [by apply IH|].
  by apply IH, toggle_onePerPath.
Qed.

Lemma notifyAndSave_onePerPath m : onePerPath m → onePerPath (notifyAndSave m).
Proof. apply onePerPath_paths. unfold notifyAndSave. by rewrite files_fire, files_save. Qed.

Lemma updateLabel_onePerPath file index l c newLabel m :
  onePerPath m → onePerPath (updateLabel file index l c newLabel m).
Proof.
  apply onePerPath_paths. unfold updateLabel. rewrite files_fire, files_save.
  destruct (eqb newLabel []); by rewrite files_fire, paths_withBookmarks.
Qed.

(** X14: the manager keeps one file for each path. If no two of its files
    have the same path, that is still so after [toggle], after the
    commands [bookmarks.toggleGlobal], [bookmarks.toggleGlobalLabeled],
    [_bookmarks.deleteGlobalBookmark], [_bookmarks.editGlobalLabel] and
    [_bookmarks.clearGlobalFromFile], after [clearAll], and after a sticky
    adjustment: a file is added only under a path that no file has. *)
Theorem onePerPath_preserved (m : Manager) :
  onePerPath m →
  (∀ uri l c lbl, onePerPath (fst (toggle uri l c lbl m)))
  ∧ (∀ toggleMode activeTextEditor,
       onePerPath (fst (toggleGlobal toggleMode activeTextEditor m)))
  ∧ (∀ suggestion useSelection showInputBox activeTextEditor,
       onePerPath (fst (toggleGlobalLabeled suggestion useSelection showInputBox
                          activeTextEditor m)))
  ∧ (∀ node, onePerPath (deleteGlobalBookmark node m))
  ∧ (∀ showInputBox node, onePerPath (editGlobalLabel showInputBox node m))
  ∧ (∀ node, onePerPath (clearGlobalFromFile node m))
  ∧ onePerPath (clearAll m)
  ∧ (∀ keep uri contentChanges document,
       onePerPath (stickyGlobal keep uri contentChanges document m)).
Proof.
  intros Hnd. repeat split.
  - intros. by apply toggle_onePerPath.
  - intros toggleMode [editor|]; [|done]. unfold toggleGlobal.
    destruct (searchEditor editor); [done|]. cbn [fst].
    by apply notifyAndSave_onePerPath, toggleSelections_onePerPath.
  - intros suggestion useSelection showInputBox [editor|]; [|done].
    unfold toggleGlobalLabeled. destruct (searchEditor editor); [done|].
    destruct (selections editor) as [|first others]; [done|].
    destruct (negb (eqb suggestion []) && useSelection); cbn [fst].
    + by apply notifyAndSave_onePerPath, toggleLabeledSelections_onePerPath.
    + destruct (showInputBox _) as [lbl|]; [|done].
      destruct (eqb lbl [] && _); [done|]. cbn [fst].
      by apply notifyAndSave_onePerPath, toggleLabeledSelections_onePerPath.
  - intros [[|]|]; [done| |done]. by apply toggle_onePerPath.
  - intros showInputBox [[|]|]; [done| |done]. cbn [editGlobalLabel].
    destruct (fromUri _ m); [|done]. destruct (_ <? 0); [done|].
    destruct (showInputBox _); [|done]. by apply updateLabel_onePerPath.
  - intros [[|]|]; [| |done]; cbn [clearGlobalFromFile];
      (destruct (eqb _ []); [done|]);
      (eapply onePerPath_paths; [|exact Hnd]); unfold clearFile;
      rewrite files_fire, files_save;
      (destruct (findFile _ _); [by rewrite paths_withBookmarks|done]).
  - unfold clearAll, onePerPath. rewrite files_fire, files_save. simpl. constructor.
  - intros. unfold stickyGlobal.
    destruct (fromUri _ m); [|done]. destruct (_files m !! _); [|done].
    destruct (0 <? _); [|done].
    destruct (updateStickyGlobalBookmarks _ _ _ _) as [globalFile' [[|]|e]].
    + apply notifyAndSave_onePerPath. eapply onePerPath_paths; [|exact Hnd].
      apply paths_withBookmarks.
    + eapply onePerPath_paths; [|exact Hnd]. apply paths_withBookmarks.
    + eapply onePerPath_paths; [|exact Hnd]. apply paths_withBookmarks.
Qed.

End OnePerPath.

Lemma onePerPath_preserved_witness :
  onePerPath (fst (toggle (host := posix) (mkUri (lit "\src\\app.ts")) 3 0 None
                     (managerOf [plain 2]))).
Proof.
  refine (proj1 (onePerPath_preserved (host := posix) (managerOf [plain 2]) _) _ _ _ _).
  unfold onePerPath. simpl. apply NoDup_singleton.
Defined.

(** ** Saving and loading ([global/globalBookmarks.ts]) *)

Lemma filter_nonEmpty (files : list GlobalFile) :
  List.filter (fun f => 0 <? Z.of_nat (length (bookmarks f))) files
  = filter nonEmpty files.
Proof.
  induction files as [|f files IH]; [done|]. cbn [List.filter].
  destruct (decide (nonEmpty f)) as [Hne | Hempty].
  - rewrite filter_cons_True by done. rewrite <- IH.
    unfold nonEmpty in Hne. by destruct (bookmarks f).
  - rewrite filter_cons_False by done. rewrite <- IH.
    unfold nonEmpty in Hempty. destruct (bookmarks f); [done|]. by destruct Hempty.
Qed.

Lemma bookmarksAt_elem (m : Manager) (f : GlobalFile) :
  onePerPath m → f ∈ _files m → bookmarksAt (path f) m = bookmarks f.
Proof.
  unfold onePerPath, bookmarksAt, bookmarksOf. destruct m as [files state events].
  simpl. intros Hnd Hin.
  induction files as [|g files IH]; [by apply elem_of_nil in Hin|].
  rewrite findFile_cons. rewrite fmap_cons in Hnd. apply NoDup_cons in Hnd as [Hg Hnd].
  destruct (decide (path g = path f)) as [Heq | Hne].
  - simpl. apply elem_of_cons in Hin as [-> | Hin]; [done|].
    destruct Hg. rewrite Heq. apply list_elem_of_fmap. by exists f.
  - apply elem_of_cons in Hin as [-> | Hin]; [done|].
    specialize (IH Hnd Hin). destruct (findFile (path f) files) as [i|]; simpl in *; done.
Qed.

Lemma bookmarksAt_absent (m : Manager) (p : jsstring) :
  p ∉ path <$> _files m → bookmarksAt p m = [].
Proof.
  unfold bookmarksAt. intros Hp.
  destruct (findFile p (_files m)) as [i|] eqn:Hfind; [|done].
  apply findFile_Some in Hfind as (f & Hf & <-). destruct Hp.
  apply list_elem_of_fmap. exists f. split; [done|]. by eapply list_elem_of_lookup_2.
Qed.

Lemma bookmarksAt_empty (m : Manager) (p : jsstring) :
  (∀ f, f ∈ _files m → path f = p → bookmarks f = []) → bookmarksAt p m = [].
Proof.
  unfold bookmarksAt, bookmarksOf. intros Hall.
  destruct (findFile p (_files m)) as [i|] eqn:Hfind; [|done].
  apply findFile_Some in Hfind as (f & Hf & Hp). rewrite Hf.
  apply Hall; [|done]. by eapply list_elem_of_lookup_2.
Qed.

(** X15: what [save] writes, [load] reads back. When [JSON.parse] reads
    the text that [JSON.stringify] wrote as the array it was written from,
    and the paths of the files are normalised, a manager that loads the
    value stored by [save] holds the files that have a bookmark, with their
    bookmarks as they were and in the order of the files, and shows no
    message; the files without bookmarks are the only ones not to come
    back, so that, when no two files share a path, every path has the
    bookmarks it had. *)
Theorem save_then_load `{host : Host} (m m0 : Manager) :
  let toSave := filter nonEmpty (_files m) in
  Forall (fun f => normalizePath (path f) = path f) (_files m) →
  JSON_stringify toSave ≠ [] →
  JSON_parse (JSON_stringify toSave) = Returns (JSONArray (JSONFile <$> toSave)) →
  globalState m0 = globalState (save m) →
  _files (load m0) = toSave
  ∧ fired (load m0) = fired m0
  ∧ (onePerPath m → ∀ p, bookmarksAt p (load m0) = bookmarksAt p m).
Proof.
  intros toSave Hnorm Htext Hparse Hstate.
  assert (Hsame : ∀ files : list GlobalFile,
    Forall (fun f => normalizePath (path f) = path f) files →
    List.map (fun file => setPath (normalizePath (path file)) file) files = files).
  { induction 1 as [|f files Hf _ IH]; [done|]. simpl. rewrite IH, Hf. by destruct f. }
  assert (Hkept : Forall (fun f => normalizePath (path f) = path f) toSave).
  { apply Forall_forall. intros f [_ Hf]%list_elem_of_filter.
    rewrite Forall_forall in Hnorm. by apply Hnorm. }
  assert (Hsaved : globalState m0 = Some (JSON_stringify toSave)).
  { rewrite Hstate. unfold save. cbn [globalState]. rewrite filter_nonEmpty.
    fold toSave. by rewrite (Hsame _ Hkept). }
  assert (Hload : load m0 = setFiles toSave m0).
  { unfold load. rewrite Hsaved. cbn [default id]. unfold eqb.
    rewrite bool_decide_false by done. cbn [negb]. rewrite Hparse.
    by rewrite mapElements_files, countLoaded_files, (Hsame _ Hkept). }
  rewrite Hload. split; [done|]. split; [done|]. intros Hnd p.
  destruct (decide (p ∈ path <$> toSave)) as [Hin | Hout].
  - apply list_elem_of_fmap in Hin as (f & -> & Hf).
    rewrite (bookmarksAt_elem (setFiles toSave m0) f); [|shelve|done].
    apply list_elem_of_filter in Hf as [_ Hf]. by rewrite bookmarksAt_elem.
    Unshelve.
    unfold onePerPath. cbn [setFiles _files]. subst toSave.
    eapply sublist_NoDup; [exact Hnd|]. apply fmap_sublist, sublist_filter.
  - rewrite bookmarksAt_absent by done. symmetry. apply bookmarksAt_empty.
    intros f Hf <-. destruct (decide (nonEmpty f)) as [Hne | Hempty].
    + destruct Hout. apply list_elem_of_fmap. exists f. split; [done|].
      by apply list_elem_of_filter.
    + unfold nonEmpty in Hempty. by destruct (bookmarks f); [|destruct Hempty].
Qed.

Lemma save_then_load_witness :
  _files (load (host := posixStoring)
            (mkManager [] (globalState (save (host := posixStoring)
                                          (managerOf [plain 5; plain 2]))) []))
  = [mkGlobalFile (lit "/src/app.ts") [plain 5; plain 2]].
Proof.
  refine (proj1 (save_then_load (host := posixStoring) (managerOf [plain 5; plain 2])
                   (mkManager [] (globalState (save (host := posixStoring)
                                                 (managerOf [plain 5; plain 2]))) [])
                   _ _ _ _)).
  - by repeat constructor.
  - by vm_compute.
  - by vm_compute.
  - reflexivity.
Defined.

(** ** Clearing and removing ([global/globalBookmarks.ts]) *)

Section Clearing.

Context {host : Host}.


End Clearing.

Lemma bookmarksOf_withBookmarks (m : Manager) (file : nat) (bks : list Bookmark) :
  (file < length (_files m))%nat → bookmarksOf (withBookmarks file bks m) file = bks.
Proof.
  intros Hlt. unfold bookmarksOf, withBookmarks, setFiles. cbn [_files].
  rewrite list_lookup_alter. rewrite decide_True by done.
  destruct (lookup_lt_is_Some_2 _ _ Hlt) as [f ->]. done.
Qed.

Lemma bookmarksOf_withBookmarks_ne (m : Manager) (file other : nat)
    (bks : list Bookmark) :
  other ≠ file → bookmarksOf (withBookmarks file bks m) other = bookmarksOf m other.
Proof.
  intros Hne. unfold bookmarksOf, withBookmarks, setFiles. cbn [_files].
  rewrite list_lookup_alter. by rewrite decide_False.
Qed.

(** X17: [removeBookmarkByLine] returns [true] exactly when the file has
    a bookmark on the line; on a strictly sorted file it leaves all the
    bookmarks but that one, in their order, and none on the line. It
    touches no other file, and, unlike [removeBookmark] and [toggle], it
    fires no event and saves nothing. *)
Theorem removeBookmarkByLine_removes (file : nat) (l : Z) (m : Manager) :
  strictlySorted (bookmarksOf m file) →
  let m' := fst (removeBookmarkByLine file l m) in
  (snd (removeBookmarkByLine file l m) = true ↔ markerOn l (bookmarksOf m file))
  ∧ bookmarksOf m' file = filter (fun b => line b ≠ l) (bookmarksOf m file)
  ∧ noMarkerOn l (bookmarksOf m' file)
  ∧ (∀ other, other ≠ file → bookmarksOf m' other = bookmarksOf m other)
  ∧ fired m' = fired m
  ∧ globalState m' = globalState m.
Proof.
  intros Hs m'. subst m'. unfold removeBookmarkByLine.
  pose proof (splice_found_geb (bookmarksOf m file) l (strictlySorted_NoDup _ Hs)) as Hsplice.
  assert (Hnone : noMarkerOn l (filter (fun b => line b ≠ l) (bookmarksOf m file))).
  { apply Forall_forall. by intros b [Hb _]%list_elem_of_filter. }
  destruct (indexOf_from_cases (bookmarksOf m file) l 0)
    as [[Hidx Hno] | (k & b & Hidx & Hk & Hb & _)]; rewrite Hidx in *.
  - replace (-1 >=? 0) with false in * by lia. cbn [fst snd]. rewrite <- Hsplice.
    split_and!; try done. split; [done|].
    intros Hm. exfalso. unfold markerOn in Hm. unfold noMarkerOn in Hno.
    rewrite Exists_exists in Hm. destruct Hm as (x & Hx & Hxl).
    rewrite Forall_forall in Hno. by apply (Hno x Hx).
  - replace (0 + Z.of_nat k >=? 0) with true in * by lia. cbn [fst snd].
    assert (Hlt : (file < length (_files m))%nat).
    { unfold bookmarksOf in Hk. destruct (_files m !! file) eqn:Hf; [|done].
      by apply lookup_lt_Some in Hf. }
    rewrite bookmarksOf_withBookmarks by done. rewrite Hsplice.
    split_and!; try done.
    + split; [|done]. intros _. apply Exists_exists. exists b. split; [|done].
      by eapply list_elem_of_lookup_2.
    + intros other Hne. by apply bookmarksOf_withBookmarks_ne.
Qed.

Lemma removeBookmarkByLine_removes_witness :
  bookmarksOf (fst (removeBookmarkByLine 0 5 (managerOf [plain 2; plain 5; plain 9]))) 0
  = [plain 2; plain 9].
Proof.
  refine (proj1 (proj2 (removeBookmarkByLine_removes 0 5
                          (managerOf [plain 2; plain 5; plain 9]) _))).
  unfold strictlySorted. repeat constructor.
Defined.

(** ** The commands of the side bar ([extension.ts]) *)

Lemma alter_const_insert {A} (x : A) (k : nat) (l : list A) :
  alter (fun _ => x) k l = <[k := x]> l.
Proof.
  revert k. induction l as [|a l IH]; intros [|k]; [done..|].
  change (alter (fun _ => x) (S k) (a :: l)) with (a :: alter (fun _ => x) k l).
  by rewrite IH.
Qed.

Section SideBarCommands.

Context {host : Host}.

Lemma updateLabel_bookmarks uri file index l c newLabel m :
  findFile (normalizePath (fsPath uri)) (_files m) = Some file →
  getBookmarksForFile uri (updateLabel file index l c newLabel m)
  = <[Z.to_nat index := mkBookmark l c (Some newLabel)]> (getBookmarksForFile uri m).
Proof.
  intros Hfind. unfold updateLabel.
  rewrite (getBookmarksForFile_files uri _
             (withBookmarks file
                (alter (fun _ => mkBookmark l c (Some newLabel)) (Z.to_nat index)
                   (bookmarksOf m file)) m)).
  2:{ rewrite files_fire, files_save. by destruct (eqb newLabel []); rewrite files_fire. }
  rewrite withBookmarks_lookup by done. rewrite alter_const_insert.
  by rewrite (fromUri_bookmarks uri m file).
Qed.

Lemma updateLabel_files file index l c newLabel m :
  _files (updateLabel file index l c newLabel m)
  = _files (withBookmarks file
              (<[Z.to_nat index := mkBookmark l c (Some newLabel)]> (bookmarksOf m file)) m).
Proof.
  unfold updateLabel. rewrite files_fire, files_save, alter_const_insert.
  by destruct (eqb newLabel []); rewrite files_fire.
Qed.

(** X18: [_bookmarks.editGlobalLabel] on the node of a bookmark changes
    nothing when the file has no bookmark on the line of the node, and
    nothing when the input box is dismissed. The box offers the label of
    the first bookmark on that line; with the answer, that bookmark gets
    the answer as its label and the column of the node, and stays on its
    line, all the others are untouched, and a strictly sorted store stays
    strictly sorted. *)
Theorem editGlobalLabel_relabels (showInputBox : jsstring → option jsstring)
    (shown : jsstring) (description : option jsstring) (filePath : jsstring)
    (l c : Z) (nodeUri : Uri) (m : Manager) :
  let uri := Uri_file filePath in
  let bks := getBookmarksForFile uri m in
  let m' :=
    editGlobalLabel showInputBox
      (Some (GlobalBookmarkNode shown description filePath l c nodeUri)) m in
  (noMarkerOn l bks → m' = m)
  ∧ ∀ (k : nat) (b : Bookmark),
      bks !! k = Some b → line b = l → noMarkerOn l (take k bks) →
      match showInputBox (orEmpty (label b)) with
      | None => m' = m
      | Some newLabel =>
          getBookmarksForFile uri m' = <[k := mkBookmark l c (Some newLabel)]> bks
          ∧ line <$> getBookmarksForFile uri m' = line <$> bks
          ∧ (storeInvariant m → storeInvariant m')
      end.
Proof.
  intros uri bks m'. subst m'. cbn [editGlobalLabel]. fold uri.
  destruct (fromUri (Some uri) m) as [file|] eqn:Hfrom.
  2:{ split; [done|]. intros k b Hk. subst bks.
      by rewrite (fromUri_none uri m Hfrom) in Hk. }
  rewrite (fromUri_bookmarks uri m file Hfrom). fold bks.
  split.
  - intros Hno. by rewrite (indexOf_absent bks l 0 Hno).
  - intros k b Hk Hb Hfirst.
    rewrite (indexOf_present bks l k b 0 Hk Hb Hfirst).
    replace (0 + Z.of_nat k <? 0) with false by (symmetry; apply Z.ltb_ge; lia).
    rewrite Z.add_0_l, Nat2Z.id, Hk. cbn [mbind option_bind].
    destruct (showInputBox (orEmpty (label b))) as [newLabel|]; [|done].
    assert (Hfind : findFile (normalizePath (fsPath uri)) (_files m) = Some file)
      by exact Hfrom.
    assert (Hlines : line <$> <[k := mkBookmark l c (Some newLabel)]> bks = line <$> bks).
    { rewrite list_fmap_insert. apply list_insert_id.
      rewrite list_lookup_fmap, Hk. simpl. by rewrite Hb. }
    rewrite updateLabel_bookmarks by done. rewrite Nat2Z.id. fold bks.
    split; [done|]. split; [done|].
    intros Hinv. unfold storeInvariant. rewrite updateLabel_files. rewrite Nat2Z.id.
    apply withBookmarks_invariant; [done|].
    rewrite (fromUri_bookmarks uri m file Hfrom). fold bks.
    apply strictlySorted_lines. rewrite Hlines. apply strictlySorted_lines.
    subst bks. rewrite <- (fromUri_bookmarks uri m file Hfrom).
    by apply bookmarksOf_sorted.
Qed.

End SideBarCommands.

Lemma editGlobalLabel_relabels_witness :
  getBookmarksForFile (host := posix) appTs
    (editGlobalLabel (host := posix) (fun _ => Some (lit "entry"))
       (Some (GlobalBookmarkNode [] None (lit "/src/app.ts") 5 3 appTs))
       (managerOf [plain 2; plain 5; plain 9]))
  = [plain 2; mkBookmark 5 3 (Some (lit "entry")); plain 9].
Proof.
  exact (proj1 (proj2 (editGlobalLabel_relabels (host := posix)
                         (fun _ => Some (lit "entry")) [] None (lit "/src/app.ts") 5 3
                         appTs (managerOf [plain 2; plain 5; plain 9]))
                  1%nat (plain 5) eq_refl eq_refl
                  ltac:(repeat constructor; discriminate))).
Defined.

Section LabeledToggle.

Context {host : Host}.

Lemma toggle_labels uri l c lbl m :
  lbl ≠ [] →
  labelled l lbl (getBookmarksForFile uri (fst (toggle uri l c (Some lbl) m)))
  ∧ ∀ l', labelled l' lbl (getBookmarksForFile uri m) →
          labelled l' lbl (getBookmarksForFile uri (fst (toggle uri l c (Some lbl) m))).
Proof.
  intros Hlbl. destruct (toggle_spec uri l c (Some lbl) m) as [_ Hbks].
  cbn zeta in Hbks. rewrite Hbks. clear Hbks.
  set (bks := getBookmarksForFile uri m).
  assert (Htruthy : truthy (Some lbl) = true) by (by destruct lbl).
  rewrite Htruthy. cbn [orEmpty].
  destruct (indexOf_from_cases bks l 0) as [[Hidx Hno] | (k & b & Hidx & Hk & Hb & _)];
    rewrite Hidx.
  - replace (-1 >=? 0) with false by lia. split.
    + exists (mkBookmark l c (Some lbl)). split; [|done].
      rewrite (sortBy_perm line). apply elem_of_app. right. left.
    + intros l' (b' & Hin & Hl' & Hlabel). exists b'. split; [|done].
      rewrite (sortBy_perm line). apply elem_of_app. by left.
  - replace (0 + Z.of_nat k >=? 0) with true by (symmetry; apply Z.geb_le; lia).
    rewrite Z.add_0_l, Nat2Z.id. split.
    + exists (setLabel lbl b). split; [|by rewrite <- Hb].
      eapply list_elem_of_lookup_2. rewrite list_lookup_alter, decide_True by done.
      by rewrite Hk.
    + intros l' (b' & Hin & Hl' & Hlabel).
      apply list_elem_of_lookup_1 in Hin as [j Hj].
      destruct (decide (j = k)) as [-> | Hne].
      * exists (setLabel lbl b). rewrite Hk in Hj. injection Hj as ->.
        split; [|done]. eapply list_elem_of_lookup_2.
        rewrite list_lookup_alter, decide_True by done. by rewrite Hk.
      * exists b'. split; [|done]. eapply list_elem_of_lookup_2.
        rewrite list_lookup_alter, decide_False by done. exact Hj.
Qed.

Lemma toggleLabeledSelections_labels uri selections toggledLines lbl m :
  lbl ≠ [] →
  (∀ l, l ∈ toggledLines → labelled l lbl (getBookmarksForFile uri m)) →
  ∀ l, l ∈ toggledLines ++ (pos_line <$> selections) →
       labelled l lbl
         (getBookmarksForFile uri (toggleLabeledSelections uri selections toggledLines lbl m)).
Proof.
  intros Hlbl. revert toggledLines m.
  induction selections as [|sel rest IH]; intros toggledLines m Hdone l Hl.
  - rewrite app_nil_r in Hl. by apply Hdone.
  - cbn [toggleLabeledSelections]. rewrite fmap_cons in Hl.
    destruct (bool_decide_reflect (pos_line sel ∈ toggledLines)) as [Hseen | Hnew].
    + apply IH; [done|]. apply elem_of_app.
      apply elem_of_app in Hl as [Hl | Hl]; [by left|].
      apply elem_of_cons in Hl as [-> | Hl]; [by left|by right].
    + destruct (toggle_labels uri (pos_line sel) (character sel) lbl m Hlbl)
        as [Hhere Hothers].
      apply IH.
      * intros l0 [Hl0 | ->%list_elem_of_singleton]%elem_of_app; [|done].
        by apply Hothers, Hdone.
      * rewrite <- app_assoc. exact Hl.
Qed.

(** X19: when [bookmarks.toggleGlobalLabeled] goes through with a label
    that is not empty, the suggested one taken as it is or the one typed
    into the input box, every line that has a selection has a bookmark
    with that label afterwards, whether the line had a bookmark, labelled
    or not, or none, and no message is shown. When the input box is
    dismissed the manager is left as it was, and so it is, with the
    warning, when the box is left empty and the first line has no label to
    take away. The editor is an active one that is not a Search Editor. *)
Theorem toggleGlobalLabeled_labels (suggestion : jsstring)
    (useSelectionWhenAvailable : bool) (showInputBox : jsstring → option jsstring)
    (uri : Uri) (selection : Position) (others : list Position) (m : Manager) :
  let taken := negb (eqb suggestion []) && useSelectionWhenAvailable in
  let outcome :=
    toggleGlobalLabeled suggestion useSelectionWhenAvailable showInputBox
      (Some (mkTextEditor uri false (selection :: others))) m in
  (∀ lbl, lbl ≠ [] →
     (if taken then lbl = suggestion else ∀ value, showInputBox value = Some lbl) →
     snd outcome = Returns None
     ∧ ∀ sel, sel ∈ selection :: others →
         labelled (pos_line sel) lbl (getBookmarksForFile uri (fst outcome)))
  ∧ (taken = false → (∀ value, showInputBox value = None) →
     outcome = (m, Returns None))
  ∧ (taken = false → (∀ value, showInputBox value = Some []) →
     noMarkerOn (pos_line selection) (getBookmarksForFile uri m) →
     outcome
     = (m, Returns (Some (Warning
                            (lit "You must define a label for the global bookmark."))))).
Proof.
  intros taken outcome. subst outcome. unfold toggleGlobalLabeled.
  cbn [searchEditor document_uri selections]. fold taken.
  assert (Hloop : ∀ lbl, lbl ≠ [] → ∀ sel, sel ∈ selection :: others →
    labelled (pos_line sel) lbl
      (getBookmarksForFile uri
         (notifyAndSave (toggleLabeledSelections uri (selection :: others) [] lbl m)))).
  { intros lbl Hlbl sel Hsel.
    rewrite (getBookmarksForFile_files uri _
               (toggleLabeledSelections uri (selection :: others) [] lbl m))
      by (unfold notifyAndSave; by rewrite files_fire, files_save).
    apply toggleLabeledSelections_labels; [done|by intros ? ?%elem_of_nil|].
    rewrite app_nil_l. apply list_elem_of_fmap. by exists sel. }
  split_and!.
  - intros lbl Hlbl Hchosen. destruct taken.
    + subst lbl. split; [done|]. by apply Hloop.
    + rewrite Hchosen.
      replace (eqb lbl []) with false by (unfold eqb; by rewrite bool_decide_false).
      cbn [andb]. split; [done|]. by apply Hloop.
  - intros -> Hnone. by rewrite Hnone.
  - intros -> Hempty Hno. rewrite Hempty.
    assert (Hold : (match fromUri (Some uri) m with
                    | Some existingFile =>
                        if indexOfBookmark_from (bookmarksOf m existingFile)
                             (pos_line selection) 0 >=? 0
                        then orEmpty (bookmarksOf m existingFile
                                        !! Z.to_nat (indexOfBookmark_from
                                             (bookmarksOf m existingFile)
                                             (pos_line selection) 0) ≫= label)
                        else []
                    | None => []
                    end) = []).
    { destruct (fromUri (Some uri) m) as [file|] eqn:Hfrom; [|done].
      rewrite (fromUri_bookmarks uri m file Hfrom).
      by rewrite (indexOf_geb_not_found _ _ Hno). }
    rewrite Hold. unfold eqb. by rewrite !bool_decide_true by done.
Qed.

End LabeledToggle.

Lemma toggleGlobalLabeled_labels_witness :
  labelled 7 (lit "entry")
    (getBookmarksForFile (host := posix) appTs
       (fst (toggleGlobalLabeled (host := posix) [] false (fun _ => Some (lit "entry"))
               (Some (mkTextEditor appTs false [mkPosition 5 0; mkPosition 7 2]))
               (managerOf [plain 2; plain 5; plain 9])))).
Proof.
  refine (proj2 (proj1 (toggleGlobalLabeled_labels (host := posix) [] false
                          (fun _ => Some (lit "entry")) appTs (mkPosition 5 0)
                          [mkPosition 7 2] (managerOf [plain 2; plain 5; plain 9]))
                   (lit "entry") _ _) (mkPosition 7 2) _).
  - discriminate.
  - simpl. reflexivity.
  - right. left.
Defined.

(** ** From the tree of the side bar to the store *)

Section Tree.

Context {host : Host}.

Lemma getChildren_root hidePosition (m : Manager) (node : TreeNode) :
  node ∈ getChildren hidePosition None m
  ↔ ∃ i f, node = GlobalFileNode (path f) i ∧ _files m !! i = Some f ∧ nonEmpty f.
Proof.
  cbn [getChildren]. rewrite list_elem_of_omap. split.
  - intros (x & Hx & Hnode). apply elem_of_lookup_imap in Hx as (i & f & -> & Hf).
    unfold id in Hnode. destruct (0 <? Z.of_nat (length (bookmarks f))) eqn:Hlen; [|done].
    injection Hnode as <-. exists i, f. split; [done|]. split; [done|].
    unfold nonEmpty. destruct (bookmarks f); [done|done].
  - intros (i & f & -> & Hf & Hne). exists (Some (GlobalFileNode (path f) i)).
    split; [|done]. apply elem_of_lookup_imap. exists i, f. split; [|done].
    unfold nonEmpty in Hne. destruct (bookmarks f) as [|b rest]; [done|].
    change (length (b :: rest)) with (S (length rest)).
    by replace (0 <? Z.of_nat (S (length rest))) with true
      by (symmetry; apply Z.ltb_lt; lia).
Qed.

Lemma getChildren_file hidePosition (m : Manager) (filePath : jsstring) (i : nat)
    (node : TreeNode) :
  node ∈ getChildren hidePosition (Some (GlobalFileNode filePath i)) m →
  ∃ b shown description,
    b ∈ bookmarksOf m i
    ∧ node = GlobalBookmarkNode shown description filePath (line b) (column b)
               (Uri_file filePath).
Proof.
  cbn [getChildren]. intros (b & -> & Hb)%list_elem_of_fmap.
  exists b. eexists _, _. split; [done|reflexivity].
Qed.

(** X20: the tree of the side bar and the store fit together. A file
    node of the root stands for a file of the manager that holds a
    bookmark, and a node below it for one of the bookmarks of that file;
    [_bookmarks.deleteGlobalBookmark], given that node, removes exactly
    that bookmark: the file keeps all its other bookmarks, in their order,
    and every other file is untouched. This is for a strictly sorted store
    with one file for each path, on a host whose [Uri.file] gives a path
    of a file back as the path that [normalizePath] keeps. *)
Theorem deleteGlobalBookmark_of_tree (hidePosition : bool) (fileNode node : TreeNode)
    (m : Manager) :
  storeInvariant m → onePerPath m →
  (∀ f, f ∈ _files m → normalizePath (fsPath (Uri_file (path f))) = path f) →
  fileNode ∈ getChildren hidePosition None m →
  node ∈ getChildren hidePosition (Some fileNode) m →
  ∃ f b,
    f ∈ _files m ∧ b ∈ bookmarks f
    ∧ bookmarksAt (path f) (deleteGlobalBookmark (Some node) m)
      = filter (fun b' => line b' ≠ line b) (bookmarks f)
    ∧ ∀ q, q ≠ path f →
        bookmarksAt q (deleteGlobalBookmark (Some node) m) = bookmarksAt q m.
Proof.
  intros Hinv Hnd Hfile Hroot Hnode.
  apply getChildren_root in Hroot as (i & f & -> & Hf & Hne).
  apply getChildren_file in Hnode as (b & shown & description & Hb & ->).
  assert (Hin : f ∈ _files m) by (by eapply list_elem_of_lookup_2).
  assert (Hof : bookmarksOf m i = bookmarks f) by (unfold bookmarksOf; by rewrite Hf).
  rewrite Hof in Hb. exists f, b. split; [done|]. split; [done|].
  cbn [deleteGlobalBookmark].
  set (uri := Uri_file (path f)).
  assert (Hpath : normalizePath (fsPath uri) = path f) by (by apply Hfile).
  assert (Hbks : getBookmarksForFile uri m = bookmarks f).
  { by rewrite getBookmarksForFile_at, Hpath, bookmarksAt_elem. }
  split.
  - rewrite <- Hpath, <- getBookmarksForFile_at.
    destruct (toggle_spec uri (line b) (column b) None m) as [_ Hafter].
    cbn zeta in Hafter. rewrite Hafter, Hbks. cbn [truthy orUndefined].
    assert (Hsorted : strictlySorted (bookmarks f)).
    { unfold storeInvariant in Hinv. rewrite Forall_forall in Hinv. by apply Hinv. }
    rewrite <- (splice_found_geb _ (line b) (strictlySorted_NoDup _ Hsorted)).
    rewrite indexOf_geb_found; [done|].
    apply Exists_exists. by exists b.
  - intros q Hq. apply toggle_other. by rewrite Hpath.
Qed.

End Tree.

Lemma deleteGlobalBookmark_of_tree_witness :
  ∃ f b,
    f ∈ _files (managerOf [plain 2; plain 5])
    ∧ b ∈ bookmarks f
    ∧ bookmarksAt (path f)
        (deleteGlobalBookmark (host := posix)
           (Some (GlobalBookmarkNode (lit "Line 6") None (lit "/src/app.ts") 5 0 appTs))
           (managerOf [plain 2; plain 5]))
      = filter (fun b' => line b' ≠ line b) (bookmarks f)
    ∧ ∀ q, q ≠ path f →
        bookmarksAt q
          (deleteGlobalBookmark (host := posix)
             (Some (GlobalBookmarkNode (lit "Line 6") None (lit "/src/app.ts") 5 0 appTs))
             (managerOf [plain 2; plain 5]))
        = bookmarksAt q (managerOf [plain 2; plain 5]).
Proof.
  apply (deleteGlobalBookmark_of_tree (host := posix) true
           (GlobalFileNode (lit "/src/app.ts") 0)).
  - repeat constructor.
  - unfold onePerPath. simpl. apply NoDup_singleton.
  - intros f ->%list_elem_of_singleton. reflexivity.
  - left.
  - right. left.
Defined.

(** ** Positions as text, and back ([utils/fs.ts]) *)

Lemma digitsOf_digits (d : Decimal.uint) : Forall (fun c => isDigit c = true) (digitsOf d).
Proof. induction d; [constructor|by constructor..]. Qed.

Lemma decimal_from (d : Decimal.uint) (acc : positive) :
  fold_left (fun n c => 10 * n + Z.of_N (c - 48)) (digitsOf d) (Z.pos acc)
  = Z.pos (Pos.of_uint_acc d acc).
Proof.
  revert acc. induction d; intros acc; [done|..];
    match goal with
    | |- context [digitsOf (?D d)] =>
        let c := eval vm_compute in (hd 0%N (digitsOf (D Decimal.Nil))) in
        change (digitsOf (D d)) with (c :: digitsOf d)
    end;
    cbn [fold_left Pos.of_uint_acc]; rewrite <- IHd; f_equal;
    match goal with
    | |- context [Z.of_N ?x] =>
        let v := eval vm_compute in (Z.of_N x) in change (Z.of_N x) with v
    end; lia.
Qed.

Lemma decimal_digitsOf (d : Decimal.uint) : decimal (digitsOf d) = Z.of_N (Pos.of_uint d).
Proof.
  unfold decimal. induction d; [done|..]; cbn [Pos.of_uint].
  - exact IHd.
  - apply (decimal_from d 1).
  - apply (decimal_from d 2).
  - apply (decimal_from d 3).
  - apply (decimal_from d 4).
  - apply (decimal_from d 5).
  - apply (decimal_from d 6).
  - apply (decimal_from d 7).
  - apply (decimal_from d 8).
  - apply (decimal_from d 9).
Qed.

Lemma digitsOf_nonempty (d : Decimal.uint) : d ≠ Decimal.Nil → digitsOf d ≠ [].
Proof. by destruct d. Qed.

Lemma toString_digits (n : Z) :
  0 <= n →
  toString n ≠ [] ∧ Forall (fun c => isDigit c = true) (toString n)
  ∧ decimal (toString n) = n.
Proof.
  intros Hn. destruct n as [|p|p]; [| |lia].
  - split; [done|]. split; [by repeat constructor|done].
  - assert (Hto : toString (Z.pos p) = digitsOf (Pos.to_uint p)).
    { unfold toString, digitsOf. cbn [Z.to_int NilZero.string_of_int].
      unfold NilZero.string_of_uint.
      pose proof (Unsigned.to_uint_nonnil p) as Hnil.
      by destruct (Pos.to_uint p). }
    rewrite Hto. split; [apply digitsOf_nonempty, Unsigned.to_uint_nonnil|].
    split; [apply digitsOf_digits|].
    by rewrite decimal_digitsOf, DecimalPos.Unsigned.of_to.
Qed.

Lemma span_run (p : N → bool) (run rest : jsstring) :
  Forall (fun c => p c = true) run →
  match rest with c :: _ => p c = false | [] => True end →
  span p (run ++ rest) = (run, rest).
Proof.
  intros Hrun Hrest. induction Hrun as [|c run Hc _ IH].
  - destruct rest as [|c rest']; [done|]. simpl. by rewrite Hrest.
  - simpl. by rewrite Hc, IH.
Qed.

Lemma span_spec (p : N → bool) (s : jsstring) :
  Forall (fun c => p c = true) (fst (span p s)) ∧ s = fst (span p s) ++ snd (span p s).
Proof.
  induction s as [|c rest [IH1 IH2]]; [by split|]. simpl.
  destruct (p c) eqn:Hc; [|by split].
  destruct (span p rest) as [taken remaining]. cbn [fst snd] in *.
  split; [by constructor|]. simpl. by f_equal.
Qed.

Lemma literally_app (pre s : jsstring) : literally pre (pre ++ s) = Some s.
Proof.
  unfold literally, eqb. rewrite take_app_length, drop_app_length.
  by rewrite bool_decide_true.
Qed.

Lemma digits_run (run rest : jsstring) :
  run ≠ [] → Forall (fun c => isDigit c = true) run →
  match rest with c :: _ => isDigit c = false | [] => True end →
  digits (run ++ rest) = Some (run, rest).
Proof.
  intros Hne Hrun Hrest. unfold digits. rewrite span_run by done.
  by destruct run.
Qed.

Lemma digits_Some (s group rest : jsstring) :
  digits s = Some (group, rest) →
  group ≠ [] ∧ Forall (fun c => isDigit c = true) group.
Proof.
  unfold digits. pose proof (span_spec isDigit s) as [Hall _].
  destruct (span isDigit s) as [[|c taken] remaining]; [done|].
  intros [= <- <-]. by split.
Qed.

Lemma parseInt_digits (group : jsstring) :
  group ≠ [] → Forall (fun c => isDigit c = true) group →
  parseInt group = Some (decimal group) ∧ 0 <= decimal group.
Proof.
  intros Hne Hall. split.
  - unfold parseInt. destruct group as [|c rest]; [done|].
    apply Forall_cons in Hall as Hc. destruct Hc as [Hc Hrest].
    assert (Hws : isWhiteSpace c = false).
    { unfold isDigit in Hc. unfold isWhiteSpace.
      apply andb_true_iff in Hc as [H1%N.leb_le H2%N.leb_le].
      replace (c <=? 13)%N with false by (symmetry; apply N.leb_gt; lia).
      replace (8192 <=? c)%N with false by (symmetry; apply N.leb_gt; lia).
      repeat match goal with
             | |- context [(c =? ?k)%N] =>
                 replace (c =? k)%N with false by (symmetry; apply N.eqb_neq; lia)
             end.
      by rewrite andb_false_r. }
    cbn [trimStart]. rewrite Hws.
    assert (Hminus : (c =? 45)%N = false).
    { unfold isDigit in Hc. apply andb_true_iff in Hc as [H1%N.leb_le H2%N.leb_le].
      apply N.eqb_neq. lia. }
    assert (Hplus : (c =? 43)%N = false).
    { unfold isDigit in Hc. apply andb_true_iff in Hc as [H1%N.leb_le H2%N.leb_le].
      apply N.eqb_neq. lia. }
    rewrite Hminus, Hplus.
    rewrite <- (app_nil_r (c :: rest)) at 1. rewrite span_run by done.
    cbn [fst]. f_equal. lia.
  - unfold decimal.
    assert (Hfrom : ∀ acc, 0 <= acc →
      0 <= fold_left (fun n c => 10 * n + Z.of_N (c - 48)) group acc).
    { clear Hne. induction Hall as [|c rest _ _ IH]; intros acc Hacc; [done|].
      simpl. apply IH. lia. }
    by apply Hfrom.
Qed.

Lemma whiteSpace_space (s : jsstring) : whiteSpace (32%N :: s) = Some s.
Proof. done. Qed.

Lemma matchAtStart_positionText (l c : Z) :
  0 <= l → 0 <= c →
  matchAtStart (positionText l c) = Some (toString l, toString c).
Proof.
  intros Hl Hc.
  destruct (toString_digits l Hl) as (Hl1 & Hl2 & _).
  destruct (toString_digits c Hc) as (Hc1 & Hc2 & _).
  unfold matchAtStart.
  change (positionText l c)
    with (lit "(Ln" ++ 32%N :: toString l
            ++ (lit "," ++ 32%N :: (lit "Col" ++ 32%N :: toString c ++ (lit ")" ++ [])))).
  rewrite literally_app. cbn [mbind option_bind].
  rewrite whiteSpace_space. cbn [mbind option_bind].
  rewrite digits_run by done. cbn [mbind option_bind].
  rewrite literally_app. cbn [mbind option_bind].
  rewrite whiteSpace_space. cbn [mbind option_bind].
  rewrite literally_app. cbn [mbind option_bind].
  rewrite whiteSpace_space. cbn [mbind option_bind].
  rewrite digits_run by done. cbn [mbind option_bind].
  by rewrite literally_app.
Qed.

Lemma exec_Some (s l c : jsstring) :
  exec s = Some (l, c) →
  l ≠ [] ∧ Forall (fun d => isDigit d = true) l
  ∧ c ≠ [] ∧ Forall (fun d => isDigit d = true) c.
Proof.
  induction s as [|x rest IH]; cbn [exec].
  - destruct (matchAtStart []) eqn:Hm; [|done]. by vm_compute in Hm.
  - destruct (matchAtStart (x :: rest)) as [[l' c']|] eqn:Hm; [|exact IH].
    intros [= -> ->]. unfold matchAtStart in Hm.
    repeat match type of Hm with
           | (?x ≫= _) = Some _ =>
               let H := fresh "H" in
               destruct x as [?|] eqn:H; [cbn [mbind option_bind] in Hm|done]
           end.
    repeat match goal with p : (jsstring * jsstring)%type |- _ => destruct p end.
    cbn [mbind option_bind] in Hm.
    repeat match type of Hm with
           | (?x ≫= _) = Some _ =>
               let H := fresh "H" in
               destruct x as [?|] eqn:H; [cbn [mbind option_bind] in Hm|done]
           end.
    repeat match goal with p : (jsstring * jsstring)%type |- _ => destruct p end.
    cbn [mbind option_bind] in Hm.
    repeat match type of Hm with
           | (?x ≫= _) = Some _ =>
               let H := fresh "H" in
               destruct x as [?|] eqn:H; [cbn [mbind option_bind] in Hm|done]
           end.
    injection Hm as <- <-.
    repeat match goal with
           | H : digits _ = Some _ |- _ => apply digits_Some in H
           end.
    tauto.
Qed.

Lemma parsePosition_positionText (l c : Z) :
  0 <= l → 0 <= c →
  parsePosition (positionText l c) = Some (mkPoint (Some l) (Some c)).
Proof.
  intros Hl Hc. unfold parsePosition.
  assert (Hexec : exec (positionText l c) = Some (toString l, toString c)).
  { pose proof (matchAtStart_positionText l c Hl Hc) as Hm.
    destruct (positionText l c); cbn [exec]; by rewrite Hm. }
  rewrite Hexec.
  destruct (toString_digits l Hl) as (Hl1 & Hl2 & Hl3).
  destruct (toString_digits c Hc) as (Hc1 & Hc2 & Hc3).
  destruct (parseInt_digits _ Hl1 Hl2) as [-> _].
  destruct (parseInt_digits _ Hc1 Hc2) as [-> _].
  by rewrite Hl3, Hc3.
Qed.

(** X21: [parsePosition] reads back what the lists and the tree write.
    For a line and a column that are not negative, the text
    [(Ln l, Col c)] is parsed to that line and that column; and whatever
    the text, a position that [parsePosition] returns has a line and a
    column that are numbers, never [NaN], and not negative. *)
Theorem parsePosition_reads_back (l c : Z) :
  0 <= l → 0 <= c →
  parsePosition (positionText l c) = Some (mkPoint (Some l) (Some c))
  ∧ ∀ (position : jsstring) (point : Point),
      parsePosition position = Some point →
      ∃ l' c', point = mkPoint (Some l') (Some c') ∧ 0 <= l' ∧ 0 <= c'.
Proof.
  intros Hl Hc. split; [by apply parsePosition_positionText|].
  intros position point. unfold parsePosition.
  destruct (exec position) as [[gl gc]|] eqn:Hexec; [|done].
  intros [= <-]. apply exec_Some in Hexec as (Hl1 & Hl2 & Hc1 & Hc2).
  destruct (parseInt_digits _ Hl1 Hl2) as [-> Hl3].
  destruct (parseInt_digits _ Hc1 Hc2) as [-> Hc3].
  by eexists _, _.
Qed.

Lemma parsePosition_reads_back_witness :
  parsePosition (lit "(Ln 12, Col 5)") = Some (mkPoint (Some 12) (Some 5)).
Proof.
  exact (proj1 (parsePosition_reads_back 12 5 ltac:(lia) ltac:(lia))).
Defined.

(** ** The lists of bookmarks ([extension.ts], [core/operations.ts]) *)

Lemma length_flat_map {A B} (f : A → list B) (l : list A) :
  length (List.flat_map f l) = sum_list (length ∘ f <$> l).
Proof. induction l as [|x l IH]; [done|]. simpl. by rewrite length_app, IH. Qed.

Section Lists.

Context {host : Host}.

Lemma listGlobalsItems_length (m : Manager) :
  Z.of_nat (length (listGlobalsItems m)) = countBookmarks m.
Proof.
  destruct m as [files state events]. unfold listGlobalsItems. cbn [_files].
  induction files as [|f files IH]; [done|].
  rewrite countBookmarks_cons, <- IH. cbn [List.flat_map]. rewrite length_app.
  destruct (bookmarks f) as [|b rest]; [simpl; lia|].
  cbn [length Nat.eqb]. rewrite length_fmap. cbn [length]. lia.
Qed.

(** X22: [bookmarks.listGlobals] offers one item for every global
    bookmark, as many as [countBookmarks] counts; the item of a bookmark
    names the path of its file and has the position in a text that
    [parsePosition] of [utils/fs.ts] reads back as the line and the column
    of the bookmark plus one. With a parser that reads that text so,
    choosing the item makes the command reveal, in the document of the
    file, the line and the column the bookmark has in the store. This is
    for a bookmark whose line and column are not negative. *)
Theorem listGlobals_reveals (parser : jsstring → option Point) (activeTextEditor : bool)
    (showQuickPick : list BookmarkQuickPickItem → option BookmarkQuickPickItem)
    (m : Manager) (f : GlobalFile) (b : Bookmark) :
  f ∈ _files m → b ∈ bookmarks f → 0 <= line b → 0 <= column b →
  globalItem f b ∈ listGlobalsItems m
  ∧ Z.of_nat (length (listGlobalsItems m)) = countBookmarks m
  ∧ item_detail (globalItem f b) = path f
  ∧ parsePosition (item_description (globalItem f b))
    = Some (mkPoint (Some (line b + 1)) (Some (column b + 1)))
  ∧ (parser (item_description (globalItem f b))
     = parsePosition (item_description (globalItem f b)) →
     showQuickPick (listGlobalsItems m) = Some (globalItem f b) →
     listGlobals parser activeTextEditor showQuickPick m
     = RevealPosition (Uri_file (path f)) (Some (line b)) (Some (column b))).
Proof.
  intros Hf Hb Hl Hc.
  assert (Hparse : parsePosition (item_description (globalItem f b))
                   = Some (mkPoint (Some (line b + 1)) (Some (column b + 1)))).
  { change (item_description (globalItem f b))
      with (positionText (line b + 1) (column b + 1)).
    apply parsePosition_positionText; lia. }
  split_and!.
  - unfold listGlobalsItems. apply list_elem_of_In, in_flat_map.
    exists f. split; [by apply list_elem_of_In|].
    destruct (bookmarks f) as [|b0 rest] eqn:Hbks; [by apply elem_of_nil in Hb|].
    cbn [length Nat.eqb]. apply list_elem_of_In, list_elem_of_fmap. by exists b.
  - apply listGlobalsItems_length.
  - done.
  - exact Hparse.
  - intros Hparser Hpick. unfold listGlobals.
    assert (Hany : hasAnyBookmark m = true).
    { unfold hasAnyBookmark. apply (existsb_found _ _ f Hf).
      destruct (bookmarks f) as [|b0 rest]; [by apply elem_of_nil in Hb|].
      change (length (b0 :: rest)) with (S (length rest)).
      apply Z.ltb_lt. lia. }
    rewrite Hany, Hpick. cbn [negb]. rewrite Hparser, Hparse.
    cbn [item_uri globalItem point_line point_column fmap option_fmap option_map].
    f_equal; f_equal; lia.
Qed.

Lemma classify_items doc filePath uri (bks : list Bookmark) items invalids :
  Forall (fun b => 0 <= line b) bks →
  classify doc filePath uri bks items invalids
  = Some (items ++ (listedItem doc filePath uri
                      <$> filter (withinDocument (lineCount doc)) bks),
          invalids ++ ((fun b => line b + 1)
                         <$> filter (fun b => ¬ withinDocument (lineCount doc) b) bks)).
Proof.
  intros Hall. revert items invalids.
  induction Hall as [|b rest Hb _ IH]; intros items invalids.
  - cbn [classify]. by rewrite !app_nil_r.
  - cbn [classify].
    destruct (decide (withinDocument (lineCount doc) b)) as [Hin | Hout].
    + unfold withinDocument in Hin.
      replace (line b + 1 <=? lineCount doc) with true by lia.
      replace (line b + 1 - 1) with (line b) by lia.
      destruct (lineAt_within doc (line b) Hb Hin) as [t Ht]. rewrite Ht.
      rewrite IH.
      rewrite (filter_cons_True (withinDocument (lineCount doc))) by done.
      rewrite (filter_cons_False (fun b => ¬ withinDocument (lineCount doc) b))
        by (intros H; by apply H).
      rewrite fmap_cons, <- app_assoc. cbn [app].
      unfold listedItem at 2. rewrite Ht. cbn [default].
      by destruct (bool_decide (label b = Some [])).
    + unfold withinDocument in Hout.
      replace (line b + 1 <=? lineCount doc) with false by lia.
      rewrite IH.
      rewrite (filter_cons_False (withinDocument (lineCount doc))) by done.
      rewrite (filter_cons_True (fun b => ¬ withinDocument (lineCount doc) b)) by done.
      by rewrite fmap_cons, <- app_assoc.
Qed.

(** X23: when [listBookmarks] opens the document of a file that has
    bookmarks, all on lines that are not negative, the promise resolves to
    one item for each bookmark within the document and none for the
    others, in the order of the bookmarks; the item shows the text of the
    line, trimmed, for a bookmark whose label is empty and the label
    behind the tag icon otherwise, names the path of the file, and has the
    position in a text that [parsePosition] reads back as the line and the
    column of the bookmark plus one. *)
Theorem listBookmarks_items (file : File) (workspaceFolder : option Uri)
    (doc : TextDocument) :
  let uri := uriDocBookmark file workspaceFolder in
  file_bookmarks file ≠ [] →
  uriExists uri = true →
  openTextDocument uri = Some doc →
  Forall (fun b => 0 <= line b) (file_bookmarks file) →
  snd (listBookmarks file workspaceFolder)
  = Resolved (Some (listedItem doc (file_path file) uri
                      <$> filter (withinDocument (lineCount doc)) (file_bookmarks file)))
  ∧ ∀ b, 0 <= line b → 0 <= column b →
      parsePosition (item_description (listedItem doc (file_path file) uri b))
      = Some (mkPoint (Some (line b + 1)) (Some (column b + 1))).
Proof.
  intros uri Hne Hexists Hopen Hnn. split.
  - unfold listBookmarks. fold uri.
    destruct (file_bookmarks file) as [|b rest] eqn:Hbks; [done|].
    cbn [length Nat.eqb]. rewrite Hexists. cbn [negb]. rewrite Hopen.
    rewrite classify_items by done. by rewrite !app_nil_l.
  - intros b Hl Hc. cbn [item_description listedItem].
    apply parsePosition_positionText; lia.
Qed.

End Lists.

Lemma listGlobals_reveals_witness :
  listGlobals (host := posix) parsePosition true (fun items => items !! 1%nat)
    (managerOf [plain 2; mkBookmark 5 3 (Some (lit "entry")); plain 9])
  = RevealPosition appTs (Some 5) (Some 3).
Proof.
  refine (proj2 (proj2 (proj2 (proj2
            (listGlobals_reveals (host := posix) parsePosition true
               (fun items => items !! 1%nat)
               (managerOf [plain 2; mkBookmark 5 3 (Some (lit "entry")); plain 9])
               (mkGlobalFile (lit "/src/app.ts")
                  [plain 2; mkBookmark 5 3 (Some (lit "entry")); plain 9])
               (mkBookmark 5 3 (Some (lit "entry"))) _ _ _ _)))) _ _).
  - left.
  - right. left.
  - simpl. lia.
  - simpl. lia.
  - reflexivity.
  - reflexivity.
Defined.

Lemma listBookmarks_items_witness :
  snd (listBookmarks (host := posixSixLines) listedFile None)
  = Resolved (Some (listedItem (host := posixSixLines) sixLines (lit "src/app.ts") appTs
                      <$> [plain 2; plain 5])).
Proof.
  refine (proj1 (listBookmarks_items (host := posixSixLines) listedFile None sixLines
                   _ _ _ _)).
  - discriminate.
  - reflexivity.
  - reflexivity.
  - repeat constructor; simpl; lia.
Defined.

(** ** Selections along the bookmarks ([selections.ts]) *)

Lemma nextBookmark_beyond
    (NO_BOOKMARKS NO_MORE_BOOKMARKS NO_BOOKMARKS_BEFORE NO_BOOKMARKS_AFTER : Z)
    (navigateThroughAllFiles wrapNavigation : bool)
    (bookmarks : list Bookmark) (currentPosition next : Position)
    (direction : Directions) :
  bookmarks ≠ [] →
  navigateThroughAllFiles = true ∨ wrapNavigation = false →
  nextBookmark NO_BOOKMARKS NO_MORE_BOOKMARKS NO_BOOKMARKS_BEFORE NO_BOOKMARKS_AFTER
    navigateThroughAllFiles wrapNavigation bookmarks currentPosition direction
  = inr next →
  ∃ b, b ∈ bookmarks ∧ next = positionOf b
       ∧ match direction with
         | Forward => pos_line currentPosition < line b
         | Backward => line b < pos_line currentPosition
         end.
Proof.
  intros Hne Hnowrap Hnext.
  pose proof (nextBookmark_cases NO_BOOKMARKS NO_MORE_BOOKMARKS NO_BOOKMARKS_BEFORE
                NO_BOOKMARKS_AFTER navigateThroughAllFiles wrapNavigation bookmarks
                currentPosition direction) as Hcases.
  cbn zeta in Hcases. rewrite Hnext in Hcases.
  destruct Hcases as [[Hempty _] | (b & Hb & Hp & Hbeyond)]; [done|].
  exists b. split; [done|]. split; [done|]. by apply Hbeyond.
Qed.

(** X24: when wrapping is out of play ([navigateThroughAllFiles] on or
    [wrapNavigation] off), [shrinkSelection] moves the selection only to a
    bookmark on a line of the selection: for a selection made downwards,
    the nearest bookmark above its last line and not above its first; for
    one made upwards, the nearest bookmark below its first line and not
    below its last. It does so only for a single selection that is not
    empty. *)
Theorem shrinkSelection_within
    (NO_BOOKMARKS NO_MORE_BOOKMARKS NO_BOOKMARKS_BEFORE NO_BOOKMARKS_AFTER : Z)
    (navigateThroughAllFiles wrapNavigation : bool)
    (selection : Selection) (others : list Selection) (bookmarks : list Bookmark)
    (position : Position) (direction : Directions) :
  navigateThroughAllFiles = true ∨ wrapNavigation = false →
  shrinkSelection NO_BOOKMARKS NO_MORE_BOOKMARKS NO_BOOKMARKS_BEFORE NO_BOOKMARKS_AFTER
    navigateThroughAllFiles wrapNavigation (Some (selection, others)) bookmarks
  = shrinkSelectionToPosition position direction →
  others = [] ∧ isEmpty selection = false
  ∧ (∃ b, b ∈ bookmarks ∧ position = positionOf b)
  ∧ if isReversed selection
    then direction = Forward
         ∧ pos_line (sel_start selection) < pos_line position
           <= pos_line (sel_end selection)
    else direction = Backward
         ∧ pos_line (sel_start selection) <= pos_line position
           < pos_line (sel_end selection).
Proof.
  intros Hnowrap. unfold shrinkSelection.
  destruct (1 <? Z.of_nat (length (selection :: others))) eqn:Hmany; [done|].
  destruct (isEmpty selection); [done|].
  destruct (length bookmarks =? 0)%nat eqn:Hlen; [done|].
  assert (Hne : bookmarks ≠ []) by (by destruct bookmarks).
  assert (Hothers : others = []).
  { destruct others as [|other more]; [done|]. apply Z.ltb_ge in Hmany.
    change (length (selection :: other :: more)) with (S (S (length more))) in Hmany.
    lia. }
  destruct (isReversed selection).
  - destruct (nextBookmark _ _ _ _ _ _ bookmarks (sel_start selection) Forward)
      as [sentinel|next] eqn:Hnext; [done|].
    destruct (pos_line next >? pos_line (sel_end selection)) eqn:Hcmp; [done|].
    intros [= <- <-].
    destruct (nextBookmark_beyond _ _ _ _ _ _ _ _ _ _ Hne Hnowrap Hnext)
      as (b & Hb & -> & Hbeyond).
    split; [done|]. split; [done|]. split; [by exists b|].
    split; [done|]. cbn [positionOf pos_line] in *. lia.
  - destruct (nextBookmark _ _ _ _ _ _ bookmarks (sel_end selection) Backward)
      as [sentinel|next] eqn:Hnext; [done|].
    destruct (pos_line next <? pos_line (sel_start selection)) eqn:Hcmp; [done|].
    intros [= <- <-].
    destruct (nextBookmark_beyond _ _ _ _ _ _ _ _ _ _ Hne Hnowrap Hnext)
      as (b & Hb & -> & Hbeyond).
    split; [done|]. split; [done|]. split; [by exists b|].
    split; [done|]. cbn [positionOf pos_line] in *. lia.
Qed.

Lemma shrinkSelection_within_witness :
  [] = @nil Selection ∧ false = false
  ∧ (∃ b, b ∈ [plain 3; plain 7; plain 12] ∧ mkPosition 7 0 = positionOf b)
  ∧ Backward = Backward ∧ 5 <= 7 < 10.
Proof.
  exact (shrinkSelection_within (-1) (-2) (-3) (-4) false false
           (mkSelection (mkPosition 5 0) (mkPosition 10 4) (mkPosition 10 4) false false)
           [] [plain 3; plain 7; plain 12] (mkPosition 7 0) Backward
           (or_intror eq_refl) eq_refl).
Defined.

(** X25: when wrapping is out of play, [expandSelectionToNextBookmark]
    grows the selection only to a bookmark strictly beyond it in the
    direction asked for: below the last line of the selection, or the
    cursor's when the selection is empty, going forward, and above its
    first line going backward; and without such a bookmark it leaves the
    selection alone. *)
Theorem expandSelectionToNextBookmark_beyond
    (NO_BOOKMARKS NO_MORE_BOOKMARKS NO_BOOKMARKS_BEFORE NO_BOOKMARKS_AFTER : Z)
    (navigateThroughAllFiles wrapNavigation : bool)
    (selection : Selection) (others : list Selection) (bookmarks : list Bookmark)
    (direction : Directions) :
  navigateThroughAllFiles = true ∨ wrapNavigation = false →
  let from :=
    if isEmpty selection then sel_active selection
    else match direction with
         | Forward => sel_end selection
         | Backward => sel_start selection
         end in
  let beyond (b : Bookmark) :=
    match direction with
    | Forward => pos_line from < line b
    | Backward => line b < pos_line from
    end in
  match expandSelectionToNextBookmark NO_BOOKMARKS NO_MORE_BOOKMARKS NO_BOOKMARKS_BEFORE
          NO_BOOKMARKS_AFTER navigateThroughAllFiles wrapNavigation
          (Some (selection, others)) bookmarks direction with
  | expandSelectionToPosition position towards =>
      towards = direction ∧ ∃ b, b ∈ bookmarks ∧ position = positionOf b ∧ beyond b
  | setStatusBarMessage _ => Forall (fun b => ¬ beyond b) bookmarks
  | showInformationMessage _ => bookmarks = []
  | _ => False
  end.
Proof.
  intros Hnowrap from beyond. unfold expandSelectionToNextBookmark. fold from.
  destruct (length bookmarks =? 0)%nat eqn:Hlen; [by destruct bookmarks|].
  assert (Hne : bookmarks ≠ []) by (by destruct bookmarks).
  pose proof (nextBookmark_cases NO_BOOKMARKS NO_MORE_BOOKMARKS NO_BOOKMARKS_BEFORE
                NO_BOOKMARKS_AFTER navigateThroughAllFiles wrapNavigation bookmarks
                from direction) as Hcases.
  cbn zeta in Hcases.
  destruct (nextBookmark _ _ _ _ _ _ bookmarks from direction) as [sentinel|next].
  - by destruct Hcases as [[Hempty _] | (_ & Hall & _)].
  - destruct Hcases as [[Hempty _] | (b & Hb & Hp & Hbeyond)]; [done|].
    split; [done|]. exists b. split; [done|]. split; [done|]. by apply Hbeyond.
Qed.

Lemma expandSelectionToNextBookmark_beyond_witness :
  Forward = Forward
  ∧ ∃ b, b ∈ [plain 3; plain 7; plain 12] ∧ mkPosition 12 0 = positionOf b
         ∧ 7 < line b.
Proof.
  exact (expandSelectionToNextBookmark_beyond (-1) (-2) (-3) (-4) true true
           (mkSelection (mkPosition 5 0) (mkPosition 7 4) (mkPosition 7 4) false false) []
           [plain 3; plain 7; plain 12] Forward (or_introl eq_refl)).
Defined.

(** ** What [listBookmarks] takes away ([core/operations.ts]) *)

Lemma classify_invalids `{host : Host} doc filePath uri (bks : list Bookmark)
    items invalids items' invalids' :
  classify doc filePath uri bks items invalids = Some (items', invalids') →
  invalids' = invalids ++ ((fun b => line b + 1)
                             <$> filter (fun b => ¬ withinDocument (lineCount doc) b) bks).
Proof.
  revert items invalids. induction bks as [|b rest IH]; intros items invalids.
  - cbn [classify]. intros [= _ <-]. by rewrite app_nil_r.
  - cbn [classify].
    destruct (decide (withinDocument (lineCount doc) b)) as [Hin | Hout].
    + unfold withinDocument in Hin.
      replace (line b + 1 <=? lineCount doc) with true by lia.
      destruct (lineAt doc (line b + 1 - 1)); [|done].
      intros H. apply IH in H. rewrite H.
      by rewrite (filter_cons_False (fun b => ¬ withinDocument (lineCount doc) b))
        by (intros Hn; by apply Hn).
    + unfold withinDocument in Hout.
      replace (line b + 1 <=? lineCount doc) with false by lia.
      intros H. apply IH in H. rewrite H.
      rewrite (filter_cons_True (fun b => ¬ withinDocument (lineCount doc) b)) by done.
      by rewrite fmap_cons, <- app_assoc.
Qed.

(** X26: whatever the order of the bookmarks, [listBookmarks] takes
    bookmarks away from the end of the list only: the file is left with
    the first bookmarks of its list, as many as it has bookmarks within
    the document, whichever bookmarks those first ones are; its path and
    its [uri] stay. Nothing is taken away when the file has no bookmark,
    when its document does not exist or cannot be opened, or when no
    bookmark points past the end of the document. *)
Theorem listBookmarks_drops_from_the_end `{host : Host} (file : File)
    (workspaceFolder : option Uri) :
  let after := fst (listBookmarks file workspaceFolder) in
  let uri := uriDocBookmark file workspaceFolder in
  file_path after = file_path file ∧ file_uri after = file_uri file
  ∧ match snd (listBookmarks file workspaceFolder), openTextDocument uri with
    | Resolved (Some items), Some doc =>
        file_bookmarks after
        = take (length (filter (withinDocument (lineCount doc)) (file_bookmarks file)))
            (file_bookmarks file)
    | _, _ => file_bookmarks after = file_bookmarks file
    end.
Proof.
  intros after uri. subst after. unfold listBookmarks. fold uri.
  destruct (length (file_bookmarks file) =? 0)%nat eqn:Hlen.
  { cbn [fst snd]. split; [done|]. split; [done|]. by destruct (openTextDocument uri). }
  destruct (uriExists uri); cbn [negb].
  2:{ cbn [fst snd]. split; [done|]. split; [done|]. by destruct (openTextDocument uri). }
  destruct (openTextDocument uri) as [doc|]; [|done].
  destruct (classify doc (file_path file) uri (file_bookmarks file) [] [])
    as [[items invalids]|] eqn:Hclassify; [|done].
  cbn [fst snd file_path file_uri file_bookmarks]. split; [done|]. split; [done|].
  apply classify_invalids in Hclassify. rewrite app_nil_l in Hclassify.
  rewrite removeInvalids_take, Hclassify, length_fmap. f_equal.
  pose proof (Permutation_length
                (filter_app_complement (withinDocument (lineCount doc))
                   (file_bookmarks file))) as Hsum.
  rewrite length_app in Hsum. lia.
Qed.

(** ** Saving after every command *)

Section Persisted.

Context {host : Host}.



End Persisted.

(** ** Sorting and searching ([core/operations.ts]) *)

Lemma NoDup_strictly (lines : list Z) :
  StronglySorted Z.le lines → NoDup lines → StronglySorted Z.lt lines.
Proof.
  induction 1 as [|l rest Hs IH Hall]; [constructor|].
  intros [Hl Hnd]%NoDup_cons. constructor; [by apply IH|].
  apply Forall_forall. intros x Hx. rewrite Forall_forall in Hall.
  specialize (Hall x Hx). destruct (decide (x = l)) as [-> | Hne]; [done|lia].
Qed.

Lemma sortedByLine_lines (bks : list Bookmark) :
  sortedByLine bks ↔ StronglySorted Z.le (line <$> bks).
Proof.
  unfold sortedByLine. induction bks as [|b rest IH]; [split; constructor|].
  rewrite fmap_cons. split.
  - inversion 1 as [|? ? Hs Hall]; subst. constructor; [by apply IH|].
    by apply Forall_fmap.
  - inversion 1 as [|? ? Hs Hall]; subst. constructor; [by apply IH|].
    rewrite Forall_fmap in Hall. eapply Forall_impl; [exact Hall|]. by intros x.
Qed.

(** X28: [sortBookmarks] puts the bookmarks in ascending order of line
    and loses or adds none; when no two of them are on one line the result
    is strictly sorted, the order of a store, and a list that is in order
    already is left as it is. *)
Theorem sortBookmarks_sorts (bks : list Bookmark) :
  sortedByLine (sortBookmarks bks)
  ∧ sortBookmarks bks ≡ₚ bks
  ∧ (NoDup (line <$> bks) → strictlySorted (sortBookmarks bks))
  ∧ (sortedByLine bks → sortBookmarks bks = bks).
Proof.
  unfold sortBookmarks. split_and!.
  - apply sortBy_is_sorted.
  - apply sortBy_perm.
  - intros Hnd. apply strictlySorted_lines, NoDup_strictly.
    + apply sortedByLine_lines, sortBy_is_sorted.
    + by rewrite (sortBy_perm line bks).
  - apply sortBy_sorted.
Qed.

(** X29: [indexOfBookmark] returns [-1] exactly when the file has no
    bookmark on the line, and otherwise the index of the first bookmark on
    that line, an index within the list. *)
Theorem indexOfBookmark_finds (file : GlobalFile) (l : Z) :
  (indexOfBookmark file l = -1 ↔ noMarkerOn l (bookmarks file))
  ∧ (indexOfBookmark file l ≠ -1 →
     ∃ (k : nat) (b : Bookmark),
       indexOfBookmark file l = Z.of_nat k
       ∧ bookmarks file !! k = Some b ∧ line b = l
       ∧ noMarkerOn l (take k (bookmarks file))).
Proof.
  unfold indexOfBookmark.
  destruct (indexOf_from_cases (bookmarks file) l 0)
    as [[Hidx Hno] | (k & b & Hidx & Hk & Hb & Hfirst)].
  - split; [by split|]. by rewrite Hidx.
  - rewrite Hidx, Z.add_0_l. split.
    + split; [lia|]. intros Hno. exfalso. unfold noMarkerOn in Hno.
      rewrite Forall_forall in Hno. apply (Hno b); [|done].
      by eapply list_elem_of_lookup_2.
    + intros _. by exists k, b.
Qed.

(** ** Loading, case by case ([global/globalBookmarks.ts]) *)

Section Loading.

Context {host : Host}.

Lemma mapElements_throws (parsed : list JSONElement) (e : jsstring) :
  head (omap withoutPath parsed) = Some e → mapElements parsed = Throws e.
Proof.
  induction parsed as [|[f|p e'|e'] parsed IH]; [done| | |]; simpl.
  - intros H. by rewrite (IH H).
  - intros H. by rewrite (IH H).
  - by intros [= ->].
Qed.

Lemma mapElements_returns (parsed : list JSONElement) :
  head (omap withoutPath parsed) = None →
  ∃ mapped, mapElements parsed = Returns mapped
    ∧ omap withoutPath mapped = []
    ∧ omap withoutBookmarks mapped = omap withoutBookmarks parsed.
Proof.
  induction parsed as [|[f|p e'|e'] parsed IH]; simpl.
  - intros _. by exists [].
  - intros H. destruct (IH H) as (mapped & -> & Hpaths & Hbks).
    eexists. split; [done|]. cbn [omap list_omap withoutPath withoutBookmarks].
    by rewrite Hpaths, Hbks.
  - intros H. destruct (IH H) as (mapped & -> & Hpaths & Hbks).
    eexists. split; [done|]. cbn [omap list_omap withoutPath withoutBookmarks].
    by rewrite Hpaths, Hbks.
  - done.
Qed.

Lemma countLoaded_throws (mapped : list JSONElement) (e : jsstring) :
  omap withoutPath mapped = [] → head (omap withoutBookmarks mapped) = Some e →
  countLoaded mapped = Throws e.
Proof.
  induction mapped as [|[f|p e'|e'] mapped IH]; [done| | |]; simpl.
  - intros Hpaths H. by rewrite (IH Hpaths H).
  - by intros _ [= ->].
  - done.
Qed.

Lemma countLoaded_returns (mapped : list JSONElement) :
  omap withoutPath mapped = [] → head (omap withoutBookmarks mapped) = None →
  ∃ files, countLoaded mapped = Returns files.
Proof.
  induction mapped as [|[f|p e'|e'] mapped IH]; simpl.
  - intros _ _. by exists [].
  - intros Hpaths H. destruct (IH Hpaths H) as (files & ->). by eexists.
  - done.
  - done.
Qed.

(** What [load] catches for an array. *)
Lemma load_thrownFor (m : Manager) (saved : jsstring) (parsed : list JSONElement) :
  globalState m = Some saved → saved ≠ [] →
  JSON_parse saved = Returns (JSONArray parsed) →
  match thrownFor parsed with
  | Some e =>
      load m
      = setFiles []
          (fire (showErrorMessage (lit "Error loading global bookmarks: {0}") [e]) m)
  | None =>
      ∃ stored, parsed = JSONFile <$> stored
        ∧ load m
          = setFiles
              (List.map (fun file => setPath (normalizePath (path file)) file) stored) m
  end.
Proof.
  intros Hsaved Hne Hparse.
  assert (Hload : load m
    = match mapElements parsed with
      | Throws e =>
          setFiles []
            (fire (showErrorMessage (lit "Error loading global bookmarks: {0}") [e]) m)
      | Returns mapped =>
          match countLoaded mapped with
          | Throws e =>
              setFiles []
                (fire (showErrorMessage (lit "Error loading global bookmarks: {0}") [e]) m)
          | Returns files => setFiles files m
          end
      end).
  { unfold load. rewrite Hsaved. cbn [from_option id].
    unfold eqb. rewrite bool_decide_false by done. cbn [negb]. by rewrite Hparse. }
  unfold thrownFor.
  destruct (head (omap withoutPath parsed)) as [e|] eqn:Hpath.
  - by rewrite Hload, (mapElements_throws parsed e Hpath).
  - destruct (mapElements_returns parsed Hpath) as (mapped & Hmap & Hpaths & Hbks).
    rewrite <- Hbks.
    destruct (head (omap withoutBookmarks mapped)) as [e|] eqn:Hcount.
    + by rewrite Hload, Hmap, (countLoaded_throws mapped e Hpaths Hcount).
    + destruct (countLoaded_returns mapped Hpaths Hcount) as (files & Hfiles).
      pose proof (countLoaded_Returns mapped files Hfiles) as ->.
      destruct (mapElements_Returns parsed files Hmap) as (stored & -> & ->).
      exists stored. split; [done|]. by rewrite Hload, Hmap, Hfiles.
Qed.

(** X30: [load] never throws. With nothing stored, or the empty text, it
    leaves the manager as it is. With a text that [JSON.parse] rejects it
    empties the manager and shows one error message that carries the
    error; the stored text is not touched. With a text that parses to
    something other than an array it leaves the manager as it is, without
    a message. With an array of files it takes the elements as the files,
    in their order and with their bookmarks as they are, each under its
    normalised path. With an array that has an element without a string
    path, or without bookmarks, it empties the manager and shows one error
    message, as for a text that does not parse: the error is the one of the
    first element without a path, or else of the first without
    bookmarks. *)
Theorem load_cases (m : Manager) :
  (globalState m = None ∨ globalState m = Some [] → load m = m)
  ∧ ∀ saved, globalState m = Some saved → saved ≠ [] →
      globalState (load m) = Some saved
      ∧ match JSON_parse saved with
        | Throws e =>
            _files (load m) = []
            ∧ fired (load m)
              = fired m ++ [showErrorMessage (lit "Error loading global bookmarks: {0}") [e]]
        | Returns JSONOther => load m = m
        | Returns (JSONArray parsed) =>
            match thrownFor parsed with
            | Some e =>
                _files (load m) = []
                ∧ fired (load m)
                  = fired m
                    ++ [showErrorMessage (lit "Error loading global bookmarks: {0}") [e]]
            | None =>
                ∃ stored, parsed = JSONFile <$> stored
                  ∧ path <$> _files (load m) = normalizePath ∘ path <$> stored
                  ∧ bookmarks <$> _files (load m) = bookmarks <$> stored
                  ∧ fired (load m) = fired m
            end
        end.
Proof.
  split.
  - intros [Hnone | Hempty]; unfold load; [by rewrite Hnone|by rewrite Hempty].
  - intros saved Hsaved Hne.
    destruct (JSON_parse saved) as [[parsed|]|e] eqn:Hparse.
    + pose proof (load_thrownFor m saved parsed Hsaved Hne Hparse) as Hload.
      destruct (thrownFor parsed) as [e|].
      * by rewrite Hload.
      * destruct Hload as (stored & -> & ->).
        cbn [setFiles _files fired globalState]. split; [done|].
        exists stored. split_and!; [done| | |done].
        -- clear. induction stored as [|f stored IH]; [done|].
           cbn [List.map]. rewrite !fmap_cons. by rewrite IH.
        -- clear. induction stored as [|f stored IH]; [done|].
           cbn [List.map]. rewrite !fmap_cons. by rewrite IH.
    + unfold load. rewrite Hsaved. cbn [from_option id]. unfold eqb.
      rewrite bool_decide_false by done. cbn [negb]. by rewrite Hparse.
    + by rewrite (load_malformed m saved e Hsaved Hne Hparse).
Qed.

End Loading.
